(** * Irrigation control kernel: a shallow embedding of the MicroPython sources

    The development follows the modules of the controller:
    [settings_manager], [program_state], [zone_manager], [program_manager]
    and the command routes of [web_server].  Every module-level variable of
    the Python program is a field of one [State] record; functions of the
    program are state transformers that may raise a Python exception.

    Two features of the source shape the model.

    - A Python [from m import x] copies the current value of [m.x] into a
      variable of the importing module.  [program_state.program_running],
      [program_manager.program_running], [zone_manager.program_running] and
      [web_server.program_running] are therefore four distinct variables,
      and the model keeps the four of them apart.
    - Coroutines are interleaved at [await asyncio.sleep(1)] only.  One second
      of sleep lets the due auto-stop timers fire and the web task serve the
      requests that arrived during that second. *)

From stdpp Require Import gmap strings list fin_maps pretty.
From Stdlib Require Import DecimalString.

Set Warnings "-register-all".
Open Scope Z_scope.

(** ** JSON documents ([ujson]) *)

(** Objects are finite maps from strings, arrays are lists.  Floating-point
    numbers do not occur in the documents of the controller and are left out. *)
Inductive json : Type :=
| JNull
| JBool (b : bool)
| JInt (n : Z)
| JStr (s : string)
| JList (l : list json)
| JDict (d : gmap string json).

(** Python exceptions that the sources raise or catch. *)
Inductive exn : Type :=
| OSError | ValueError | TypeError | KeyError | AttributeError.

Inductive outcome (A : Type) : Type :=
| Ret (a : A)
| Raise (e : exn).
Arguments Ret {A} a.
Arguments Raise {A} e.

(** A file of the flash file system: absent ([open] raises [OSError]),
    present but not parseable ([ujson.load] raises [ValueError]) or holding a
    document. *)
Inductive file (A : Type) : Type :=
| Missing
| Corrupt
| Stored (a : A).
Arguments Missing {A}.
Arguments Corrupt {A}.
Arguments Stored {A} & a.

(** ** Data model *)

(** One step of a program: [step.get('zone_id')], [step.get('duration', 1)]. *)
Record step : Type := Step {
  s_zone_id : option Z;
  s_duration : option Z
}.

(** A stored program; every key of the dictionary is optional in the source,
    which reads them with [.get]. *)
Record program : Type := Program {
  p_id : option string;
  p_name : option string;
  p_months : option (list string);
  p_recurrence : option string;
  p_interval_days : option Z;
  p_activation_time : option string;
  p_steps : option (list step);
  p_last_run_date : option string
}.

(** [program.json]: a dictionary keyed by the stringified id, kept as the
    list of its items in the order in which [programs.items()] yields them
    (keys are distinct). *)
Definition programs : Type := list (string * program).

(** [program_state.json] as [save_program_state] writes it: an object with the
    two keys that [load_program_state] reads. *)
Record state_doc : Type := StateDoc {
  sd_program_running : option bool;
  sd_current_program_id : option string
}.

(** What [ujson.load] makes of a [program_state.json] that parses: an object,
    or a value of another kind (a list, a number, a string, [null]), which
    has no method [get]. *)
Inductive state_json : Type :=
| StateObject (doc : state_doc)
| StateOther.

Coercion StateObject : state_doc >-> state_json.

(** The auto-stop timer task created by [start_zone]. *)
Inductive task_status : Type := Pending | Cancelled | Finished.

Record timer : Type := Timer {
  t_zone : Z;
  t_due : Z;
  t_status : task_status
}.

(** An entry of [active_zones]; [zr_task] is the handle of the timer task, an
    index into the task table. *)
Record zone_rec : Type := ZoneRec {
  zr_start_time : Z;
  zr_duration : Z;
  zr_task : nat
}.

(** The messages of [log_event] that the development traces.  The remaining
    calls of [log_event] have no effect on the state modelled here. *)
Inductive log_entry : Type :=
| LogScheduledStart (name : string)
| LogSchedulerBusy
| LogAlreadyRunning
| LogProgramStart (name id : string)
| LogInterrupted
| LogStepMissingZone (i : nat)
| LogStepFailed (zone : Z)
| LogProgramCompleted (name : string)
| LogProgramError (name : string)
| LogNothingToStop
| LogStopping
| LogLastRun (id date : string)
| LogRouteStartZone (zone duration : Z).

(** Requests that the web task can serve while another coroutine sleeps. *)
Inductive ext_cmd : Type :=
| ExtStartZone (zone_id duration : Z)
| ExtStopZone (zone_id : Z)
| ExtStopProgram.

(** An HTTP answer: status code and the [success] field of the body. *)
Record response : Type := Response {
  r_status : Z;
  r_success : bool
}.

(** ** The state of the controller *)

Record State : Type := MkState {
  (* module program_state *)
  ps_program_running : bool;
  ps_current_program_id : option string;
  (* names bound in module program_manager *)
  pm_program_running : bool;
  pm_current_program_id : option string;
  (* name bound in module zone_manager *)
  zm_program_running : bool;
  (* name bound in module web_server *)
  ws_program_running : bool;
  (* module zone_manager *)
  active_zones : gmap Z zone_rec;
  zone_pins : gmap Z Z;
  safety_relay : option Z;
  (* hardware and runtime *)
  gpio : gmap Z Z;
  tasks : list timer;
  clock : Z;
  (* flash *)
  settings_file : file json;
  programs_file : file programs;
  state_file : file state_json;
  (* observers *)
  log : list log_entry;
  replies : list (ext_cmd * response)
}.

Definition set_ps (r : bool) (c : option string) (st : State) : State :=
  MkState r c (pm_program_running st) (pm_current_program_id st)
    (zm_program_running st) (ws_program_running st) (active_zones st)
    (zone_pins st) (safety_relay st) (gpio st) (tasks st) (clock st)
    (settings_file st) (programs_file st) (state_file st) (log st) (replies st).

Definition set_pm_program_running (r : bool) (st : State) : State :=
  MkState (ps_program_running st) (ps_current_program_id st) r
    (pm_current_program_id st) (zm_program_running st) (ws_program_running st)
    (active_zones st) (zone_pins st) (safety_relay st) (gpio st) (tasks st)
    (clock st) (settings_file st) (programs_file st) (state_file st) (log st)
    (replies st).

Definition set_pm_current_program_id (c : option string) (st : State) : State :=
  MkState (ps_program_running st) (ps_current_program_id st)
    (pm_program_running st) c (zm_program_running st) (ws_program_running st)
    (active_zones st) (zone_pins st) (safety_relay st) (gpio st) (tasks st)
    (clock st) (settings_file st) (programs_file st) (state_file st) (log st)
    (replies st).

Definition set_zm_program_running (r : bool) (st : State) : State :=
  MkState (ps_program_running st) (ps_current_program_id st)
    (pm_program_running st) (pm_current_program_id st) r
    (ws_program_running st) (active_zones st) (zone_pins st) (safety_relay st)
    (gpio st) (tasks st) (clock st) (settings_file st) (programs_file st)
    (state_file st) (log st) (replies st).

Definition set_active_zones (m : gmap Z zone_rec) (st : State) : State :=
  MkState (ps_program_running st) (ps_current_program_id st)
    (pm_program_running st) (pm_current_program_id st) (zm_program_running st)
    (ws_program_running st) m (zone_pins st) (safety_relay st) (gpio st)
    (tasks st) (clock st) (settings_file st) (programs_file st) (state_file st)
    (log st) (replies st).

Definition set_pins (zp : gmap Z Z) (sr : option Z) (st : State) : State :=
  MkState (ps_program_running st) (ps_current_program_id st)
    (pm_program_running st) (pm_current_program_id st) (zm_program_running st)
    (ws_program_running st) (active_zones st) zp sr (gpio st) (tasks st)
    (clock st) (settings_file st) (programs_file st) (state_file st) (log st)
    (replies st).

Definition set_gpio (g : gmap Z Z) (st : State) : State :=
  MkState (ps_program_running st) (ps_current_program_id st)
    (pm_program_running st) (pm_current_program_id st) (zm_program_running st)
    (ws_program_running st) (active_zones st) (zone_pins st) (safety_relay st)
    g (tasks st) (clock st) (settings_file st) (programs_file st)
    (state_file st) (log st) (replies st).

Definition set_tasks (ts : list timer) (st : State) : State :=
  MkState (ps_program_running st) (ps_current_program_id st)
    (pm_program_running st) (pm_current_program_id st) (zm_program_running st)
    (ws_program_running st) (active_zones st) (zone_pins st) (safety_relay st)
    (gpio st) ts (clock st) (settings_file st) (programs_file st)
    (state_file st) (log st) (replies st).

Definition set_clock (t : Z) (st : State) : State :=
  MkState (ps_program_running st) (ps_current_program_id st)
    (pm_program_running st) (pm_current_program_id st) (zm_program_running st)
    (ws_program_running st) (active_zones st) (zone_pins st) (safety_relay st)
    (gpio st) (tasks st) t (settings_file st) (programs_file st)
    (state_file st) (log st) (replies st).

Definition set_settings_file (f : file json) (st : State) : State :=
  MkState (ps_program_running st) (ps_current_program_id st)
    (pm_program_running st) (pm_current_program_id st) (zm_program_running st)
    (ws_program_running st) (active_zones st) (zone_pins st) (safety_relay st)
    (gpio st) (tasks st) (clock st) f (programs_file st) (state_file st)
    (log st) (replies st).

Definition set_programs_file (f : file programs) (st : State) : State :=
  MkState (ps_program_running st) (ps_current_program_id st)
    (pm_program_running st) (pm_current_program_id st) (zm_program_running st)
    (ws_program_running st) (active_zones st) (zone_pins st) (safety_relay st)
    (gpio st) (tasks st) (clock st) (settings_file st) f (state_file st)
    (log st) (replies st).

Definition set_state_file (f : file state_json) (st : State) : State :=
  MkState (ps_program_running st) (ps_current_program_id st)
    (pm_program_running st) (pm_current_program_id st) (zm_program_running st)
    (ws_program_running st) (active_zones st) (zone_pins st) (safety_relay st)
    (gpio st) (tasks st) (clock st) (settings_file st) (programs_file st) f
    (log st) (replies st).

Definition add_log (e : log_entry) (st : State) : State :=
  MkState (ps_program_running st) (ps_current_program_id st)
    (pm_program_running st) (pm_current_program_id st) (zm_program_running st)
    (ws_program_running st) (active_zones st) (zone_pins st) (safety_relay st)
    (gpio st) (tasks st) (clock st) (settings_file st) (programs_file st)
    (state_file st) (log st ++ [e]) (replies st).

Definition add_reply (c : ext_cmd) (r : response) (st : State) : State :=
  MkState (ps_program_running st) (ps_current_program_id st)
    (pm_program_running st) (pm_current_program_id st) (zm_program_running st)
    (ws_program_running st) (active_zones st) (zone_pins st) (safety_relay st)
    (gpio st) (tasks st) (clock st) (settings_file st) (programs_file st)
    (state_file st) (log st) (replies st ++ [(c, r)]).

(** ** The environment: hardware faults, calendar, incoming requests *)

(** What the program reads from outside and cannot control: which pins and
    which files refuse a write, and whether a refused file write fails when
    the file is opened or only after that; the broken-down local time of a
    clock value ([time.localtime], [time.strftime], [time.mktime]) and the
    requests that reach the web task during each second. *)
Record Env : Type := MkEnv {
  gpio_fault : Z → bool;
  write_fault : string → bool;
  write_torn : string → bool;
  local_hhmm : Z → string;
  local_month : Z → Z;
  local_yday : Z → Z;
  local_date : Z → string;
  date_yday : string → option Z;
  incoming : Z → list ext_cmd
}.

(** ** A state monad with exceptions *)

Definition M (A : Type) : Type := State → outcome A * State.

Definition ret {A} (a : A) : M A := λ st, (Ret a, st).
Definition raise {A} (e : exn) : M A := λ st, (Raise e, st).
Definition bind {A B} (m : M A) (k : A → M B) : M B :=
  λ st, match m st with
        | (Ret a, st') => k a st'
        | (Raise e, st') => (Raise e, st')
        end.
Definition gets {A} (f : State → A) : M A := λ st, (Ret (f st), st).
Definition modify (f : State → State) : M unit := λ st, (Ret tt, f st).

(** [try: m except ...: h e] *)
Definition try_except {A} (m : M A) (h : exn → M A) : M A :=
  λ st, match m st with
        | (Raise e, st') => h e st'
        | r => r
        end.

(** [try: m finally: c]: the cleanup runs on every exit; an exception of the
    cleanup replaces the pending result. *)
Definition finally {A} (m : M A) (c : M unit) : M A :=
  λ st, let '(o, st') := m st in
        match c st' with
        | (Ret _, st'') => (o, st'')
        | (Raise e, st'') => (Raise e, st'')
        end.

(** An outcome computed without touching the state. *)
Definition lift {A} (o : outcome A) : M A := λ st, (o, st).

Declare Scope py_scope.
Delimit Scope py_scope with py.
Notation "x <- m ;; k" := (bind m (λ x, k))
  (at level 20, m at level 99, k at level 200, only parsing) : py_scope.
Notation "m ;; k" := (bind m (λ _, k))
  (at level 100, k at level 200, right associativity, only parsing) : py_scope.
Open Scope py_scope.

Definition log_event (e : log_entry) : M unit := modify (add_log e).

Definition state_of {A} (r : outcome A * State) : State := r.2.
Definition result_of {A} (r : outcome A * State) : outcome A := r.1.

(** ** Python helpers on JSON values *)

(** Truth value of an object ([if x:]). *)
Definition py_truthy (j : json) : bool :=
  match j with
  | JNull => false
  | JBool b => b
  | JInt n => negb (n =? 0)
  | JStr s => negb (String.eqb s "")
  | JList l => negb (bool_decide (l = []))
  | JDict d => negb (bool_decide (d = ∅))
  end.

(** The integer behind a number; ordering comparisons and arithmetic with
    anything else raise [TypeError]. *)
Definition py_int (j : json) : outcome Z :=
  match j with
  | JInt n => Ret n
  | JBool b => Ret (if b then 1 else 0)
  | _ => Raise TypeError
  end.

Fixpoint is_substring (needle hay : string) : bool :=
  String.prefix needle hay ||
  match hay with
  | EmptyString => false
  | String _ rest => is_substring needle rest
  end.

Definition is_str (key : string) (j : json) : bool :=
  match j with
  | JStr s => String.eqb s key
  | _ => false
  end.

(** [key in obj] for a string [key]. *)
Definition py_in (key : string) (obj : json) : outcome bool :=
  match obj with
  | JDict d => Ret (bool_decide (is_Some (d !! key)))
  | JList l => Ret (existsb (is_str key) l)
  | JStr s => Ret (is_substring key s)
  | _ => Raise TypeError
  end.

(** [obj[key] = v] for a string [key]: only dictionaries accept it. *)
Definition py_setitem (key : string) (v : json) (obj : json) : outcome json :=
  match obj with
  | JDict d => Ret (JDict (<[key := v]> d))
  | _ => Raise TypeError
  end.

(** [d.setdefault(k, v)] *)
Definition setdefault (k : string) (v : json) (d : gmap string json)
  : gmap string json :=
  match d !! k with
  | Some _ => d
  | None => <[k := v]> d
  end.

(** [d.get(k, v)] *)
Definition dict_get (k : string) (v : json) (d : gmap string json) : json :=
  default v (d !! k).

(** ** Module [settings_manager] *)

Definition factory_zone (i : Z) : json :=
  JDict (list_to_map
    [("id", JInt i); ("status", JStr "show"); ("pin", JInt (14 + i));
     ("name", JStr ("Zona " +:+ pretty (i + 1)))]).

Definition FACTORY_SETTINGS : gmap string json :=
  list_to_map
    [("client_enabled", JBool false);
     ("wifi", JDict (list_to_map [("ssid", JStr ""); ("password", JStr "")]));
     ("ap", JDict (list_to_map
        [("ssid", JStr "IrrigationSystem"); ("password", JStr "12345678")]));
     ("zones", JList (factory_zone <$> [0; 1; 2; 3; 4; 5; 6; 7]));
     ("max_active_zones", JInt 3);
     ("activation_delay", JInt 5);
     ("safety_relay", JDict (list_to_map [("pin", JInt 13)]));
     ("automatic_programs_enabled", JBool false);
     ("max_zone_duration", JInt 180)].

Definition SETTINGS_PATH : string := "/data/user_settings.json".
Definition PROGRAM_FILE : string := "/data/program.json".
Definition PROGRAM_STATE_FILE : string := "/data/program_state.json".

(** The loop [for key, value in FACTORY_SETTINGS.items(): if key not in
    settings: settings[key] = value]. *)
Definition fill_missing (defaults settings : gmap string json)
  : gmap string json :=
  foldl (λ acc kv, match acc !! kv.1 with
                   | Some _ => acc
                   | None => <[kv.1 := kv.2]> acc
                   end)
        settings (map_to_list defaults).

(** The four defaults that [save_user_settings] gives the zone at index [i]. *)
Definition zone_defaults (i : nat) : list (string * json) :=
  [("id", JInt (Z.of_nat i));
   ("status", JStr "show");
   ("pin", JInt (14 + Z.of_nat i));
   ("name", JStr ("Zona " +:+ pretty (Z.of_nat i + 1)))].

(** [if key not in zone: zone[key] = v], for each default in turn. *)
Fixpoint fill_zone (defs : list (string * json)) (zone : json) : outcome json :=
  match defs with
  | [] => Ret zone
  | (key, v) :: rest =>
      match py_in key zone with
      | Raise e => Raise e
      | Ret true => fill_zone rest zone
      | Ret false =>
          match py_setitem key v zone with
          | Raise e => Raise e
          | Ret zone' => fill_zone rest zone'
          end
      end
  end.

(** [for i, zone in enumerate(zones)] over a list, from index [i]. *)
Fixpoint fill_zones_from (i : nat) (zones : list json) : outcome (list json) :=
  match zones with
  | [] => Ret []
  | zone :: rest =>
      match fill_zone (zone_defaults i) zone with
      | Raise e => Raise e
      | Ret zone' =>
          match fill_zones_from (S i) rest with
          | Raise e => Raise e
          | Ret rest' => Ret (zone' :: rest')
          end
      end
  end.

Definition chars (s : string) : list json :=
  (λ a, JStr (String a EmptyString)) <$> String.list_ascii_of_string s.

(** The zone loop on whatever [settings['zones']] holds.  A list is updated
    entry by entry.  Iterating a dictionary yields its keys and iterating a
    string its characters: such entries cannot be assigned to, so the value is
    left as it is unless the loop raises.  Other values are not iterable. *)
Definition normalise_zones (zones : json) : outcome json :=
  match zones with
  | JList l =>
      match fill_zones_from 0 l with
      | Raise e => Raise e
      | Ret l' => Ret (JList l')
      end
  | JDict d =>
      match fill_zones_from 0 (JStr <$> (map_to_list d).*1) with
      | Raise e => Raise e
      | Ret _ => Ret zones
      end
  | JStr s =>
      match fill_zones_from 0 (chars s) with
      | Raise e => Raise e
      | Ret _ => Ret zones
      end
  | _ => Raise TypeError
  end.

Section Kernel.

Variable env : Env.

(** [with open(path, 'w') as f: ujson.dump(doc, f)].  [open] truncates the
    file before anything is written, so the [OSError] of a write that fails
    comes with the file as it was when [open] itself failed, and with an empty
    or partial file, which does not parse, when the failure came later.  [put]
    is the setter of the file. *)
Definition write_file {A} (path : string) (put : file A → State → State)
    (doc : A) : M unit :=
  if write_fault env path then
    (if write_torn env path then modify (put Corrupt) else ret tt);;
    raise OSError
  else modify (put (Stored doc)).

(** The body of [save_user_settings] below the [isinstance] test: the
    dictionary after the two normalisation loops. *)
Definition normalise_settings (d : gmap string json)
  : outcome (gmap string json) :=
  let d1 := fill_missing FACTORY_SETTINGS d in
  match d1 !! "zones" with
  | None => Ret d1
  | Some zones =>
      match normalise_zones zones with
      | Raise e => Raise e
      | Ret zones' => Ret (<["zones" := zones']> d1)
      end
  end.

(** [save_user_settings(settings)].  The argument is updated in place, so the
    dictionary as the caller sees it afterwards is returned with the result.
    A key filled from [FACTORY_SETTINGS] shares its value with the module
    constant; the zone loop only adds keys that are absent, and the factory
    zones have them all, so the constant itself never changes.  Only [OSError]
    is caught. *)
Definition save_user_settings (settings : json) : M (bool * json) :=
  match settings with
  | JDict d =>
      match normalise_settings d with
      | Raise e => raise e
      | Ret d' =>
          try_except
            (write_file SETTINGS_PATH set_settings_file (JDict d');;
             ret (true, JDict d'))
            (λ e, match e with
                  | OSError => ret (false, JDict d')
                  | _ => raise e
                  end)
      end
  | _ => ret (false, settings)
  end.

(** [factory_reset()]: every exception is caught. *)
Definition factory_reset : M bool :=
  try_except
    (save_user_settings (JDict FACTORY_SETTINGS);; ret true)
    (λ _, ret false).

(** [load_user_settings()].  A missing or unparseable file is replaced by the
    factory settings; a parsed document that is not an object makes
    [settings.setdefault] raise [AttributeError], which is not caught. *)
Definition load_user_settings : M (gmap string json) :=
  try_except
    (f <- gets settings_file;;
     match f with
     | Missing => raise OSError
     | Corrupt => raise ValueError
     | Stored (JDict settings) =>
         let settings := setdefault "zones"
           (default JNull (FACTORY_SETTINGS !! "zones")) settings in
         let settings := setdefault "max_active_zones" (JInt 3) settings in
         let settings := setdefault "activation_delay" (JInt 5) settings in
         let settings := setdefault "safety_relay"
           (JDict (list_to_map [("pin", JInt 13)])) settings in
         let settings := setdefault "ap"
           (JDict (list_to_map
              [("ssid", JStr "IrrigationSystem"); ("password", JStr "12345678")]))
           settings in
         let settings := setdefault "wifi"
           (JDict (list_to_map [("ssid", JStr ""); ("password", JStr "")]))
           settings in
         let settings := setdefault "automatic_programs_enabled" (JBool false)
           settings in
         let settings := setdefault "client_enabled" (JBool false) settings in
         let settings := setdefault "max_zone_duration" (JInt 180) settings in
         ret settings
     | Stored _ => raise AttributeError
     end)
    (λ e, match e with
          | OSError | ValueError => factory_reset;; ret FACTORY_SETTINGS
          | _ => raise e
          end).

(** ** Module [program_state] *)

(** [save_program_state()] writes the two variables of module
    [program_state]; [OSError] is caught and logged. *)
Definition save_program_state : M unit :=
  try_except
    (r <- gets ps_program_running;;
     c <- gets ps_current_program_id;;
     write_file PROGRAM_STATE_FILE set_state_file
       (StateObject (StateDoc (Some r) c)))
    (λ e, match e with
          | OSError => ret tt
          | _ => raise e
          end).

(** [load_program_state()] refreshes the two variables of module
    [program_state] from the file.  Only [OSError] and [ValueError] are
    caught: the [AttributeError] of [state.get] on a file that parses to
    something other than an object leaves the function. *)
Definition load_program_state : M unit :=
  try_except
    (f <- gets state_file;;
     match f with
     | Missing => raise OSError
     | Corrupt => raise ValueError
     | Stored (StateObject doc) =>
         modify (set_ps (default false (sd_program_running doc))
                        (sd_current_program_id doc))
     | Stored StateOther => raise AttributeError
     end)
    (λ e, match e with
          | OSError | ValueError => modify (set_ps false None);; save_program_state
          | _ => raise e
          end).

(** ** Module [zone_manager] *)

(** [pin.value(level)]: the write lands or the driver raises. *)
Definition pin_write (pin level : Z) : M unit :=
  if gpio_fault env pin then raise OSError
  else modify (λ st, set_gpio (<[pin := level]> (gpio st)) st).

(** [task.cancel()] on a timer handle.  Both call sites swallow what the call
    may raise, and a task that is not waiting any more is left as it is. *)
Definition cancel_task (h : nat) (st : State) : State :=
  match tasks st !! h with
  | Some (Timer z due Pending) =>
      set_tasks (<[h := Timer z due Cancelled]> (tasks st)) st
  | _ => st
  end.

(** [asyncio.create_task(_zone_timer(zone_id, duration))]: the new task wakes
    up [duration * 60] seconds from now; its handle is returned. *)
Definition create_timer (zone_id duration : Z) : M nat :=
  λ st, (Ret (length (tasks st)),
         set_tasks (tasks st ++ [Timer zone_id (clock st + duration * 60) Pending])
                   st).

Definition dict_empty {K} `{Countable K} {V} (m : gmap K V) : bool :=
  bool_decide (size m = 0%nat).

Definition get_active_zones_count : M Z :=
  gets (λ st, Z.of_nat (size (active_zones st))).

Definition start_zone (zone_id duration : Z) : M bool :=
  (* from program_state import program_running *)
  modify (λ st, set_zm_program_running (ps_program_running st) st);;
  running <- gets zm_program_running;;
  if running then ret false else
  pins <- gets zone_pins;;
  match pins !! zone_id with
  | None => ret false
  | Some pin =>
      settings <- load_user_settings;;
      bad_duration <-
        (if duration <=? 0 then ret true
         else max_duration <-
                lift (py_int (dict_get "max_zone_duration" (JInt 180) settings));;
              ret (duration >? max_duration));;
      if (bad_duration : bool) then ret false else
      max_active_zones <-
        lift (py_int (dict_get "max_active_zones" (JInt 1) settings));;
      az <- gets active_zones;;
      if (Z.of_nat (size az) >=? max_active_zones)
         && negb (bool_decide (is_Some (az !! zone_id)))
      then ret false else
      relay <- gets safety_relay;;
      relay_ok <-
        match relay with
        | Some rpin =>
            if dict_empty az
            then try_except (pin_write rpin 0;; ret true) (λ _, ret false)
            else ret true
        | None => ret true
        end;;
      if negb relay_ok then ret false else
      zone_ok <- try_except (pin_write pin 0;; ret true) (λ _, ret false);;
      if negb zone_ok then ret false else
      match az !! zone_id with
       | Some old => modify (cancel_task (zr_task old))
       | None => ret tt
       end;;
      task <- create_timer zone_id duration;;
      now <- gets clock;;
      modify (λ st, set_active_zones
                      (<[zone_id := ZoneRec now duration task]> (active_zones st))
                      st);;
      ret true
  end.

Definition stop_zone (zone_id : Z) : M bool :=
  pins <- gets zone_pins;;
  match pins !! zone_id with
  | None => ret false
  | Some pin =>
      zone_ok <- try_except (pin_write pin 1;; ret true) (λ _, ret false);;
      if negb zone_ok then ret false else
      az <- gets active_zones;;
      match az !! zone_id with
       | Some old =>
           modify (cancel_task (zr_task old));;
           modify (λ st, set_active_zones (delete zone_id (active_zones st)) st)
       | None => ret tt
       end;;
      relay <- gets safety_relay;;
      az' <- gets active_zones;;
      match relay with
      | Some rpin =>
          if dict_empty az'
          then try_except (pin_write rpin 1;; ret true) (λ _, ret false)
          else ret true
      | None => ret true
      end
  end.

(** [for zone_id in list(active_zones.keys()): if not stop_zone(zone_id):
    success = False] *)
Fixpoint stop_each (zone_ids : list Z) (success : bool) : M bool :=
  match zone_ids with
  | [] => ret success
  | zone_id :: rest =>
      ok <- stop_zone zone_id;;
      stop_each rest (if ok then success else false)
  end.

Definition stop_all_zones : M bool :=
  az <- gets active_zones;;
  if dict_empty az then ret true
  else stop_each (map_to_list az).*1 true.

(** The body of [_zone_timer] once its sleep is over: the zone is stopped if
    it is still recorded as active; what [stop_zone] might raise is caught. *)
Definition zone_timer_wakes (h : nat) : M unit :=
  ts <- gets tasks;;
  match ts !! h with
  | Some (Timer zone_id due Pending) =>
      modify (set_tasks (<[h := Timer zone_id due Finished]> ts));;
      az <- gets active_zones;;
      match az !! zone_id with
      | Some _ => try_except (stop_zone zone_id;; ret tt) (λ _, ret tt)
      | None => ret tt
      end
  | _ => ret tt
  end.

Definition timer_due (now : Z) (t : timer) : bool :=
  match t_status t with
  | Pending => t_due t <=? now
  | _ => false
  end.

Fixpoint wake_timers (hs : list nat) : M unit :=
  match hs with
  | [] => ret tt
  | h :: rest =>
      ts <- gets tasks;;
      now <- gets clock;;
      match ts !! h with
       | Some t => if timer_due now t then zone_timer_wakes h else ret tt
       | None => ret tt
       end;;
      wake_timers rest
  end.

(** ** Module [program_manager] *)

(** Dictionary access on the item list of [program.json]. *)
Fixpoint alist_lookup {V} (k : string) (l : list (string * V)) : option V :=
  match l with
  | [] => None
  | (k', v) :: rest => if String.eqb k' k then Some v else alist_lookup k rest
  end.

(** [d[k] = v]: an existing key keeps its place, a new key goes last. *)
Fixpoint alist_insert {V} (k : string) (v : V) (l : list (string * V))
  : list (string * V) :=
  match l with
  | [] => [(k, v)]
  | (k', v') :: rest =>
      if String.eqb k' k then (k, v) :: rest
      else (k', v') :: alist_insert k v rest
  end.

Definition with_id (id : string) (p : program) : program :=
  Program (Some id) (p_name p) (p_months p) (p_recurrence p)
          (p_interval_days p) (p_activation_time p) (p_steps p)
          (p_last_run_date p).

Definition with_last_run_date (date : string) (p : program) : program :=
  Program (p_id p) (p_name p) (p_months p) (p_recurrence p)
          (p_interval_days p) (p_activation_time p) (p_steps p) (Some date).

Definition save_programs (ps : programs) : M bool :=
  try_except
    (write_file PROGRAM_FILE set_programs_file ps;; ret true)
    (λ e, match e with
          | OSError => ret false
          | _ => raise e
          end).

(** [if programs[prog_id].get('id') is None: programs[prog_id]['id'] =
    str(prog_id)] *)
Definition ensure_id (kv : string * program) : string * program :=
  match p_id kv.2 with
  | Some _ => kv
  | None => (kv.1, with_id kv.1 kv.2)
  end.

Definition load_programs : M programs :=
  try_except
    (f <- gets programs_file;;
     match f with
     | Missing => raise OSError
     | Corrupt => raise ValueError
     | Stored ps => ret (ensure_id <$> ps)
     end)
    (λ e, match e with
          | OSError => save_programs [];; ret []
          | _ => ret []
          end).

(** [program_months.intersection(existing_months)] is not empty. *)
Definition months_intersect (a b : list string) : bool :=
  existsb (λ m, bool_decide (m ∈ b)) a.

Definition conflict_message (name : string) : string :=
  "Conflitto con il programma '" +:+ name +:+ "' nei mesi selezionati".

(** The truth value of [exclude_id and str(pid) == str(exclude_id)]. *)
Definition is_excluded (pid : string) (exclude_id : option string) : bool :=
  match exclude_id with
  | None => false
  | Some x => negb (String.eqb x "") && String.eqb pid x
  end.

Fixpoint find_conflict (program_months : list string) (ps : programs)
    (exclude_id : option string) : bool * string :=
  match ps with
  | [] => (false, "")
  | (pid, existing_program) :: rest =>
      if is_excluded pid exclude_id
      then find_conflict program_months rest exclude_id
      else if months_intersect program_months
                (default [] (p_months existing_program))
      then (true, conflict_message (default "" (p_name existing_program)))
      else find_conflict program_months rest exclude_id
  end.

Definition check_program_conflicts (p : program) (ps : programs)
    (exclude_id : option string) : bool * string :=
  let program_months := default [] (p_months p) in
  match program_months with
  | [] => (false, "")
  | _ => find_conflict program_months ps exclude_id
  end.

(** [stop_program()].  Its first statement,
    [from program_state import program_running, current_program_id],
    rebinds the two variables of module [program_manager] to the values that
    module [program_state] holds. *)
Definition stop_program : M bool :=
  modify (λ st, set_pm_current_program_id (ps_current_program_id st)
                  (set_pm_program_running (ps_program_running st) st));;
  running <- gets pm_program_running;;
  if negb running then log_event LogNothingToStop;; ret false
  else
    log_event LogStopping;;
    modify (set_pm_program_running false);;
    modify (set_pm_current_program_id None);;
    save_program_state;;
    stop_all_zones;;
    ret true.

Definition save_error (program_id : string) : string :=
  "Errore durante il salvataggio del programma " +:+ program_id.

Definition not_found_error (program_id : string) : string :=
  "Errore: Programma con ID " +:+ program_id +:+ " non trovato.".

Definition update_program (program_id : string) (updated_program : program)
  : M (bool * string) :=
  ps <- load_programs;;
  let '(has_conflict, conflict_message) :=
    check_program_conflicts updated_program ps (Some program_id) in
  if has_conflict then ret (false, conflict_message) else
  match alist_lookup program_id ps with
  | Some _ =>
      running <- gets pm_program_running;;
      current <- gets pm_current_program_id;;
      (if running && bool_decide (current = Some program_id)
        then stop_program;; ret tt
        else ret tt);;
      ok <- save_programs (alist_insert program_id updated_program ps);;
      if ok then ret (true, "") else ret (false, save_error program_id)
  | None => ret (false, not_found_error program_id)
  end.

Definition months_map : list (string * Z) :=
  [("Gennaio", 1); ("Febbraio", 2); ("Marzo", 3); ("Aprile", 4);
   ("Maggio", 5); ("Giugno", 6); ("Luglio", 7); ("Agosto", 8);
   ("Settembre", 9); ("Ottobre", 10); ("Novembre", 11); ("Dicembre", 12)].

Definition is_program_active_in_current_month (now : Z) (p : program) : bool :=
  let current_month := local_month env now in
  let program_months :=
    omap (λ month, alist_lookup month months_map) (default [] (p_months p)) in
  bool_decide (current_month ∈ program_months).

Definition is_program_due_today (now : Z) (p : program) : bool :=
  let current_day_of_year := local_yday env now in
  let last_run_day :=
    match p_last_run_date p with
    | Some last_run_date => default (-1) (date_yday env last_run_date)
    | None => -1
    end in
  let recurrence := default "giornaliero" (p_recurrence p) in
  if String.eqb recurrence "giornaliero"
  then negb (last_run_day =? current_day_of_year)
  else if String.eqb recurrence "giorni_alterni"
  then current_day_of_year - last_run_day >=? 2
  else if String.eqb recurrence "personalizzata"
  then
    let interval_days := default 1 (p_interval_days p) in
    let interval_days := if interval_days <=? 0 then 1 else interval_days in
    current_day_of_year - last_run_day >=? interval_days
  else false.

Definition update_last_run_date (program_id : string) : M unit :=
  now <- gets clock;;
  let current_date := local_date env now in
  ps <- load_programs;;
  match alist_lookup program_id ps with
  | Some p =>
      save_programs
        (alist_insert program_id (with_last_run_date current_date p) ps);;
      log_event (LogLastRun program_id current_date)
  | None => ret tt
  end.

(** ** Command routes of [web_server] *)

Definition bad_request : response := Response 400 false.
Definition server_error : response := Response 500 false.

(** [duration <= 0 or duration > max_duration] *)
Definition duration_invalid (duration : Z) (settings : gmap string json)
  : M bool :=
  if duration <=? 0 then ret true
  else
    max_duration <-
      lift (py_int (dict_get "max_zone_duration" (JInt 180) settings));;
    ret (duration >? max_duration).

Definition handle_start_zone (zone_id duration : Z) : M response :=
  try_except
    (settings <- load_user_settings;;
     bad <- duration_invalid duration settings;;
     if (bad : bool) then ret bad_request else
     load_program_state;;
     running <- gets ws_program_running;;
     if running then ret bad_request else
     log_event (LogRouteStartZone zone_id duration);;
     result <- start_zone zone_id duration;;
     if result then ret (Response 200 true) else ret server_error)
    (λ _, ret server_error).

Definition handle_stop_zone (zone_id : Z) : M response :=
  try_except
    (result <- stop_zone zone_id;;
     if result then ret (Response 200 true) else ret server_error)
    (λ _, ret server_error).

Definition stop_program_route : M response :=
  try_except
    (success <- stop_program;; ret (Response 200 success))
    (λ _, ret server_error).

Definition route (c : ext_cmd) : M response :=
  match c with
  | ExtStartZone zone_id duration => handle_start_zone zone_id duration
  | ExtStopZone zone_id => handle_stop_zone zone_id
  | ExtStopProgram => stop_program_route
  end.

(** [int(pid)] on a key of [program.json]: an optional minus sign and decimal
    digits; anything else raises [ValueError].  (The blanks, plus sign and
    underscores that [int] tolerates as well never occur in stored ids, which
    are produced by [str].) *)
Definition py_int_of_str (s : string) : outcome Z :=
  match NilZero.int_of_string s with
  | Some n => Ret (Z.of_int n)
  | None => Raise ValueError
  end.

Fixpoint int_keys (ps : programs) : outcome (list Z) :=
  match ps with
  | [] => Ret []
  | (pid, _) :: rest =>
      match py_int_of_str pid with
      | Raise e => Raise e
      | Ret n =>
          match int_keys rest with
          | Raise e => Raise e
          | Ret ns => Ret (n :: ns)
          end
      end
  end.

(** [max(l)] for a non-empty list. *)
Definition list_max_Z (l : list Z) : Z :=
  match l with
  | [] => 0
  | x :: rest => foldl Z.max x rest
  end.

(** The duplicate-name loop of [save_program_route]:
    [existing_program['name'] == program_data['name']] raises [KeyError] when
    either dictionary has no name. *)
Fixpoint name_taken (program_data : program) (ps : programs) : outcome bool :=
  match ps with
  | [] => Ret false
  | (_, existing_program) :: rest =>
      match p_name existing_program, p_name program_data with
      | Some a, Some b =>
          if String.eqb a b then Ret true else name_taken program_data rest
      | _, _ => Raise KeyError
      end
  end.

(** [not x] for an optional list: absent or empty. *)
Definition list_falsy {A} (l : option (list A)) : bool :=
  match l with
  | None | Some [] => true
  | Some (_ :: _) => false
  end.

(** [len(s)] counts characters.  The bytes of a string are its UTF-8
    encoding, in which every byte except the continuation bytes (128 to 191)
    begins a character. *)
Fixpoint py_len (s : string) : nat :=
  match s with
  | EmptyString => 0%nat
  | String a rest =>
      let n := Ascii.nat_of_ascii a in
      if ((128 <=? n) && (n <? 192))%nat then py_len rest else S (py_len rest)
  end.

(** [len(program_data.get('name', '')) > 16] *)
Definition name_too_long (p : program) : bool :=
  (16 <? Z.of_nat (py_len (default "" (p_name p)))).

Definition save_program_route (program_data : program) : M response :=
  try_except
    (if name_too_long program_data then ret bad_request
     else if list_falsy (p_months program_data) then ret bad_request
     else if list_falsy (p_steps program_data) then ret bad_request
     else
       ps <- load_programs;;
       taken <- lift (name_taken program_data ps);;
       if (taken : bool) then ret bad_request else
       let '(has_conflict, _) := check_program_conflicts program_data ps None in
       if has_conflict then ret bad_request else
       new_id <-
         match ps with
          | [] => ret "1"%string
          | _ => ids <- lift (int_keys ps);; ret (pretty (list_max_Z ids + 1))
          end;;
       let program_data := with_id new_id program_data in
       ok <- save_programs (alist_insert new_id program_data ps);;
       (* both log messages format program_data['name'] *)
       match p_name program_data with
       | None => raise KeyError
       | Some _ => if ok then ret (Response 200 true) else ret server_error
       end)
    (λ _, ret server_error).

Definition update_program_route (updated_program_data : program) : M response :=
  try_except
    (match p_id updated_program_data with
     | None => ret bad_request
     | Some program_id =>
         if name_too_long updated_program_data then ret bad_request
         else
           r <- update_program program_id updated_program_data;;
           if r.1 then ret (Response 200 true) else ret bad_request
     end)
    (λ _, ret server_error).

(** ** The cooperative scheduler *)

Fixpoint serve_all (cs : list ext_cmd) : M unit :=
  match cs with
  | [] => ret tt
  | c :: rest =>
      r <- route c;;
      modify (add_reply c r);;
      serve_all rest
  end.

(** [await asyncio.sleep(1)] seen from the sleeping coroutine: the clock
    advances by one second, the timers that are due wake up, and the web task
    serves the requests of that second. *)
Definition asyncio_sleep1 : M unit :=
  modify (λ st, set_clock (clock st + 1) st);;
  ts <- gets tasks;;
  wake_timers (seq 0 (length ts));;
  now <- gets clock;;
  serve_all (incoming env now).

(** [for _ in range(n): if not program_running: break; await
    asyncio.sleep(1)] *)
Fixpoint wait_seconds (n : nat) : M unit :=
  match n with
  | O => ret tt
  | S k =>
      running <- gets pm_program_running;;
      if negb running then ret tt
      else asyncio_sleep1;; wait_seconds k
  end.

(** ** The program executor *)

(** The [for i, step in enumerate(steps)] loop of [execute_program], from step
    number [i] of [n]. *)
Fixpoint run_steps (i n : nat) (activation_delay : json) (steps : list step)
  : M unit :=
  match steps with
  | [] => ret tt
  | step :: rest =>
      running <- gets pm_program_running;;
      if negb running then log_event LogInterrupted
      else
        match s_zone_id step with
        | None =>
            log_event (LogStepMissingZone (S i));;
            run_steps (S i) n activation_delay rest
        | Some zone_id =>
            let duration := default 1 (s_duration step) in
            result <- start_zone zone_id duration;;
            if negb result
            then log_event (LogStepFailed zone_id);;
                 run_steps (S i) n activation_delay rest
            else
              wait_seconds (Z.to_nat (duration * 60));;
              running <- gets pm_program_running;;
              if negb running then ret tt
              else
                stop_zone zone_id;;
                delay <- lift (py_int activation_delay);;
                (if (delay >? 0) && (Z.of_nat i <? Z.of_nat n - 1)
                  then wait_seconds (Z.to_nat (delay * 60))
                  else ret tt);;
                run_steps (S i) n activation_delay rest
        end
  end.

(** The [finally] block of [execute_program]. *)
Definition execute_cleanup : M unit :=
  modify (set_pm_program_running false);;
  modify (set_pm_current_program_id None);;
  save_program_state;;
  stop_all_zones;;
  ret tt.

Definition execute_program (p : program) (manual : bool) : M bool :=
  (* from program_state import program_running, current_program_id *)
  modify (λ st, set_pm_current_program_id (ps_current_program_id st)
                  (set_pm_program_running (ps_program_running st) st));;
  running <- gets pm_program_running;;
  if running then log_event LogAlreadyRunning;; ret false else
  (if negb manual
    then active_count <- get_active_zones_count;;
         if active_count >? 0
         then stop_all_zones;; asyncio_sleep1
         else ret tt
    else ret tt);;
  stop_all_zones;;
  let program_id := default "0" (p_id p) in
  modify (set_pm_program_running true);;
  modify (set_pm_current_program_id (Some program_id));;
  save_program_state;;
  let program_name := default "Senza nome" (p_name p) in
  log_event (LogProgramStart program_name program_id);;
  settings <- load_user_settings;;
  let activation_delay := dict_get "activation_delay" (JInt 0) settings in
  finally
    (try_except
       (let steps := default [] (p_steps p) in
        run_steps 0 (length steps) activation_delay steps;;
        update_last_run_date program_id;;
        log_event (LogProgramCompleted program_name);;
        ret true)
       (λ _, log_event (LogProgramError program_name);; ret false))
    execute_cleanup.

(** ** The program scheduler *)

(** The [for program_id, program in programs.items()] loop of
    [check_programs]. *)
Fixpoint scan_programs (current_time_str : string) (ps : programs) : M unit :=
  match ps with
  | [] => ret tt
  | (program_id, p) :: rest =>
      now <- gets clock;;
      (if String.eqb current_time_str (default "" (p_activation_time p))
           && is_program_active_in_current_month now p
           && is_program_due_today now p
        then
          log_event (LogScheduledStart (default "Senza nome" (p_name p)));;
          running <- gets pm_program_running;;
          if running then log_event LogSchedulerBusy
          else
            success <- execute_program p false;;
            if success then update_last_run_date program_id else ret tt
        else ret tt);;
      scan_programs current_time_str rest
  end.

Definition check_programs : M unit :=
  settings <- load_user_settings;;
  if negb (py_truthy
             (dict_get "automatic_programs_enabled" (JBool false) settings))
  then ret tt else
  ps <- load_programs;;
  match ps with
  | [] => ret tt
  | _ =>
      now <- gets clock;;
      scan_programs (local_hhmm env now) ps
  end.

End Kernel.

(** * The remaining services of the controller *)

(** ** Python helpers, continued *)

(** [for x in obj]: a list yields its entries, a dictionary its keys, a string
    its characters; nothing else in a JSON document is iterable. *)
Definition py_iter (j : json) : outcome (list json) :=
  match j with
  | JList l => Ret l
  | JDict d => Ret (JStr <$> (map_to_list d).*1)
  | JStr s => Ret (chars s)
  | _ => Raise TypeError
  end.

(** The key under which [d[j] = v] files a value in a dictionary that is only
    ever looked up with integers: an integer or a boolean (equal to 0 or 1)
    lands under that number, [None] and strings under a key that no integer
    meets, lists and dictionaries are not hashable. *)
Definition zone_key (j : json) : outcome (option Z) :=
  match j with
  | JInt n => Ret (Some n)
  | JBool b => Ret (Some (if b then 1 else 0))
  | JNull | JStr _ => Ret None
  | JList _ | JDict _ => Raise TypeError
  end.

(** [del d[k]] on the item list of a dictionary. *)
Definition alist_delete {V} (k : string) (l : list (string * V))
  : list (string * V) :=
  List.filter (λ kv, negb (String.eqb kv.1 k)) l.

(** ** Module [web_server]: the merge loop of [save_user_settings_route] *)

(** One turn of [for key, value in settings_data.items()]: a dictionary sent
    for a key that already holds a dictionary updates it, the sent entries
    winning; anything else replaces the stored value.  This is the dictionary
    that the loop leaves in [existing_settings].  (When the file could not be
    read, [existing_settings] is a shallow copy of the factory settings, and
    [update] then changes a dictionary that the module constant holds as
    well; the constant is not part of the state modelled here.) *)
Definition merge_setting (existing_settings : gmap string json)
    (key : string) (value : json) : gmap string json :=
  match value, existing_settings !! key with
  | JDict v, Some (JDict e) => <[key := JDict (v ∪ e)]> existing_settings
  | _, _ => <[key := value]> existing_settings
  end.

Definition merge_settings (existing_settings settings_data : gmap string json)
  : gmap string json :=
  foldl (λ acc kv, merge_setting acc kv.1 kv.2)
        existing_settings (map_to_list settings_data).

(** ** Module [zone_manager]: the status report *)

(** An entry of the list that [get_zones_status] returns. *)
Record zone_info : Type := ZoneInfo {
  zi_id : json;
  zi_name : json;
  zi_active : bool;
  zi_remaining_time : Z
}.

(** The loop of [get_zones_status] over the configured zones.  The default of
    [zone.get('name', f'Zona {zone_id + 1}')] is computed whether or not the
    zone has a name, so [zone_id] has to be a number. *)
Fixpoint zones_status_of (configured_zones : list json)
    (active : gmap Z zone_rec) (now : Z) : outcome (list zone_info) :=
  match configured_zones with
  | [] => Ret []
  | JDict zone :: rest =>
      let zone_id := dict_get "id" JNull zone in
      if negb (is_str "show" (dict_get "status" JNull zone))
      then zones_status_of rest active now
      else
        match py_int zone_id with
        | Raise e => Raise e
        | Ret n =>
            let name := dict_get "name" (JStr ("Zona " +:+ pretty (n + 1))) zone in
            let remaining :=
              match active !! n with
              | Some r =>
                  let duration := zr_duration r * 60 in
                  let elapsed := now - zr_start_time r in
                  Z.max 0 (duration - elapsed)
              | None => 0
              end in
            match zones_status_of rest active now with
            | Raise e => Raise e
            | Ret infos =>
                Ret (ZoneInfo zone_id name
                       (bool_decide (is_Some (active !! n))) remaining :: infos)
            end
        end
  | _ :: _ => Raise AttributeError
  end.

Definition not_found : response := Response 404 false.

(** The body of the answer of [/get_program_state]. *)
Record program_state_reply : Type := ProgramStateReply {
  psr_program_running : bool;
  psr_current_program_id : option string
}.

Section Services.

Variable env : Env.

(** ** Module [settings_manager], continued *)

(** [reset_user_settings()]: the result of [save_user_settings] is not looked
    at; every exception is caught. *)
Definition reset_user_settings : M bool :=
  try_except
    (save_user_settings env (JDict FACTORY_SETTINGS);; ret true)
    (λ _, ret false).

(** [reset_factory_data()]: the settings, then an empty [program.json], then an
    idle [program_state.json]; every exception is caught, and what was written
    before it stays written. *)
Definition reset_factory_data : M bool :=
  try_except
    (reset_user_settings;;
     write_file env PROGRAM_FILE set_programs_file [];;
     write_file env PROGRAM_STATE_FILE set_state_file
       (StateObject (StateDoc (Some false) None));;
     ret true)
    (λ _, ret false).

(** ** Module [zone_manager], continued *)

(** The zone loop of [initialize_pins], with the dictionary [pins] and the
    counter [initialized_zones] built so far.  [Pin(pin_number, Pin.OUT)]
    takes the pin by its number and, followed by [pin.value(1)], is one write
    of level 1.  Whatever the [try] block raises is caught, but the handler
    formats its message with [zone['id']]: for a zone without [id] the
    [KeyError] leaves the function. *)
Fixpoint init_zone_pins (zones : list json) (pins : gmap Z Z)
    (initialized_zones : Z) : M (gmap Z Z * Z) :=
  match zones with
  | [] => ret (pins, initialized_zones)
  | JDict zone :: rest =>
      match zone !! "pin" with
      | None | Some JNull => init_zone_pins rest pins initialized_zones
      | Some pin_number =>
          r <- try_except
                 (pin <- lift (py_int pin_number);;
                  pin_write env pin 1;;
                  match zone !! "id" with
                  | None => raise KeyError
                  | Some id =>
                      key <- lift (zone_key id);;
                      ret (match key with
                           | Some k => <[k := pin]> pins
                           | None => pins
                           end, initialized_zones + 1)
                  end)
                 (λ _, match zone !! "id" with
                       | None => raise KeyError
                       | Some _ => ret (pins, initialized_zones)
                       end);;
          init_zone_pins rest r.1 r.2
      end
  | _ :: _ => raise AttributeError
  end.

(** The safety relay part of [initialize_pins]. *)
Definition init_safety_relay (settings : gmap string json) : M (option Z) :=
  match dict_get "safety_relay" (JDict ∅) settings with
  | JDict relay =>
      match relay !! "pin" with
      | None | Some JNull => ret None
      | Some safety_relay_pin =>
          try_except
            (pin <- lift (py_int safety_relay_pin);;
             pin_write env pin 1;;
             ret (Some pin))
            (λ _, ret None)
      end
  | _ => raise AttributeError
  end.

(** [initialize_pins()].  The two module variables are assigned at the very
    end, so a call that raises leaves them as they were. *)
Definition initialize_pins : M bool :=
  settings <- load_user_settings env;;
  if dict_empty settings then ret false else
  zones <- lift (py_iter (dict_get "zones" (JList []) settings));;
  r <- init_zone_pins zones ∅ 0;;
  safety_relay_obj <- init_safety_relay settings;;
  modify (set_pins r.1 safety_relay_obj);;
  ret (r.2 >? 0).

Definition get_zones_status : M (list zone_info) :=
  settings <- load_user_settings env;;
  configured_zones <- lift (py_iter (dict_get "zones" (JList []) settings));;
  az <- gets active_zones;;
  now <- gets clock;;
  lift (zones_status_of configured_zones az now).

(** ** Module [program_manager], continued *)

(** [delete_program(program_id)]; the test on the running program reads the
    two variables of module [program_manager]. *)
Definition delete_program (program_id : string) : M bool :=
  ps <- load_programs env;;
  match alist_lookup program_id ps with
  | Some _ =>
      running <- gets pm_program_running;;
      current <- gets pm_current_program_id;;
      (if running && bool_decide (current = Some program_id)
        then stop_program env;; ret tt
        else ret tt);;
      save_programs env (alist_delete program_id ps)
  | None => ret false
  end.

(** [reset_program_state()]: the import rebinds the two variables of module
    [program_manager], which are then cleared; [save_program_state] writes the
    variables of module [program_state]. *)
Definition reset_program_state : M unit :=
  modify (λ st, set_pm_current_program_id (ps_current_program_id st)
                  (set_pm_program_running (ps_program_running st) st));;
  modify (set_pm_program_running false);;
  modify (set_pm_current_program_id None);;
  save_program_state env.

(** ** Module [log_manager]: the retention test of [log_event] *)

Definition MAX_LOG_DAYS : Z := 10.

(** Whether the loop over the stored entries appends [log] to
    [filtered_logs], on day [current_day] of the year.  An entry without a
    date is dropped; an entry whose date cannot be read makes the [try] block
    raise and is kept. *)
Definition log_is_kept (current_day : Z) (log : json) : bool :=
  match log with
  | JDict entry =>
      let log_date := dict_get "date" (JStr "") entry in
      if py_truthy log_date then
        match log_date with
        | JStr date =>
            match date_yday env date with
            | Some log_day_of_year =>
                (current_day - log_day_of_year <=? MAX_LOG_DAYS)
                || ((log_day_of_year >? current_day)
                    && (current_day + 365 - log_day_of_year <=? MAX_LOG_DAYS))
            | None => true
            end
        | _ => true
        end
      else false
  | _ => true
  end.

Definition filter_logs (now : Z) (logs : list json) : list json :=
  List.filter (log_is_kept (local_yday env now)) logs.

(** ** Routes of [web_server], continued *)

Definition reset_settings_route : M response :=
  try_except
    (success <- reset_user_settings;;
     if success then ret (Response 200 true) else ret server_error)
    (λ _, ret server_error).

Definition reset_factory_data_route : M response :=
  try_except
    (success <- reset_factory_data;;
     if success then ret (Response 200 true) else ret server_error)
    (λ _, ret server_error).

(** [toggle_automatic_programs]: [data] is the parsed body of the request.
    The result of [save_user_settings] is not looked at. *)
Definition toggle_automatic_programs (data : json) : M response :=
  try_except
    (match data with
     | JDict d =>
         let enable := dict_get "enable" (JBool false) d in
         settings <- load_user_settings env;;
         save_user_settings env
           (JDict (<["automatic_programs_enabled" := enable]> settings));;
         ret (Response 200 true)
     | _ => raise AttributeError
     end)
    (λ _, ret server_error).

(** [get_program_state]: [load_program_state] refreshes the variables of
    module [program_state], but the answer is built from the two names that
    [web_server] imported when it was loaded.  Nothing in [web_server] assigns
    them; [current_program_id] is still the [None] of that moment. *)
Definition get_program_state : M program_state_reply :=
  try_except
    (load_program_state env;;
     running <- gets ws_program_running;;
     ret (ProgramStateReply running None))
    (λ _, ret (ProgramStateReply false None)).

(** [delete_program_route]: [program_id] is [program_data.get('id')], as a
    string. *)
Definition delete_program_route (program_id : option string) : M response :=
  try_except
    (match program_id with
     | None => ret bad_request
     | Some program_id =>
         success <- delete_program program_id;;
         if success then ret (Response 200 true) else ret not_found
     end)
    (λ _, ret server_error).

End Services.


(** * Specification vocabulary *)

(** A function of the controller keeps [I] when [I] holds after every call made
    in a state where it holds, however the call ends. *)
Definition preserves {A} (I : State → Prop) (m : M A) : Prop :=
  ∀ st, I st → I (state_of (m st)).

(** The safety relay output is driven active (relays are active-low). *)
Definition relay_asserted (st : State) : bool :=
  match safety_relay st with
  | Some rpin => bool_decide (gpio st !! rpin = Some 0)
  | None => false
  end.

(** The active-zone table is not empty. *)
Definition zones_active (st : State) : bool := negb (dict_empty (active_zones st)).

(** The safety relay exists and no zone is wired to its pin. *)
Definition relay_wired (st : State) : Prop :=
  ∃ rpin, safety_relay st = Some rpin ∧
          ∀ z pin, zone_pins st !! z = Some pin → pin ≠ rpin.

Definition relay_follows_table (st : State) : Prop :=
  relay_wired st ∧ relay_asserted st = zones_active st.

Definition no_gpio_fault (env : Env) : Prop := ∀ pin, gpio_fault env pin = false.

(** [program_state.json] parses to something that is not an object. *)
Definition state_file_other (st : State) : bool :=
  match state_file st with
  | Stored StateOther => true
  | _ => false
  end.

(** What a write that fails leaves behind: the state as it was, or, when the
    failure came after [open], the same state with an unreadable file. *)
Definition failed_write {A} (env : Env) (path : string)
    (put : file A → State → State) (st : State) : State :=
  if write_torn env path then put Corrupt st else st.

(** Entry points of the kernel, as the event loop may run them. *)
Inductive kernel_call : Type :=
| CallStartZone (zone_id duration : Z)
| CallStopZone (zone_id : Z)
| CallStopAllZones
| CallTimer (h : nat)
| CallRoute (c : ext_cmd)
| CallSleep
| CallStopProgram
| CallExecuteProgram (p : program) (manual : bool)
| CallCheckPrograms.

Definition run_call (env : Env) (c : kernel_call) (st : State) : State :=
  match c with
  | CallStartZone z d => state_of (start_zone env z d st)
  | CallStopZone z => state_of (stop_zone env z st)
  | CallStopAllZones => state_of (stop_all_zones env st)
  | CallTimer h => state_of (zone_timer_wakes env h st)
  | CallRoute c => state_of (route env c st)
  | CallSleep => state_of (asyncio_sleep1 env st)
  | CallStopProgram => state_of (stop_program env st)
  | CallExecuteProgram p manual => state_of (execute_program env p manual st)
  | CallCheckPrograms => state_of (check_programs env st)
  end.

Definition run_calls (env : Env) (cs : list kernel_call) (st : State) : State :=
  foldl (λ st c, run_call env c st) st cs.

(** The run-state file does not claim that a program is running. *)
Definition state_file_idle (st : State) : Prop :=
  match state_file st with
  | Stored (StateObject doc) => sd_program_running doc ≠ Some true
  | _ => True
  end.

(** Module [program_state] holds the values it was loaded with: nothing in the
    sources assigns its variables outside [load_program_state]. *)
Definition program_state_idle (st : State) : Prop :=
  ps_program_running st = false ∧ state_file_idle st.

(** Two month lists share a month. *)
Definition share_month (a b : list string) : Prop := ∃ m, m ∈ a ∧ m ∈ b.

Definition months_of (p : program) : list string := default [] (p_months p).

(** Every stored program and the submitted one carry a name. *)
Definition all_named (program_data : program) (ps : programs) : Prop :=
  is_Some (p_name program_data) ∧
  Forall (λ kv, is_Some (p_name kv.2)) ps.

Definition is_dict (j : json) : Prop :=
  match j with
  | JDict _ => True
  | _ => False
  end.

(** The zone list of a settings dictionary, if it has one, is a list of
    objects. *)
Definition zones_well_formed (d : gmap string json) : Prop :=
  match d !! "zones" with
  | None => True
  | Some (JList zs) => Forall is_dict zs
  | Some _ => False
  end.

(** The zone entry at index [i] after normalisation: the four keys are filled
    where absent, nothing else changes. *)
Definition normalised_zone (i : nat) (z : gmap string json) : gmap string json :=
  setdefault "name" (JStr ("Zona " +:+ pretty (Z.of_nat i + 1)))
    (setdefault "pin" (JInt (14 + Z.of_nat i))
       (setdefault "status" (JStr "show")
          (setdefault "id" (JInt (Z.of_nat i)) z))).

(** ** Scenario data *)

Definition quiet : Z → list ext_cmd := λ _, [].

(** The local time of day, the clock counting seconds from 06:00:00. *)
Definition two_digits (n : Z) : string :=
  if n <? 10 then "0" +:+ pretty n else pretty n.

Definition hhmm_from_six (t : Z) : string :=
  two_digits (6 + t / 3600) +:+ ":" +:+ two_digits (t / 60 mod 60).

(** 15 June 2024 from 06:00:00 on; no hardware fault. *)
Definition june_env (requests : Z → list ext_cmd) : Env :=
  MkEnv (λ _, false) (λ _, false) (λ _, false) hhmm_from_six (λ _, 6)
        (λ _, 167) (λ _, "2024-06-15") (λ _, None) requests.

(** The same day with a broken driver on one pin. *)
Definition faulty_env (bad_pin : Z) : Env :=
  MkEnv (λ pin, bool_decide (pin = bad_pin)) (λ _, false) (λ _, false)
        hhmm_from_six (λ _, 6) (λ _, 167) (λ _, "2024-06-15") (λ _, None) quiet.

Definition program_A : program :=
  Program (Some "1") (Some "A") (Some ["Giugno"]) (Some "giornaliero") None
          (Some "06:00") (Some [Step (Some 0) (Some 1); Step (Some 1) (Some 1)])
          None.

(** Settings with three zones, a one-minute pause between steps and the
    scheduler enabled; the other keys are left to the defaults. *)
Definition small_settings : json :=
  JDict (<["zones" := JList (factory_zone <$> [0; 1; 2])]>
           (<["activation_delay" := JInt 1]>
              (<["automatic_programs_enabled" := JBool true]> ∅))).

(** The controller after start-up with these settings: three zones on pins
    14 to 16, safety relay on pin 13, every output released, the run state
    reset to idle; program A is stored. *)
Definition booted : State :=
  MkState false None false None false false
          ∅ (list_to_map [(0, 14); (1, 15); (2, 16)]) (Some 13)
          (list_to_map [(13, 1); (14, 1); (15, 1); (16, 1)]) [] 0
          (Stored small_settings) (Stored [("1", program_A)])
          (Stored (StateDoc (Some false) None)) [] [].

(** The value found under [k] in [d], or else in [defaults]. *)
Definition or_default (d defaults : gmap string json) (k : string) : option json :=
  match d !! k with
  | Some v => Some v
  | None => defaults !! k
  end.

(** What the specification asks of the zone entry at index [i]: a missing
    [id] is [i], a missing [status] is ['show'], a missing [pin] is [14 + i], a
    missing [name] is ['Zona i+1']; nothing else changes. *)
Definition zone_normalised_at (i : nat) (z z' : gmap string json) : Prop :=
  z' !! "id" = Some (default (JInt (Z.of_nat i)) (z !! "id")) ∧
  z' !! "status" = Some (default (JStr "show") (z !! "status")) ∧
  z' !! "pin" = Some (default (JInt (14 + Z.of_nat i)) (z !! "pin")) ∧
  z' !! "name"
    = Some (default (JStr ("Zona " +:+ pretty (Z.of_nat i + 1))) (z !! "name")) ∧
  ∀ k, k ≠ "id" → k ≠ "status" → k ≠ "pin" → k ≠ "name" → z' !! k = z !! k.

(** A readable settings file that holds the empty object. *)
Definition partial_store : State :=
  set_settings_file (Stored (JDict ∅)) booted.

(** A settings dictionary whose only zone has no key at all. *)
Definition bare_zone_settings : gmap string json :=
  {[ "zones" := JList [JDict ∅] ]}.

(** Zone 0 has been started by hand for five minutes. *)
Definition zone0_on : State :=
  state_of (start_zone (june_env quiet) 0 5 booted).

(** The store of scenario S6 and the program submitted there. *)
Definition program_april_may : program :=
  Program (Some "1") (Some "A") (Some ["Aprile"; "Maggio"]) (Some "giornaliero")
          None (Some "06:00") (Some [Step (Some 0) (Some 1)]) None.

Definition program_may_june : program :=
  Program None (Some "B") (Some ["Maggio"; "Giugno"]) (Some "giornaliero")
          None (Some "07:00") (Some [Step (Some 1) (Some 1)]) None.

Definition store_s6 : State :=
  set_programs_file (Stored [("1", program_april_may)]) booted.

(** The GPIO levels once [start_zone] has dealt with the safety relay. *)
Definition relay_on_start (st : State) : gmap Z Z :=
  match safety_relay st with
  | Some rpin =>
      if dict_empty (active_zones st) then <[rpin := 0]> (gpio st) else gpio st
  | None => gpio st
  end.

(** [start_zone] cancels the timer of a zone that is already active. *)
Definition cancel_previous (z : Z) (st : State) : State :=
  match active_zones st !! z with
  | Some old => cancel_task (zr_task old) st
  | None => st
  end.

(** The state that a successful [start_zone(z, d)] leaves; [f] is the
    settings file after [load_user_settings]. *)
Definition start_zone_effect (z d pin : Z) (f : file json) (st : State) : State :=
  let st1 := set_settings_file f (set_zm_program_running false st) in
  let st2 := set_gpio (<[pin := 0]> (relay_on_start st)) st1 in
  let st3 := cancel_previous z st2 in
  let st4 := set_tasks (tasks st3 ++ [Timer z (clock st + d * 60) Pending]) st3 in
  set_active_zones
    (<[z := ZoneRec (clock st) d (length (tasks st))]> (active_zones st)) st4.

(** A timer after [cancel()]. *)
Definition cancelled (t : timer) : timer :=
  match t_status t with
  | Pending => Timer (t_zone t) (t_due t) Cancelled
  | _ => t
  end.

(** Zone 0, already active, is started again for seven minutes. *)
Definition zone0_restarted : State :=
  state_of (start_zone (june_env quiet) 0 7 zone0_on).

(** The controller without a safety relay: the settings give it no pin, or
    its pin could not be initialised. *)
Definition no_relay : State :=
  set_pins (zone_pins booted) None booted.

(** A wiring mistake: zone 0 sits on the pin of the safety relay. *)
Definition shared_pin : State :=
  set_pins (list_to_map [(0, 13); (1, 14)]) (Some 13) booted.

(** A request to start zone 2 for five minutes arrives ten seconds into the
    run. *)
Definition knock_at_10 : Z → list ext_cmd :=
  λ t, if t =? 10 then [ExtStartZone 2 5] else [].

(** A stop request arrives thirty seconds into the run (scenario S4). *)
Definition stop_at_30 : Z → list ext_cmd :=
  λ t, if t =? 30 then [ExtStopProgram] else [].

(** The state right after the executor has set its flag for program 1. *)
Definition flag_set : State :=
  set_pm_current_program_id (Some "1") (set_pm_program_running true booted).

(** A function of the controller that never ends by an exception. *)
Definition returns {A} (m : M A) : Prop :=
  ∀ st, ∃ a, result_of (m st) = Ret a.

(** Hoare triples on monadic code: from a state in [P], the call ends with an
    outcome and a state related by [Q]. *)
Definition hoare {A} (P : State → Prop) (m : M A)
    (Q : outcome A → State → Prop) : Prop :=
  ∀ st, P st → Q (result_of (m st)) (state_of (m st)).

(** The flag that the step loop of the executor polls is clear. *)
Definition executor_idle (st : State) : Prop := pm_program_running st = false.

(** * Vocabulary of the further properties *)

(** The months of [p] do not meet those of [kv], or [kv] is the entry that an
    update leaves out of the comparison. *)
Definition compatible (p : program) (excl : option string)
    (kv : string * program) : Prop :=
  is_excluded kv.1 excl = true ∨ ¬ share_month (months_of p) (months_of kv.2).

(** The number that a string of decimal digits denotes, read after the digits
    that made up [acc]. *)
Fixpoint uint_value (d : Decimal.uint) (acc : N) : N :=
  match d with
  | Decimal.Nil => acc
  | Decimal.D0 l => uint_value l (0 + 10 * acc)
  | Decimal.D1 l => uint_value l (1 + 10 * acc)
  | Decimal.D2 l => uint_value l (2 + 10 * acc)
  | Decimal.D3 l => uint_value l (3 + 10 * acc)
  | Decimal.D4 l => uint_value l (4 + 10 * acc)
  | Decimal.D5 l => uint_value l (5 + 10 * acc)
  | Decimal.D6 l => uint_value l (6 + 10 * acc)
  | Decimal.D7 l => uint_value l (7 + 10 * acc)
  | Decimal.D8 l => uint_value l (8 + 10 * acc)
  | Decimal.D9 l => uint_value l (9 + 10 * acc)
  end%N.

(** A program for September, submitted without an id. *)
Definition program_september : program :=
  Program None (Some "C") (Some ["Settembre"]) (Some "giornaliero") None
          (Some "21:30") (Some [Step (Some 2) (Some 10)]) None.

(** Every zone recorded as active is a zone with an output pin. *)
Definition zones_have_pins (st : State) : Prop :=
  ∀ z, is_Some (active_zones st !! z) → is_Some (zone_pins st !! z).

(** The value that [start_zone] compares the number of active zones with. *)
Definition max_active_zones_of (st : State) (limit : Z) : Prop :=
  ∃ d, settings_file st = Stored (JDict d) ∧
       dict_get "max_active_zones" (JInt 3) d = JInt limit.

(** Zones 0 and 1 have been started by hand. *)
Definition two_zones_on : State :=
  run_calls (june_env quiet) [CallStartZone 0 5; CallStartZone 1 5] booted.

(** Every timer that is still waiting is the one that the record of its zone
    points to. *)
Definition timers_owned (st : State) : Prop :=
  ∀ h t, tasks st !! h = Some t → t_status t = Pending →
         ∃ r, active_zones st !! t_zone t = Some r ∧ zr_task r = h.

(** Zone [z], started at time [c0] for [d] minutes, is active and its timer
    [h] is waiting. *)
Definition zone_waiting (z d c0 : Z) (h : nat) (pin : Z) (st : State) : Prop :=
  active_zones st !! z = Some (ZoneRec c0 d h) ∧
  tasks st !! h = Some (Timer z (c0 + d * 60) Pending) ∧
  zone_pins st !! z = Some pin ∧
  timers_owned st.

(** [n] seconds pass with no coroutine but the timers and the web task
    running. *)
Definition seconds_pass (env : Env) (n : nat) (st : State) : State :=
  run_calls env (replicate n CallSleep) st.

(** A zone entry that has the four keys that [save_user_settings] fills. *)
Definition complete_zone (j : json) : Prop :=
  ∃ m, j = JDict m ∧ is_Some (m !! "id") ∧ is_Some (m !! "status") ∧
       is_Some (m !! "pin") ∧ is_Some (m !! "name").

(** A settings dictionary that [save_user_settings] has nothing to add to:
    it has every factory key, and its zones are complete. *)
Definition normal_settings (d : gmap string json) : Prop :=
  (∀ k, is_Some (FACTORY_SETTINGS !! k) → is_Some (d !! k)) ∧
  ∃ zs, d !! "zones" = Some (JList zs) ∧ Forall complete_zone zs.

(** The settings file cannot be read: it is missing or does not parse. *)
Definition settings_unreadable (st : State) : Prop :=
  settings_file st = Missing ∨ settings_file st = Corrupt.

(** A file system on which [user_settings.json] cannot be written: [torn]
    says whether the write fails after the file was opened. *)
Definition readonly_settings_env (torn : bool) : Env :=
  MkEnv (λ _, false) (λ path, String.eqb path SETTINGS_PATH) (λ _, torn)
        hhmm_from_six (λ _, 6) (λ _, 167) (λ _, "2024-06-15") (λ _, None) quiet.

(** The controller before any settings were stored. *)
Definition first_boot : State := set_settings_file Missing booted.

(** What the merge loop of [save_user_settings_route] leaves under [k]. *)
Definition merged_value (existing sent : option json) : option json :=
  match sent with
  | None => existing
  | Some (JDict v) =>
      match existing with
      | Some (JDict e) => Some (JDict (v ∪ e))
      | _ => Some (JDict v)
      end
  | Some value => Some value
  end.

(** The zone entry [j] of the settings gives zone [w.1] the pin [w.2]. *)
Definition wired (j : json) (w : Z * Z) : Prop :=
  ∃ m, j = JDict m ∧ m !! "id" = Some (JInt w.1) ∧ m !! "pin" = Some (JInt w.2).

(** Settings that give every zone a number and a pin, and the safety relay a
    pin: [wiring] lists the zones in the order of the settings. *)
Definition settings_wired (d : gmap string json) (wiring : list (Z * Z))
    (rpin : Z) : Prop :=
  (∃ zs, d !! "zones" = Some (JList zs) ∧ Forall2 wired zs wiring) ∧
  ∃ relay, d !! "safety_relay" = Some (JDict relay) ∧
           relay !! "pin" = Some (JInt rpin).

(** The pin table that the zone loop of [initialize_pins] builds: a later
    entry for the same zone replaces an earlier one. *)
Definition pins_of (wiring : list (Z * Z)) : gmap Z Z :=
  foldl (λ pins w, <[w.1 := w.2]> pins) ∅ wiring.

(** The controller as the interpreter leaves it before [main] runs: the
    module variables hold their initial values and no output is driven yet;
    the stored settings name three zones and the safety relay. *)
Definition power_on : State :=
  MkState false None false None false false ∅ ∅ None ∅ [] 0
          (Stored (JDict (<["safety_relay" := JDict {[ "pin" := JInt 13 ]}]>
                            (<["zones" := JList (factory_zone <$> [0; 1; 2])]> ∅))))
          (Stored [("1", program_A)]) Missing [] [].

(** The name [program_running] of module [web_server] is bound to [b]. *)
Definition bound (b : bool) (st : State) : Prop := ws_program_running st = b.

(** A zone entry of the settings that carries a number. *)
Definition numbered_zone (j : json) : Prop :=
  ∃ m n, j = JDict m ∧ m !! "id" = Some (JInt n).

(** The zone entry [j] is that of zone [z], and is to be shown. *)
Definition shows (j : json) (z : Z) : Prop :=
  ∃ m, j = JDict m ∧ m !! "id" = Some (JInt z) ∧
       m !! "status" = Some (JStr "show").

(** A calendar that knows the day of the year of two dates (2024 is a leap
    year) and can read no other date. *)
Definition june_calendar (date : string) : option Z :=
  if String.eqb date "2024-06-15" then Some 167
  else if String.eqb date "2024-06-01" then Some 153
  else None.

(** 15 June 2024 with a calendar: [mktime] and [localtime] work on the two
    dates above. *)
Definition calendar_env : Env :=
  MkEnv (λ _, false) (λ _, false) (λ _, false) hhmm_from_six (λ _, 6)
        (λ _, 167) (λ _, "2024-06-15") june_calendar quiet.

(** The number of days that [is_program_due_today] waits between two runs of
    a program: none is fixed for a daily program or an unknown cadence. *)
Definition days_between (p : program) : option Z :=
  let recurrence := default "giornaliero" (p_recurrence p) in
  if String.eqb recurrence "giorni_alterni" then Some 2
  else if String.eqb recurrence "personalizzata"
  then Some (Z.max 1 (default 1 (p_interval_days p)))
  else None.

(** An every-other-day program last run on 31 December 2023. *)
Definition program_new_year : program :=
  Program (Some "1") (Some "A") (Some ["Gennaio"]) (Some "giorni_alterni") None
          (Some "06:00") (Some [Step (Some 0) (Some 1)]) (Some "2023-12-31").

Definition new_year_env (today : Z) : Env :=
  MkEnv (λ _, false) (λ _, false) (λ _, false) hhmm_from_six (λ _, 1)
        (λ _, today) (λ _, "2024-01-01")
        (λ date, if String.eqb date "2023-12-31" then Some 365 else None) quiet.

(** A file system on which nothing can be written: [torn] says whether a
    write fails after the file was opened. *)
Definition readonly_env (torn : bool) : Env :=
  MkEnv (λ _, false) (λ _, true) (λ _, torn) hhmm_from_six (λ _, 6)
        (λ _, 167) (λ _, "2024-06-15") (λ _, None) quiet.

(** A stored log entry of the given date. *)
Definition entry_of (date : string) : gmap string json :=
  {[ "date" := JStr date; "message" := JStr "Avvio" ]}.

Definition log_of (date : string) : json := JDict (entry_of date).

(** ** What a scheduler tick leaves in the log *)

(** The entries written by the scheduler loop and by the prologue of
    [execute_program]: a match is announced, a match is skipped as busy, a run
    starts. *)
Definition tick_event (e : log_entry) : bool :=
  match e with
  | LogScheduledStart _ | LogSchedulerBusy | LogProgramStart _ _ => true
  | _ => false
  end.

Definition tick_trace (l : list log_entry) : list log_entry :=
  List.filter tick_event l.

(** The two entries of a match that is announced and then started. *)
Definition announced_and_started (kv : string * program) : list log_entry :=
  let name := default "Senza nome" (p_name kv.2) in
  [LogScheduledStart name; LogProgramStart name (default "0" (p_id kv.2))].

(** The two entries of a match that is announced and then skipped. *)
Definition announced_and_skipped (kv : string * program) : list log_entry :=
  [LogScheduledStart (default "Senza nome" (p_name kv.2)); LogSchedulerBusy].

(** The dictionary that [load_programs] returns. *)
Definition stored_programs (st : State) : programs :=
  match programs_file st with
  | Stored ps => ensure_id <$> ps
  | _ => []
  end.

(** The keys of a program dictionary are numbers, in ascending order. *)
Fixpoint ascending (ns : list Z) : Prop :=
  match ns with
  | [] => True
  | n :: rest => Forall (Z.lt n) rest ∧ ascending rest
  end.

Definition ids_ascending (ps : programs) : Prop :=
  ∃ ns, int_keys ps = Ret ns ∧ ascending ns.

(** The three firing conditions of [check_programs] for program [p], with the
    time string [t] of the tick and the clock reading [now] at which the loop
    reaches [p]. *)
Definition fires (env : Env) (t : string) (now : Z) (p : program) : bool :=
  String.eqb t (default "" (p_activation_time p))
  && is_program_active_in_current_month env now p
  && is_program_due_today env now p.

(** The programs of [ps] that fire, the k-th of them examined at the k-th
    clock reading of [nows]; the programs beyond the readings are not
    examined. *)
Fixpoint firing (env : Env) (t : string) (nows : list Z) (ps : programs)
  : programs :=
  match nows, ps with
  | now :: nows, kv :: ps =>
      if fires env t now kv.2 then kv :: firing env t nows ps
      else firing env t nows ps
  | _, _ => []
  end.

(** The settings are readable and enable the automatic programs. *)
Definition scheduler_enabled (env : Env) (st : State) : Prop :=
  ∃ settings,
    result_of (load_user_settings env st) = Ret settings ∧
    py_truthy (dict_get "automatic_programs_enabled" (JBool false) settings)
    = true.

(** Module [program_state] is idle and the scheduler entries of the log are
    [T]. *)
Definition traced (T : list log_entry) (st : State) : Prop :=
  program_state_idle st ∧ tick_trace (log st) = T.

(** ** Scenario data, continued *)

(** The last minute of 30 June 2024: the clock counts seconds from 23:59:00,
    so that second 60 is midnight of 1 July. *)
Definition hhmm_from_2359 (t : Z) : string :=
  if t <? 60 then "23:59"
  else two_digits ((t - 60) / 3600) +:+ ":" +:+ two_digits ((t - 60) / 60 mod 60).

Definition yday_2024 (date : string) : option Z :=
  if String.eqb date "2024-06-30" then Some 182
  else if String.eqb date "2024-07-01" then Some 183
  else None.

Definition month_end_env : Env :=
  MkEnv (λ _, false) (λ _, false) (λ _, false) hhmm_from_2359
        (λ t, if t <? 60 then 6 else 7) (λ t, if t <? 60 then 182 else 183)
        (λ t, if t <? 60 then "2024-06-30" else "2024-07-01") yday_2024 quiet.

(** Two programs as they are posted to [/save_program]: one for June, one for
    July, both for 23:59, each with one step of one minute. *)
Definition program_june_night : program :=
  Program None (Some "A") (Some ["Giugno"]) (Some "giornaliero") None
          (Some "23:59") (Some [Step (Some 0) (Some 1)]) None.

Definition program_july_night : program :=
  Program None (Some "B") (Some ["Luglio"]) (Some "giornaliero") None
          (Some "23:59") (Some [Step (Some 1) (Some 1)]) None.

(** The controller with an empty program dictionary. *)
Definition no_programs : State := set_programs_file (Stored []) booted.

(** The store after the two programs were saved through the route. *)
Definition night_store : State :=
  state_of (save_program_route month_end_env program_july_night
              (state_of (save_program_route month_end_env program_june_night
                           no_programs))).

(** A program posted without a name, and the store after it was saved. *)
Definition program_nameless : program :=
  Program None None (Some ["Maggio"]) (Some "giornaliero") None
          (Some "06:00") (Some [Step (Some 0) (Some 1)]) None.

Definition nameless_store : State :=
  state_of (save_program_route (june_env quiet) program_nameless no_programs).

(** Settings that put zones 0 and 1 and the safety relay on pin 13, the
    controller after [initialize_pins] has read them, and the state reached
    from there by starting zone 0, starting zone 1 and stopping zone 1. *)
Definition zone_on_pin (i pin : Z) : json :=
  JDict (list_to_map
    [("id", JInt i); ("status", JStr "show"); ("pin", JInt pin);
     ("name", JStr ("Zona " +:+ pretty (i + 1)))]).

Definition one_pin_settings : json :=
  JDict (<["safety_relay" := JDict {[ "pin" := JInt 13 ]}]>
           (<["zones" := JList [zone_on_pin 0 13; zone_on_pin 1 13]]> ∅)).

Definition one_pin_boot : State :=
  state_of (initialize_pins (june_env quiet)
              (set_settings_file (Stored one_pin_settings) power_on)).

Definition one_pin_zone0_on : State :=
  run_calls (june_env quiet)
    [CallStartZone 0 5; CallStartZone 1 5; CallStopZone 1] one_pin_boot.

(** * Lemmas and theorems *)

(** ** Reasoning rules for [preserves] *)

Section PreservesRules.
Context {A B : Type} (I : State → Prop).

Lemma preserves_ret (a : A) : preserves I (ret a).
Proof. intros st HI. exact HI. Qed.

Lemma preserves_raise (e : exn) : preserves I (raise e : M A).
Proof. intros st HI. exact HI. Qed.

Lemma preserves_gets (f : State → A) : preserves I (gets f).
Proof. intros st HI. exact HI. Qed.

Lemma preserves_lift (o : outcome A) : preserves I (lift o).
Proof. intros st HI. exact HI. Qed.

Lemma preserves_modify (f : State → State) :
  (∀ st, I st → I (f st)) → preserves I (modify f).
Proof. intros Hf st HI. apply Hf, HI. Qed.

Lemma preserves_bind (m : M A) (k : A → M B) :
  preserves I m → (∀ a, preserves I (k a)) → preserves I (bind m k).
Proof.
  intros Hm Hk st HI. specialize (Hm st HI). unfold bind, state_of in *.
  destruct (m st) as [[a|e] st']; [apply Hk|]; exact Hm.
Qed.

Lemma preserves_try_except (m : M A) (h : exn → M A) :
  preserves I m → (∀ e, preserves I (h e)) → preserves I (try_except m h).
Proof.
  intros Hm Hh st HI. specialize (Hm st HI). unfold try_except, state_of in *.
  destruct (m st) as [[a|e] st']; [|apply Hh]; exact Hm.
Qed.

Lemma preserves_finally (m : M A) (c : M unit) :
  preserves I m → preserves I c → preserves I (finally m c).
Proof.
  intros Hm Hc st HI. specialize (Hm st HI). unfold finally, state_of in *.
  destruct (m st) as [o st']. specialize (Hc st' Hm). cbn [snd] in *.
  destruct (c st') as [[u|e] st'']; exact Hc.
Qed.
End PreservesRules.

Ltac pres_step :=
  match goal with
  | |- preserves _ (bind _ _) => apply preserves_bind; [|intros ?]
  | |- preserves _ (ret _) => apply preserves_ret
  | |- preserves _ (raise _) => apply preserves_raise
  | |- preserves _ (gets _) => apply preserves_gets
  | |- preserves _ (lift _) => apply preserves_lift
  | |- preserves _ (try_except _ _) => apply preserves_try_except; [|intros ?]
  | |- preserves _ (finally _ _) => apply preserves_finally
  | |- preserves _ (log_event _) => apply preserves_modify; intros ? ?
  | |- preserves _ (modify _) => apply preserves_modify; intros ? ?
  | |- preserves _ (if ?b then _ else _) => destruct b
  | |- preserves _ (match ?x with _ => _ end) => destruct x
  end.

Ltac pres := repeat pres_step; eauto.

(** [I] survives the zone actuator when it does not depend on the fields the
    actuator writes. *)
Section ActuatorFrame.
Variable env : Env.
Variable I : State → Prop.
Hypothesis I_zm : ∀ r st, I st → I (set_zm_program_running r st).
Hypothesis I_gpio : ∀ g st, I st → I (set_gpio g st).
Hypothesis I_tasks : ∀ ts st, I st → I (set_tasks ts st).
Hypothesis I_active : ∀ az st, I st → I (set_active_zones az st).
Hypothesis I_settings : ∀ f st, I st → I (set_settings_file f st).

Lemma frame_write_file {A} path (put : file A → State → State) (doc : A) :
  (∀ f st, I st → I (put f st)) → preserves I (write_file env path put doc).
Proof. intros Hs. unfold write_file. pres. Qed.

Lemma frame_save_user_settings settings :
  preserves I (save_user_settings env settings).
Proof.
  unfold save_user_settings. pres. apply frame_write_file. eauto.
Qed.

Lemma frame_load_user_settings : preserves I (load_user_settings env).
Proof.
  unfold load_user_settings, factory_reset. pres.
  all: apply frame_save_user_settings.
Qed.

Lemma frame_pin_write pin level : preserves I (pin_write env pin level).
Proof. unfold pin_write. pres. Qed.

Lemma frame_cancel_task h st : I st → I (cancel_task h st).
Proof.
  intros HI. unfold cancel_task.
  destruct (tasks st !! h) as [[z due []]|]; eauto.
Qed.

Lemma frame_start_zone z d : preserves I (start_zone env z d).
Proof.
  unfold start_zone, duration_invalid, create_timer.
  pres; try apply frame_load_user_settings; try apply frame_pin_write;
    try (apply frame_cancel_task; assumption).
  all: intros st HI; cbn [state_of snd]; eauto.
Qed.

Lemma frame_stop_zone z : preserves I (stop_zone env z).
Proof.
  unfold stop_zone.
  pres; try apply frame_pin_write; try (apply frame_cancel_task; assumption).
Qed.
End ActuatorFrame.

(** [I] survives the executor, the routes and a second of sleep when it
    survives the actuator and the run-state functions.  The log entries are
    taken in two groups: those of [tick_event], which only [execute_program]
    and the scheduler loop write, and the others. *)
Section KernelFrame.
Variable env : Env.
Variable I : State → Prop.
Hypothesis I_start_zone : ∀ z d, preserves I (start_zone env z d).
Hypothesis I_stop_zone : ∀ z, preserves I (stop_zone env z).
Hypothesis I_load_settings : preserves I (load_user_settings env).
Hypothesis I_load_state : preserves I (load_program_state env).
Hypothesis I_save_state : preserves I (save_program_state env).
Hypothesis I_tasks : ∀ ts st, I st → I (set_tasks ts st).
Hypothesis I_clock : ∀ t st, I st → I (set_clock t st).
Hypothesis I_pm_running : ∀ r st, I st → I (set_pm_program_running r st).
Hypothesis I_pm_current : ∀ c st, I st → I (set_pm_current_program_id c st).
Hypothesis I_reply : ∀ c r st, I st → I (add_reply c r st).
Hypothesis I_log : ∀ e st, tick_event e = false → I st → I (add_log e st).

Lemma frame_stop_each zs success : preserves I (stop_each env zs success).
Proof.
  revert success. induction zs as [|z zs IH]; intros success; cbn [stop_each]; pres.
Qed.

Lemma frame_stop_all_zones : preserves I (stop_all_zones env).
Proof. unfold stop_all_zones. pres. apply frame_stop_each. Qed.

Lemma frame_zone_timer_wakes h : preserves I (zone_timer_wakes env h).
Proof. unfold zone_timer_wakes. pres. Qed.

Lemma frame_wake_timers hs : preserves I (wake_timers env hs).
Proof.
  induction hs as [|h hs IH]; cbn [wake_timers]; pres.
  all: apply frame_zone_timer_wakes.
Qed.

Lemma frame_stop_program : preserves I (stop_program env).
Proof.
  unfold stop_program. pres; try apply frame_stop_all_zones.
  all: try (apply I_log; [reflexivity|assumption]).
Qed.

Lemma frame_handle_start_zone z d : preserves I (handle_start_zone env z d).
Proof.
  unfold handle_start_zone, duration_invalid. pres.
  all: try (apply I_log; [reflexivity|assumption]).
Qed.

Lemma frame_route c : preserves I (route env c).
Proof.
  destruct c; cbn [route].
  - apply frame_handle_start_zone.
  - unfold handle_stop_zone. pres.
  - unfold stop_program_route. pres. apply frame_stop_program.
Qed.

Lemma frame_serve_all cs : preserves I (serve_all env cs).
Proof.
  induction cs as [|c cs IH]; cbn [serve_all]; pres. apply frame_route.
Qed.

Lemma frame_asyncio_sleep1 : preserves I (asyncio_sleep1 env).
Proof.
  unfold asyncio_sleep1. pres.
  - apply frame_wake_timers.
  - apply frame_serve_all.
Qed.

Lemma frame_wait_seconds n : preserves I (wait_seconds env n).
Proof.
  induction n as [|n IH]; cbn [wait_seconds]; pres. apply frame_asyncio_sleep1.
Qed.

Lemma frame_run_steps i n delay steps : preserves I (run_steps env i n delay steps).
Proof.
  revert i. induction steps as [|s steps IH]; intros i; cbn [run_steps]; pres;
    try apply frame_wait_seconds;
    try (apply I_log; [reflexivity|assumption]).
Qed.

Section WithPrograms.
Hypothesis I_programs : ∀ f st, I st → I (set_programs_file f st).

Lemma frame_save_programs ps : preserves I (save_programs env ps).
Proof. unfold save_programs, write_file. pres. Qed.

Lemma frame_load_programs : preserves I (load_programs env).
Proof. unfold load_programs. pres. apply frame_save_programs. Qed.

Lemma frame_update_last_run_date id : preserves I (update_last_run_date env id).
Proof.
  unfold update_last_run_date. pres;
    try apply frame_load_programs; try apply frame_save_programs.
  all: try (apply I_log; [reflexivity|assumption]).
Qed.

Section WithExecutorLog.
Hypothesis I_started :
  ∀ name id st, I st → I (add_log (LogProgramStart name id) st).

Lemma frame_execute_program p manual : preserves I (execute_program env p manual).
Proof.
  unfold execute_program, execute_cleanup, get_active_zones_count. pres;
    try apply frame_stop_all_zones; try apply frame_asyncio_sleep1;
    try apply frame_run_steps; try apply frame_update_last_run_date;
    try (apply I_log; [reflexivity|assumption]).
Qed.

Section WithSchedulerLog.
Hypothesis I_scheduled :
  ∀ name st, I st → I (add_log (LogScheduledStart name) st).
Hypothesis I_busy : ∀ st, I st → I (add_log LogSchedulerBusy st).

Lemma frame_scan_programs t ps : preserves I (scan_programs env t ps).
Proof.
  induction ps as [|[pid p] ps IH]; cbn [scan_programs]; pres;
    try apply frame_execute_program;
    try apply frame_update_last_run_date;
    try (apply I_log; [reflexivity|assumption]).
Qed.

Lemma frame_check_programs : preserves I (check_programs env).
Proof.
  unfold check_programs. pres; try apply frame_load_programs.
  apply (frame_scan_programs _ (_ :: _)).
Qed.
End WithSchedulerLog.
End WithExecutorLog.
End WithPrograms.
End KernelFrame.

(** ** Stepping through monadic code *)

Ltac msimpl :=
  unfold bind, ret, raise, gets, modify, lift, try_except, finally, log_event,
         state_of, result_of;
  cbn [fst snd negb andb orb
       ps_program_running ps_current_program_id pm_program_running
       pm_current_program_id zm_program_running ws_program_running
       active_zones zone_pins safety_relay gpio tasks clock settings_file
       programs_file state_file log replies
       set_ps set_pm_program_running set_pm_current_program_id
       set_zm_program_running set_active_zones set_pins set_gpio set_tasks
       set_clock set_settings_file set_programs_file set_state_file add_log
       add_reply].

Ltac msimpl_in H :=
  unfold bind, ret, raise, gets, modify, lift, try_except, finally, log_event,
         state_of, result_of in H;
  cbn [fst snd negb andb orb
       ps_program_running ps_current_program_id pm_program_running
       pm_current_program_id zm_program_running ws_program_running
       active_zones zone_pins safety_relay gpio tasks clock settings_file
       programs_file state_file log replies
       set_ps set_pm_program_running set_pm_current_program_id
       set_zm_program_running set_active_zones set_pins set_gpio set_tasks
       set_clock set_settings_file set_programs_file set_state_file add_log
       add_reply] in H.

Lemma state_eta st :
  st = MkState (ps_program_running st) (ps_current_program_id st)
    (pm_program_running st) (pm_current_program_id st) (zm_program_running st)
    (ws_program_running st) (active_zones st) (zone_pins st) (safety_relay st)
    (gpio st) (tasks st) (clock st) (settings_file st) (programs_file st)
    (state_file st) (log st) (replies st).
Proof. by destruct st. Qed.

(** The two ends of a write. *)
Lemma write_file_run {A} env path (put : file A → State → State) (doc : A) st :
  write_file env path put doc st
  = if write_fault env path
    then (Raise OSError, failed_write env path put st)
    else (Ret tt, put (Stored doc) st).
Proof.
  unfold write_file, failed_write.
  destruct (write_fault env path), (write_torn env path); reflexivity.
Qed.

Lemma save_program_state_run env st :
  save_program_state env st
  = (Ret tt,
     if write_fault env PROGRAM_STATE_FILE
     then failed_write env PROGRAM_STATE_FILE set_state_file st
     else set_state_file
            (Stored (StateObject (StateDoc (Some (ps_program_running st))
                                           (ps_current_program_id st)))) st).
Proof.
  unfold save_program_state, try_except, bind, gets. rewrite write_file_run.
  by destruct (write_fault env PROGRAM_STATE_FILE).
Qed.

Lemma save_programs_run env ps st :
  save_programs env ps st
  = if write_fault env PROGRAM_FILE
    then (Ret false, failed_write env PROGRAM_FILE set_programs_file st)
    else (Ret true, set_programs_file (Stored ps) st).
Proof.
  unfold save_programs, try_except, bind. rewrite write_file_run.
  by destruct (write_fault env PROGRAM_FILE).
Qed.

Lemma save_user_settings_run env d d' st :
  normalise_settings d = Ret d' →
  save_user_settings env (JDict d) st
  = if write_fault env SETTINGS_PATH
    then (Ret (false, JDict d'),
          failed_write env SETTINGS_PATH set_settings_file st)
    else (Ret (true, JDict d'), set_settings_file (Stored (JDict d')) st).
Proof.
  intros Hn. unfold save_user_settings. rewrite Hn.
  unfold try_except, bind. rewrite write_file_run.
  by destruct (write_fault env SETTINGS_PATH).
Qed.

Lemma save_user_settings_state env settings st :
  ∃ f, state_of (save_user_settings env settings st) = set_settings_file f st.
Proof.
  unfold save_user_settings.
  destruct settings; try (exists (settings_file st); msimpl; apply state_eta).
  destruct (normalise_settings d); [|exists (settings_file st); msimpl; apply state_eta].
  unfold try_except, bind. rewrite write_file_run. unfold failed_write.
  destruct (write_fault env SETTINGS_PATH), (write_torn env SETTINGS_PATH); msimpl;
    first [by eexists | exists (settings_file st); apply state_eta].
Qed.

Lemma load_user_settings_state env st :
  ∃ f, state_of (load_user_settings env st) = set_settings_file f st.
Proof.
  unfold load_user_settings, factory_reset. msimpl.
  destruct (settings_file st) as [| |[]] eqn:Hf; msimpl;
    try (exists (settings_file st); apply state_eta).
  all: destruct (save_user_settings_state env (JDict FACTORY_SETTINGS) st) as [f Hs];
    destruct (save_user_settings env (JDict FACTORY_SETTINGS) st) as [[r|e] st1];
    msimpl_in Hs; subst st1; msimpl; exists f; reflexivity.
Qed.

Lemma cancel_task_length h st : length (tasks (cancel_task h st)) = length (tasks st).
Proof.
  unfold cancel_task. destruct (tasks st !! h) as [[z due []]|]; try done.
  msimpl. apply length_insert.
Qed.

Lemma clock_cancel_task h st : clock (cancel_task h st) = clock st.
Proof. unfold cancel_task. by destruct (tasks st !! h) as [[z due []]|]. Qed.

Lemma active_zones_cancel_task h st :
  active_zones (cancel_task h st) = active_zones st.
Proof. unfold cancel_task. by destruct (tasks st !! h) as [[z due []]|]. Qed.

Lemma gpio_cancel_task h st : gpio (cancel_task h st) = gpio st.
Proof. unfold cancel_task. by destruct (tasks st !! h) as [[z due []]|]. Qed.

Lemma zone_pins_cancel_task h st : zone_pins (cancel_task h st) = zone_pins st.
Proof. unfold cancel_task. by destruct (tasks st !! h) as [[z due []]|]. Qed.

Lemma safety_relay_cancel_task h st :
  safety_relay (cancel_task h st) = safety_relay st.
Proof. unfold cancel_task. by destruct (tasks st !! h) as [[z due []]|]. Qed.

Lemma set_gpio_twice g1 g2 st : set_gpio g2 (set_gpio g1 st) = set_gpio g2 st.
Proof. reflexivity. Qed.

Lemma start_zone_success env z d st st' :
  start_zone env z d st = (Ret true, st') →
  ps_program_running st = false ∧
  ∃ pin f, zone_pins st !! z = Some pin ∧ st' = start_zone_effect z d pin f st.
Proof.
  unfold start_zone. msimpl.
  destruct (ps_program_running st) eqn:Hps; msimpl; [discriminate|].
  destruct (zone_pins st !! z) as [pin|] eqn:Hpin; msimpl; [|discriminate].
  destruct (load_user_settings_state env (set_zm_program_running false st)) as [f Hload].
  destruct (load_user_settings env (set_zm_program_running false st)) as [[settings|e] st1];
    msimpl_in Hload; subst st1; msimpl; [|discriminate].
  destruct (d <=? 0); msimpl; [discriminate|].
  destruct (py_int (dict_get "max_zone_duration" (JInt 180) settings)) as [maxd|];
    msimpl; [|discriminate].
  destruct (d >? maxd); msimpl; [discriminate|].
  destruct (py_int (dict_get "max_active_zones" (JInt 1) settings)) as [maxa|];
    msimpl; [|discriminate].
  destruct (_ && _); msimpl; [discriminate|].
  intros Hrun. split; [reflexivity|]. exists pin, f. split; [reflexivity|].
  unfold start_zone_effect, relay_on_start, cancel_previous.
  revert Hrun. unfold pin_write, create_timer.
  destruct (safety_relay st) as [rpin|]; msimpl.
  - destruct (dict_empty (active_zones st)); msimpl.
    + destruct (gpio_fault env rpin); msimpl; [discriminate|].
      destruct (gpio_fault env pin); msimpl; [discriminate|].
      destruct (active_zones st !! z) as [old|]; msimpl; intros [= <-];
        rewrite ?cancel_task_length, ?set_gpio_twice;
        rewrite ?clock_cancel_task, ?active_zones_cancel_task; reflexivity.
    + destruct (gpio_fault env pin); msimpl; [discriminate|].
      destruct (active_zones st !! z) as [old|]; msimpl; intros [= <-];
        rewrite ?cancel_task_length, ?set_gpio_twice;
        rewrite ?clock_cancel_task, ?active_zones_cancel_task; reflexivity.
  - destruct (gpio_fault env pin); msimpl; [discriminate|].
    destruct (active_zones st !! z) as [old|]; msimpl; intros [= <-];
      rewrite ?cancel_task_length, ?set_gpio_twice;
      rewrite ?clock_cancel_task, ?active_zones_cancel_task; reflexivity.
Qed.

Lemma dict_empty_false {V} (m : gmap Z V) k v :
  m !! k = Some v → dict_empty m = false.
Proof.
  intros Hk. unfold dict_empty. apply bool_decide_eq_false_2.
  intros Hsz. apply map_size_empty_iff in Hsz. subst m.
  by rewrite lookup_empty in Hk.
Qed.

Lemma dict_empty_true {V} (m : gmap Z V) : dict_empty m = true ↔ m = ∅.
Proof.
  unfold dict_empty. rewrite bool_decide_eq_true. apply map_size_empty_iff.
Qed.

Lemma tasks_cancel_task h st :
  tasks (cancel_task h st)
  = match tasks st !! h with
    | Some t => <[h := cancelled t]> (tasks st)
    | None => tasks st
    end.
Proof.
  unfold cancel_task. destruct (tasks st !! h) as [[z due []]|] eqn:Ht;
    unfold cancelled; cbn; try reflexivity.
  all: symmetry; by apply list_insert_id.
Qed.

(** C9 (amended).  A successful [start_zone] on a zone that is already active
    cancels the zone's previous timer, schedules a new one, and replaces the
    zone's record by one with the current time, the new duration and the new
    timer; the table keeps its size and its other records; the only pin
    written is the zone's own (driven active again), so every other pin keeps
    its level; the pin tables are untouched; and the safety relay keeps its
    state provided it is wired to a pin that no zone uses. *)
Theorem restart_active_zone env z d st st' old :
  active_zones st !! z = Some old →
  start_zone env z d st = (Ret true, st') →
  (∀ t, tasks st !! zr_task old = Some t →
        tasks st' !! zr_task old = Some (cancelled t)) ∧
  tasks st' !! length (tasks st) = Some (Timer z (clock st + d * 60) Pending) ∧
  active_zones st'
    = <[z := ZoneRec (clock st) d (length (tasks st))]> (active_zones st) ∧
  size (active_zones st') = size (active_zones st) ∧
  (∀ z', z' ≠ z → active_zones st' !! z' = active_zones st !! z') ∧
  (∃ pin, zone_pins st !! z = Some pin ∧ gpio st' = <[pin := 0]> (gpio st) ∧
          ∀ q, q ≠ pin → gpio st' !! q = gpio st !! q) ∧
  zone_pins st' = zone_pins st ∧
  safety_relay st' = safety_relay st ∧
  (relay_wired st → relay_asserted st' = relay_asserted st).
Proof.
  intros Hold Hrun.
  destruct (start_zone_success env z d st st' Hrun) as (_ & pin & f & Hpin & ->).
  pose proof (dict_empty_false _ _ _ Hold) as Hne.
  assert (Hgpio : gpio (start_zone_effect z d pin f st) = <[pin := 0]> (gpio st)).
  { unfold start_zone_effect, cancel_previous, relay_on_start. msimpl.
    rewrite Hold, Hne, gpio_cancel_task. msimpl.
    by destruct (safety_relay st). }
  assert (Htasks : tasks (start_zone_effect z d pin f st)
                   = tasks (cancel_task (zr_task old) st)
                     ++ [Timer z (clock st + d * 60) Pending]).
  { unfold start_zone_effect, cancel_previous. msimpl. rewrite Hold.
    rewrite !tasks_cancel_task. reflexivity. }
  assert (Haz : active_zones (start_zone_effect z d pin f st)
                = <[z := ZoneRec (clock st) d (length (tasks st))]> (active_zones st))
    by reflexivity.
  split; [|split; [|split; [|split; [|split; [|split; [|split; [|split]]]]]]].
  - intros t Ht. rewrite Htasks, tasks_cancel_task, Ht.
    rewrite lookup_app_l by (rewrite length_insert; by eapply lookup_lt_Some).
    apply list_lookup_insert_eq. by eapply lookup_lt_Some.
  - rewrite Htasks, <- (cancel_task_length (zr_task old) st).
    by rewrite list_lookup_middle.
  - exact Haz.
  - rewrite Haz. by erewrite map_size_insert_Some.
  - intros z' Hz'. rewrite Haz. by rewrite lookup_insert_ne.
  - exists pin. split; [done|]. split; [exact Hgpio|].
    intros q Hq. rewrite Hgpio. by rewrite lookup_insert_ne.
  - unfold start_zone_effect, cancel_previous. msimpl. rewrite Hold.
    rewrite zone_pins_cancel_task. reflexivity.
  - unfold start_zone_effect, cancel_previous. msimpl. rewrite Hold.
    rewrite safety_relay_cancel_task. reflexivity.
  - intros (rpin & Hrelay & Hwire). unfold relay_asserted.
    assert (safety_relay (start_zone_effect z d pin f st) = Some rpin) as ->.
    { unfold start_zone_effect, cancel_previous. msimpl. rewrite Hold.
      rewrite safety_relay_cancel_task. exact Hrelay. }
    rewrite Hrelay, Hgpio. rewrite lookup_insert_ne; [done|].
    by apply (Hwire z).
Qed.

Section RelayInvariant.
Variable env : Env.
Hypothesis no_fault : no_gpio_fault env.

Lemma pin_write_ok pin level st :
  pin_write env pin level st
  = (Ret tt, set_gpio (<[pin := level]> (gpio st)) st).
Proof. unfold pin_write. by rewrite no_fault. Qed.

(** [relay_follows_table] reads four fields only. *)
Lemma relay_follows_table_ext st1 st2 :
  active_zones st1 = active_zones st2 → gpio st1 = gpio st2 →
  zone_pins st1 = zone_pins st2 → safety_relay st1 = safety_relay st2 →
  relay_follows_table st2 → relay_follows_table st1.
Proof.
  unfold relay_follows_table, relay_wired, relay_asserted, zones_active.
  by intros -> -> -> ->.
Qed.

Lemma start_zone_failure_frame z d st :
  result_of (start_zone env z d st) ≠ Ret true →
  active_zones (state_of (start_zone env z d st)) = active_zones st ∧
  gpio (state_of (start_zone env z d st)) = gpio st ∧
  zone_pins (state_of (start_zone env z d st)) = zone_pins st ∧
  safety_relay (state_of (start_zone env z d st)) = safety_relay st.
Proof.
  unfold start_zone. msimpl.
  destruct (ps_program_running st) eqn:Hps; msimpl; [done|].
  destruct (zone_pins st !! z) as [pin|] eqn:Hpin; msimpl; [|done].
  destruct (load_user_settings_state env (set_zm_program_running false st)) as [f Hload].
  destruct (load_user_settings env (set_zm_program_running false st)) as [[settings|e] st1];
    msimpl_in Hload; subst st1; msimpl; [|done].
  destruct (d <=? 0); msimpl; [done|].
  destruct (py_int (dict_get "max_zone_duration" (JInt 180) settings)) as [maxd|];
    msimpl; [|done].
  destruct (d >? maxd); msimpl; [done|].
  destruct (py_int (dict_get "max_active_zones" (JInt 1) settings)) as [maxa|];
    msimpl; [|done].
  destruct (_ && _); msimpl; [done|].
  unfold pin_write, create_timer. rewrite !no_fault.
  destruct (safety_relay st) as [rpin|]; msimpl.
  - destruct (dict_empty (active_zones st)); msimpl; rewrite ?no_fault; msimpl;
      destruct (active_zones st !! z); msimpl; intros []; reflexivity.
  - destruct (active_zones st !! z); msimpl; intros []; reflexivity.
Qed.

Lemma zones_active_insert z r st st' :
  active_zones st' = <[z := r]> (active_zones st) → zones_active st' = true.
Proof.
  intros Haz. unfold zones_active. rewrite Haz.
  by erewrite dict_empty_false; [|apply lookup_insert_eq].
Qed.

Lemma start_zone_keeps_relay z d :
  preserves relay_follows_table (start_zone env z d).
Proof.
  intros st HI.
  destruct (start_zone env z d st) as [o st'] eqn:Hrun.
  assert (o = Ret true ∨ o ≠ Ret true) as [->|Hfail]
    by (destruct o as [[]|]; eauto; right; discriminate).
  - cbn [state_of snd].
    destruct (start_zone_success env z d st st' Hrun) as (_ & pin & f & Hpin & ->).
    destruct HI as [(rpin & Hrelay & Hwire) Hrel].
    assert (Hsr : safety_relay (start_zone_effect z d pin f st) = Some rpin).
    { unfold start_zone_effect, cancel_previous. msimpl.
      destruct (active_zones st !! z); rewrite ?safety_relay_cancel_task; exact Hrelay. }
    assert (Hzp : zone_pins (start_zone_effect z d pin f st) = zone_pins st).
    { unfold start_zone_effect, cancel_previous. msimpl.
      destruct (active_zones st !! z); rewrite ?zone_pins_cancel_task; reflexivity. }
    assert (Hgpio : gpio (start_zone_effect z d pin f st)
                    = <[pin := 0]> (relay_on_start st)).
    { unfold start_zone_effect, cancel_previous. msimpl.
      destruct (active_zones st !! z); rewrite ?gpio_cancel_task; reflexivity. }
    split.
    + exists rpin. split; [exact Hsr|]. intros z' pin'. rewrite Hzp. apply Hwire.
    + rewrite (zones_active_insert z (ZoneRec (clock st) d (length (tasks st))) st)
        by reflexivity.
      unfold relay_asserted. rewrite Hsr, Hgpio.
      rewrite lookup_insert_ne by (by apply (Hwire z)).
      unfold relay_on_start. rewrite Hrelay.
      unfold relay_asserted, zones_active in Hrel. rewrite Hrelay in Hrel.
      destruct (dict_empty (active_zones st)).
      * rewrite lookup_insert_eq. by apply bool_decide_eq_true_2.
      * exact Hrel.
  - cbn [state_of snd].
    assert (Hres : result_of (start_zone env z d st) ≠ Ret true) by (by rewrite Hrun).
    destruct (start_zone_failure_frame z d st Hres) as (Haz & Hg & Hzp & Hsr).
    rewrite Hrun in Haz, Hg, Hzp, Hsr. cbn [state_of snd] in *.
    by eapply relay_follows_table_ext.
Qed.

Lemma delete_nonempty {V} (m : gmap Z V) k :
  dict_empty (delete k m) = false → dict_empty m = false.
Proof.
  intros Hne. destruct (dict_empty m) eqn:Hm; [|done].
  apply dict_empty_true in Hm. subst m. rewrite delete_empty in Hne.
  by rewrite (proj2 (dict_empty_true (∅ : gmap Z V))) in Hne.
Qed.

Lemma stop_zone_keeps_relay z :
  preserves relay_follows_table (stop_zone env z).
Proof.
  intros st [(rpin & Hrelay & Hwire) Hrel].
  unfold relay_asserted, zones_active in Hrel. rewrite Hrelay in Hrel.
  unfold stop_zone. msimpl.
  destruct (zone_pins st !! z) as [pin|] eqn:Hpin; msimpl.
  2:{ split; [by exists rpin|]. unfold relay_asserted, zones_active.
      by rewrite Hrelay. }
  rewrite pin_write_ok. msimpl.
  pose proof (Hwire z pin Hpin) as Hne.
  destruct (active_zones st !! z) as [old|] eqn:Hold; msimpl;
    rewrite ?safety_relay_cancel_task, ?active_zones_cancel_task; msimpl;
    rewrite Hrelay.
  - destruct (dict_empty (delete z (active_zones st))) eqn:Hempty;
      rewrite ?pin_write_ok; msimpl.
    + split.
      * exists rpin. msimpl. rewrite safety_relay_cancel_task, zone_pins_cancel_task.
        by split.
      * unfold relay_asserted, zones_active. msimpl.
        rewrite safety_relay_cancel_task. msimpl. rewrite Hrelay, Hempty.
        rewrite lookup_insert_eq. by apply bool_decide_eq_false_2.
    + split.
      * exists rpin. msimpl. rewrite safety_relay_cancel_task, zone_pins_cancel_task.
        by split.
      * unfold relay_asserted, zones_active. msimpl.
        rewrite safety_relay_cancel_task, gpio_cancel_task. msimpl.
        rewrite Hrelay, Hempty. rewrite lookup_insert_ne by done.
        rewrite Hrel. by rewrite (delete_nonempty _ _ Hempty).
  - destruct (dict_empty (active_zones st)) eqn:Hempty;
      rewrite ?pin_write_ok; msimpl.
    + split; [by exists rpin|].
      unfold relay_asserted, zones_active. msimpl. rewrite Hrelay, Hempty.
      rewrite lookup_insert_eq. by apply bool_decide_eq_false_2.
    + split; [by exists rpin|].
      unfold relay_asserted, zones_active. msimpl. rewrite Hrelay, Hempty.
      rewrite lookup_insert_ne by done. exact Hrel.
Qed.
End RelayInvariant.


Lemma zone0_on_pin : zone_pins zone0_on !! 0 = Some 14.
Proof. vm_compute. reflexivity. Defined.

Lemma zone0_on_active :
  active_zones zone0_on !! 0 = Some (ZoneRec 0 5 0).
Proof. vm_compute. reflexivity. Defined.

Section RelayEverywhere.
Variable env : Env.
Hypothesis no_fault : no_gpio_fault env.

(** [relay_follows_table] reads [active_zones], [gpio], [zone_pins] and
    [safety_relay] only: an update of another field leaves it as it is, by
    computation. *)
Lemma relay_load_user_settings :
  preserves relay_follows_table (load_user_settings env).
Proof.
  intros st HI. destruct (load_user_settings_state env st) as [f ->]. exact HI.
Qed.

Lemma relay_save_program_state :
  preserves relay_follows_table (save_program_state env).
Proof. unfold save_program_state, write_file. pres. Qed.

Lemma relay_load_program_state :
  preserves relay_follows_table (load_program_state env).
Proof.
  unfold load_program_state. pres; apply relay_save_program_state.
Qed.

Lemma relay_call c st :
  relay_follows_table st → relay_follows_table (run_call env c st).
Proof.
  assert (Hstart := start_zone_keeps_relay env no_fault).
  assert (Hstop := stop_zone_keeps_relay env no_fault).
  assert (Hls := relay_load_user_settings).
  assert (Hlp := relay_load_program_state).
  assert (Hsp := relay_save_program_state).
  assert (Hts : ∀ ts st, relay_follows_table st → relay_follows_table (set_tasks ts st))
    by (intros ts st1 H; exact H).
  assert (Hck : ∀ t st, relay_follows_table st → relay_follows_table (set_clock t st))
    by (intros t st1 H; exact H).
  assert (Hpr : ∀ r st, relay_follows_table st →
                         relay_follows_table (set_pm_program_running r st))
    by (intros r st1 H; exact H).
  assert (Hpc : ∀ c st, relay_follows_table st →
                         relay_follows_table (set_pm_current_program_id c st))
    by (intros r st1 H; exact H).
  assert (Hrp : ∀ c r st, relay_follows_table st → relay_follows_table (add_reply c r st))
    by (intros c0 r st1 H; exact H).
  assert (Hlg : ∀ e st, e ≠ LogSchedulerBusy → relay_follows_table st →
                         relay_follows_table (add_log e st))
    by (intros e st1 _ H; exact H).
  assert (Hpf : ∀ f st, relay_follows_table st →
                         relay_follows_table (set_programs_file f st))
    by (intros f st1 H; exact H).
  intros HI. destruct c; cbn [run_call].
  - by apply Hstart.
  - by apply Hstop.
  - by apply (frame_stop_all_zones env relay_follows_table).
  - by apply (frame_zone_timer_wakes env relay_follows_table).
  - by apply (frame_route env relay_follows_table).
  - by apply (frame_asyncio_sleep1 env relay_follows_table).
  - by apply (frame_stop_program env relay_follows_table).
  - by apply (frame_execute_program env relay_follows_table).
  - by apply (frame_check_programs env relay_follows_table).
Qed.

Lemma relay_calls cs st :
  relay_follows_table st → relay_follows_table (run_calls env cs st).
Proof.
  revert st. induction cs as [|c cs IH]; intros st HI; [exact HI|].
  cbn [run_calls foldl]. apply IH, relay_call, HI.
Qed.
End RelayEverywhere.

Lemma zones_active_true st : zones_active st = true ↔ active_zones st ≠ ∅.
Proof.
  unfold zones_active. rewrite negb_true_iff, <- not_true_iff_false.
  by rewrite dict_empty_true.
Qed.

(** C2 (amended).  With a safety relay wired to a pin of its own and GPIO
    writes that succeed, after any sequence of kernel calls the relay output
    is asserted exactly when the active-zone table is not empty; [start_zone]
    turns the relay on exactly when the table goes from empty to non-empty and
    [stop_zone] turns it off exactly when the table goes from non-empty to
    empty. *)
Theorem safety_relay_follows_active_zones env st calls :
  no_gpio_fault env →
  relay_follows_table st →
  relay_follows_table (run_calls env calls st) ∧
  (relay_asserted (run_calls env calls st) = true
     ↔ active_zones (run_calls env calls st) ≠ ∅) ∧
  (∀ z d,
     (relay_asserted (run_calls env calls st) = false ∧
      relay_asserted (state_of (start_zone env z d (run_calls env calls st))) = true)
     ↔ (zones_active (run_calls env calls st) = false ∧
        zones_active (state_of (start_zone env z d (run_calls env calls st))) = true)) ∧
  (∀ z,
     (relay_asserted (run_calls env calls st) = true ∧
      relay_asserted (state_of (stop_zone env z (run_calls env calls st))) = false)
     ↔ (zones_active (run_calls env calls st) = true ∧
        zones_active (state_of (stop_zone env z (run_calls env calls st))) = false)).
Proof.
  intros Hok HI.
  pose proof (relay_calls env Hok calls st HI) as HI'.
  split; [exact HI'|]. split; [|split].
  - destruct HI' as [_ ->]. apply zones_active_true.
  - intros z d.
    pose proof (start_zone_keeps_relay env Hok z d _ HI') as [_ Hafter].
    destruct HI' as [_ Hbefore]. by rewrite Hafter, Hbefore.
  - intros z.
    pose proof (stop_zone_keeps_relay env Hok z _ HI') as [_ Hafter].
    destruct HI' as [_ Hbefore]. by rewrite Hafter, Hbefore.
Qed.

Lemma booted_relay_follows_table : relay_follows_table booted.
Proof.
  split; [|reflexivity].
  exists 13. split; [reflexivity|].
  intros z pin. unfold booted. cbn [zone_pins list_to_map foldr fst snd uncurry].
  rewrite !lookup_insert, lookup_empty.
  repeat case_decide; intros [= <-]; discriminate.
Defined.

Lemma june_env_no_gpio_fault requests : no_gpio_fault (june_env requests).
Proof. intros pin. reflexivity. Defined.

Lemma safety_relay_follows_active_zones_witness :
  no_gpio_fault (june_env quiet) ∧
  relay_follows_table booted ∧
  relay_follows_table
    (run_calls (june_env quiet)
       [CallStartZone 0 5; CallStartZone 1 5; CallStopZone 0; CallCheckPrograms]
       booted).
Proof.
  split; [exact (june_env_no_gpio_fault quiet)|].
  split; [exact booted_relay_follows_table|].
  exact (proj1 (safety_relay_follows_active_zones (june_env quiet) booted _
                  (june_env_no_gpio_fault quiet) booted_relay_follows_table)).
Defined.

(** C2, as stated, fails.  Without a safety relay a started zone leaves the
    table non-empty and no relay output asserted.  With a broken driver on the
    zone's pin, [start_zone] has already turned the relay on when the zone
    write fails, and returns with the relay asserted over an empty table.  With
    a zone wired to the relay's pin, stopping that zone releases the relay
    while another zone is still active. *)
Lemma safety_relay_invariant_broken :
  (result_of (start_zone (june_env quiet) 0 5 no_relay) = Ret true ∧
   zones_active (state_of (start_zone (june_env quiet) 0 5 no_relay)) = true ∧
   relay_asserted (state_of (start_zone (june_env quiet) 0 5 no_relay)) = false) ∧
  (result_of (start_zone (faulty_env 14) 0 5 booted) = Ret false ∧
   zones_active (state_of (start_zone (faulty_env 14) 0 5 booted)) = false ∧
   relay_asserted (state_of (start_zone (faulty_env 14) 0 5 booted)) = true) ∧
  (zones_active
     (run_calls (june_env quiet)
        [CallStartZone 1 5; CallStartZone 0 5; CallStopZone 0] shared_pin) = true ∧
   relay_asserted
     (run_calls (june_env quiet)
        [CallStartZone 1 5; CallStartZone 0 5; CallStopZone 0] shared_pin) = false).
Proof. vm_compute. repeat split. Qed.

Lemma zone0_restart_succeeds :
  start_zone (june_env quiet) 0 7 zone0_on = (Ret true, zone0_restarted).
Proof.
  unfold zone0_restarted, state_of.
  assert (H : result_of (start_zone (june_env quiet) 0 7 zone0_on) = Ret true)
    by (vm_compute; reflexivity).
  unfold result_of in H.
  destruct (start_zone (june_env quiet) 0 7 zone0_on) as [o st']. cbn [fst snd] in *.
  by subst o.
Defined.

Lemma restart_active_zone_witness :
  active_zones zone0_on !! 0 = Some (ZoneRec 0 5 0) ∧
  start_zone (june_env quiet) 0 7 zone0_on = (Ret true, zone0_restarted) ∧
  active_zones zone0_restarted
    = <[0 := ZoneRec (clock zone0_on) 7 (length (tasks zone0_on))]>
        (active_zones zone0_on) ∧
  size (active_zones zone0_restarted) = size (active_zones zone0_on).
Proof.
  split; [exact zone0_on_active|]. split; [exact zone0_restart_succeeds|].
  destruct (restart_active_zone (june_env quiet) 0 7 zone0_on zone0_restarted _
              zone0_on_active zone0_restart_succeeds)
    as (_ & _ & Haz & Hsize & _).
  split; [exact Haz|exact Hsize].
Defined.

(** C9, as stated, fails.  The settings put zones 0 and 1 and the safety
    relay on pin 13, and [initialize_pins] accepts them.  Zone 0 is started,
    then zone 1 is started and stopped: its stop releases pin 13 while zone 0
    is still in the table.  Starting zone 0 again succeeds and drives pin 13
    active: the safety relay goes from released to asserted, and the pin of
    zone 1 changes its level with it. *)
Lemma restart_flips_shared_relay :
  result_of (initialize_pins (june_env quiet)
               (set_settings_file (Stored one_pin_settings) power_on)) = Ret true ∧
  zone_pins one_pin_boot !! 0 = Some 13 ∧
  zone_pins one_pin_boot !! 1 = Some 13 ∧
  safety_relay one_pin_boot = Some 13 ∧
  active_zones one_pin_zone0_on !! 0 = Some (ZoneRec 0 5 0) ∧
  active_zones one_pin_zone0_on !! 1 = None ∧
  gpio one_pin_zone0_on !! 13 = Some 1 ∧
  relay_asserted one_pin_zone0_on = false ∧
  result_of (start_zone (june_env quiet) 0 7 one_pin_zone0_on) = Ret true ∧
  gpio (state_of (start_zone (june_env quiet) 0 7 one_pin_zone0_on)) !! 13
    = Some 0 ∧
  relay_asserted (state_of (start_zone (june_env quiet) 0 7 one_pin_zone0_on))
    = true.
Proof. vm_compute. repeat split. Qed.

(** ** Settings *)

Lemma lookup_setdefault k v (d : gmap string json) j :
  setdefault k v d !! j =
  match d !! j with
  | Some x => Some x
  | None => if decide (k = j) then Some v else None
  end.
Proof.
  unfold setdefault. destruct (d !! k) eqn:Hk.
  - destruct (d !! j) eqn:Hj; [done|]. case_decide; [congruence|done].
  - rewrite lookup_insert. case_decide; subst.
    + by rewrite Hk.
    + by destruct (d !! j).
Qed.

Lemma fill_from_list_lookup (l : list (string * json)) (d : gmap string json) j :
  foldl (λ acc kv, match acc !! kv.1 with
                   | Some _ => acc
                   | None => <[kv.1 := kv.2]> acc
                   end) d l !! j
  = or_default d (list_to_map l) j.
Proof.
  unfold or_default. revert d.
  induction l as [|[k v] l IH]; intros d; simpl.
  - rewrite lookup_empty. by destruct (d !! j).
  - rewrite IH. destruct (d !! k) eqn:Hk.
    + destruct (d !! j) eqn:Hj; [done|].
      rewrite lookup_insert_ne; [done|congruence].
    + rewrite !lookup_insert. case_decide; subst.
      * by rewrite Hk.
      * done.
Qed.

Lemma fill_missing_lookup defaults d j :
  fill_missing defaults d !! j = or_default d defaults j.
Proof.
  unfold fill_missing. rewrite fill_from_list_lookup.
  by rewrite list_to_map_to_list.
Qed.

Lemma fill_zone_dict defs (m : gmap string json) :
  fill_zone defs (JDict m)
  = Ret (JDict (foldl (λ acc kv, setdefault kv.1 kv.2 acc) m defs)).
Proof.
  revert m. induction defs as [|[k v] defs IH]; intros m; [done|].
  cbn [fill_zone py_in py_setitem foldl fst snd].
  unfold setdefault at 2. destruct (m !! k) eqn:Hk.
  - rewrite bool_decide_eq_true_2 by eauto. apply IH.
  - rewrite bool_decide_eq_false_2 by (intros [? ?]; congruence). apply IH.
Qed.

Lemma normalised_zone_spec i z : zone_normalised_at i z (normalised_zone i z).
Proof.
  unfold zone_normalised_at, normalised_zone.
  repeat split; intros; rewrite !lookup_setdefault;
    repeat case_decide; try done; try congruence;
    repeat match goal with |- context [z !! ?k] => destruct (z !! k) end; done.
Qed.

Lemma fill_zones_from_dicts i zs :
  Forall is_dict zs →
  ∃ zs', fill_zones_from i zs = Ret zs' ∧ length zs' = length zs ∧
         ∀ k z, zs !! k = Some (JDict z) →
                zs' !! k = Some (JDict (normalised_zone (i + k) z)).
Proof.
  intros Hall. revert i. induction Hall as [|j zs Hj Hall IH]; intros i.
  - exists []. by split; [|split; [|intros k z; rewrite lookup_nil]].
  - destruct j as [| | | | |m]; try done.
    destruct (IH (S i)) as (zs' & Hrun & Hlen & Hlook).
    cbn [fill_zones_from]. rewrite fill_zone_dict, Hrun.
    eexists. split; [done|]. split; [simpl; lia|].
    intros [|k] z; simpl.
    + intros [= ->]. by rewrite Nat.add_0_r.
    + intros Hk. rewrite (Hlook k z Hk). do 3 f_equal. lia.
Qed.

Lemma factory_lookup j :
  FACTORY_SETTINGS !! j =
  if decide ("zones" = j) then Some (JList (factory_zone <$> [0; 1; 2; 3; 4; 5; 6; 7]))
  else if decide ("max_active_zones" = j) then Some (JInt 3)
  else if decide ("activation_delay" = j) then Some (JInt 5)
  else if decide ("safety_relay" = j) then Some (JDict (list_to_map [("pin", JInt 13)]))
  else if decide ("ap" = j) then Some (JDict (list_to_map
              [("ssid", JStr "IrrigationSystem"); ("password", JStr "12345678")]))
  else if decide ("wifi" = j) then Some (JDict (list_to_map [("ssid", JStr ""); ("password", JStr "")]))
  else if decide ("automatic_programs_enabled" = j) then Some (JBool false)
  else if decide ("client_enabled" = j) then Some (JBool false)
  else if decide ("max_zone_duration" = j) then Some (JInt 180)
  else None.
Proof.
  unfold FACTORY_SETTINGS. cbn [list_to_map foldr fst snd uncurry].
  rewrite !lookup_insert, lookup_empty.
  repeat (case_decide; [subst; try done|]); try done.
Qed.

Lemma factory_zones :
  FACTORY_SETTINGS !! "zones" = Some (JList (factory_zone <$> [0; 1; 2; 3; 4; 5; 6; 7])).
Proof. rewrite factory_lookup. rewrite decide_True by reflexivity. reflexivity. Qed.
#[local] Opaque FACTORY_SETTINGS.

Lemma factory_zones_are_dicts :
  ∃ zs, FACTORY_SETTINGS !! "zones" = Some (JList zs) ∧ Forall is_dict zs.
Proof.
  eexists. split; [apply factory_zones|].
  cbn [fmap list_fmap].
  repeat (apply Forall_cons_2; [exact I|]). apply Forall_nil_2.
Qed.

Lemma load_user_settings_readable env st d :
  settings_file st = Stored (JDict d) →
  ∃ d', load_user_settings env st = (Ret d', st) ∧
        ∀ k, d' !! k = or_default d FACTORY_SETTINGS k.
Proof.
  intros Hf. unfold load_user_settings, try_except, bind, gets. rewrite Hf.
  cbn [ret]. eexists. split; [reflexivity|].
  intros k. unfold or_default.
  rewrite factory_zones. cbn [default].
  rewrite !lookup_setdefault, (factory_lookup k).
  destruct (d !! k); [done|].
  repeat (case_decide; [subst; try done|]); try done.
Qed.

(** C8 (amended).  Loading a readable settings object returns it with every
    missing key taken from the factory settings and every present key kept;
    the state, and with it the stored file, is exactly what it was: the
    completed document is not written back. *)
Theorem load_user_settings_fills_defaults env st d :
  settings_file st = Stored (JDict d) →
  ∃ d', load_user_settings env st = (Ret d', st) ∧
        (∀ k v, d !! k = Some v → d' !! k = Some v) ∧
        (∀ k, d !! k = None → d' !! k = FACTORY_SETTINGS !! k).
Proof.
  intros Hf. destruct (load_user_settings_readable env st d Hf) as (d' & Hrun & Hk).
  exists d'. split; [exact Hrun|]. split.
  - intros k v Hv. rewrite Hk. unfold or_default. rewrite Hv. reflexivity.
  - intros k Hnone. rewrite Hk. unfold or_default. rewrite Hnone. reflexivity.
Qed.

(** A failed write on the zone's pin ends [stop_zone] at once. *)
Lemma stop_zone_gpio_failure env st z pin :
  zone_pins st !! z = Some pin → gpio_fault env pin = true →
  stop_zone env z st = (Ret false, st).
Proof.
  intros Hpin Hfault.
  unfold stop_zone. cbn [bind gets]. rewrite Hpin.
  unfold pin_write. rewrite Hfault. reflexivity.
Qed.

Lemma normalise_settings_spec d :
  zones_well_formed d →
  ∃ d' zs zs',
    normalise_settings d = Ret d' ∧
    or_default d FACTORY_SETTINGS "zones" = Some (JList zs) ∧
    d' = <["zones" := JList zs']> (fill_missing FACTORY_SETTINGS d) ∧
    length zs' = length zs ∧
    ∀ i z, zs !! i = Some (JDict z) →
           zs' !! i = Some (JDict (normalised_zone i z)).
Proof.
  intros Hwf. unfold normalise_settings.
  assert (∃ zs, fill_missing FACTORY_SETTINGS d !! "zones" = Some (JList zs)
                ∧ Forall is_dict zs) as (zs & Hz & Hall).
  { rewrite fill_missing_lookup. unfold or_default, zones_well_formed in Hwf |- *.
    destruct (d !! "zones") as [[]|]; try contradiction.
    - eexists. split; [reflexivity|exact Hwf].
    - exact factory_zones_are_dicts. }
  rewrite Hz. cbn [normalise_zones].
  destruct (fill_zones_from_dicts 0 zs Hall) as (zs' & Hrun & Hlen & Hlook).
  rewrite Hrun. exists (<["zones" := JList zs']> (fill_missing FACTORY_SETTINGS d)), zs, zs'.
  split; [reflexivity|]. split; [rewrite <- fill_missing_lookup; exact Hz|].
  split; [reflexivity|]. split; [exact Hlen|exact Hlook].
Qed.

(** C10.  When the file can be written and the zone list is a list of
    objects, [save_user_settings] stores and returns the normalised
    dictionary: it has every factory key, a key other than [zones] keeps the
    caller's value or else takes the factory value, and the zone at index [i]
    gets [id = i], [status = 'show'], [pin = 14 + i] and [name = 'Zona i+1']
    where these were missing. *)
Theorem save_user_settings_normalises env st d :
  write_fault env SETTINGS_PATH = false →
  zones_well_formed d →
  ∃ d' zs zs',
    save_user_settings env (JDict d) st
      = (Ret (true, JDict d'), set_settings_file (Stored (JDict d')) st) ∧
    (∀ k, is_Some (FACTORY_SETTINGS !! k) → is_Some (d' !! k)) ∧
    (∀ k, k ≠ "zones" → d' !! k = or_default d FACTORY_SETTINGS k) ∧
    or_default d FACTORY_SETTINGS "zones" = Some (JList zs) ∧
    d' !! "zones" = Some (JList zs') ∧
    length zs' = length zs ∧
    ∀ i z, zs !! i = Some (JDict z) →
           ∃ z', zs' !! i = Some (JDict z') ∧ zone_normalised_at i z z'.
Proof.
  intros Hw Hwf.
  destruct (normalise_settings_spec d Hwf) as (d' & zs & zs' & Hn & Hz & -> & Hlen & Hlook).
  eexists _, zs, zs'. split; [|split; [|split; [|split; [|split; [|split]]]]].
  - unfold save_user_settings. rewrite Hn.
    unfold try_except, bind, write_file. rewrite Hw. reflexivity.
  - intros k [v Hv]. destruct (decide (k = "zones")) as [->|Hne].
    + rewrite lookup_insert_eq. eauto.
    + rewrite lookup_insert_ne by congruence. rewrite fill_missing_lookup.
      unfold or_default. rewrite Hv. destruct (d !! k); eauto.
  - intros k Hne. rewrite lookup_insert_ne by congruence. apply fill_missing_lookup.
  - exact Hz.
  - apply lookup_insert_eq.
  - exact Hlen.
  - intros i z Hi. eexists. split; [by apply Hlook|]. apply normalised_zone_spec.
Qed.


Lemma Ret_inj {A} (a b : A) : Ret a = Ret b → a = b.
Proof.
  intros H. exact (f_equal (λ o, match o with Ret x => x | Raise _ => a end) H).
Qed.

(** Whatever its argument and whatever the file system does,
    [save_user_settings] either leaves the state alone (the argument is not a
    dictionary, a zone cannot be normalised, or the file cannot be opened),
    or leaves an unreadable file (the write fails after [open]), or stores an
    object that has every factory key. *)
Lemma save_user_settings_stores_factory_keys env settings st :
  state_of (save_user_settings env settings st) = st ∨
  state_of (save_user_settings env settings st) = set_settings_file Corrupt st ∨
  ∃ d', state_of (save_user_settings env settings st)
          = set_settings_file (Stored (JDict d')) st ∧
        ∀ k, is_Some (FACTORY_SETTINGS !! k) → is_Some (d' !! k).
Proof.
  unfold save_user_settings.
  destruct settings as [| | | | |d];
    [left; reflexivity|left; reflexivity|left; reflexivity|left; reflexivity|
     left; reflexivity|].
  destruct (normalise_settings d) as [d'|e] eqn:Hn; [|left; reflexivity].
  unfold try_except, bind. rewrite write_file_run. unfold failed_write.
  destruct (write_fault env SETTINGS_PATH); msimpl;
    [destruct (write_torn env SETTINGS_PATH);
       [right; left; reflexivity|left; reflexivity]|].
  right. right. exists d'. split; [reflexivity|].
  intros k [v Hv]. unfold normalise_settings in Hn. cbv zeta in Hn.
  assert (Hfill : is_Some (fill_missing FACTORY_SETTINGS d !! k)).
  { rewrite fill_missing_lookup. unfold or_default. rewrite Hv.
    destruct (d !! k); by eexists. }
  destruct (fill_missing FACTORY_SETTINGS d !! "zones") as [zones|].
  - destruct (normalise_zones zones) as [zones'|]; [|discriminate Hn].
    apply Ret_inj in Hn. rewrite <- Hn.
    destruct (decide (k = "zones")) as [Hk|Hne].
    + rewrite Hk, lookup_insert_eq. eexists; reflexivity.
    + rewrite lookup_insert_ne by (intros E; apply Hne; symmetry; exact E).
      exact Hfill.
  - apply Ret_inj in Hn. rewrite <- Hn. exact Hfill.
Qed.

(** C8, as stated, fails: the stored empty object is upgraded in the returned
    dictionary only; the file still holds the empty object after the load. *)
Lemma load_user_settings_does_not_resave :
  ∃ d', result_of (load_user_settings (june_env quiet) partial_store) = Ret d' ∧
        d' !! "max_zone_duration" = Some (JInt 180) ∧
        settings_file (state_of (load_user_settings (june_env quiet) partial_store))
          = Stored (JDict ∅) ∧
        settings_file (state_of (load_user_settings (june_env quiet) partial_store))
          ≠ Stored (JDict d').
Proof.
  destruct (load_user_settings_readable (june_env quiet) partial_store ∅ eq_refl)
    as (d' & Hrun & Hk).
  assert (Hmax : d' !! "max_zone_duration" = Some (JInt 180)).
  { rewrite Hk. unfold or_default. rewrite lookup_empty, factory_lookup.
    repeat (rewrite decide_False by discriminate). rewrite decide_True by reflexivity.
    reflexivity. }
  exists d'. rewrite Hrun. split; [reflexivity|]. split; [exact Hmax|].
  split; [reflexivity|].
  cbn [state_of snd]. unfold partial_store. cbn [settings_file set_settings_file].
  intros Heq. injection Heq as Heq. rewrite <- Heq, lookup_empty in Hmax.
  discriminate.
Qed.

Lemma load_user_settings_fills_defaults_witness :
  settings_file partial_store = Stored (JDict ∅) ∧
  ∃ d', load_user_settings (june_env quiet) partial_store = (Ret d', partial_store) ∧
        ∀ k, d' !! k = FACTORY_SETTINGS !! k.
Proof.
  split; [reflexivity|].
  destruct (load_user_settings_fills_defaults (june_env quiet) partial_store ∅ eq_refl)
    as (d' & Hrun & _ & Hmiss).
  exists d'. split; [exact Hrun|]. intros k. apply Hmiss, lookup_empty.
Defined.

Lemma bare_zone_settings_well_formed : zones_well_formed bare_zone_settings.
Proof.
  unfold zones_well_formed, bare_zone_settings. rewrite lookup_singleton_eq.
  apply Forall_cons_2; [exact I|apply Forall_nil_2].
Defined.

Lemma save_user_settings_normalises_witness :
  write_fault (june_env quiet) SETTINGS_PATH = false ∧
  zones_well_formed bare_zone_settings ∧
  ∃ d' z',
    result_of (save_user_settings (june_env quiet) (JDict bare_zone_settings) booted)
      = Ret (true, JDict d') ∧
    d' !! "zones" = Some (JList [JDict z']) ∧
    z' !! "pin" = Some (JInt 14).
Proof.
  split; [reflexivity|]. split; [exact bare_zone_settings_well_formed|].
  destruct (save_user_settings_normalises (june_env quiet) booted bare_zone_settings
              eq_refl bare_zone_settings_well_formed)
    as (d' & zs & zs' & Hrun & _ & _ & Hzs & Hz' & Hlen & Hnorm).
  unfold or_default, bare_zone_settings in Hzs. rewrite lookup_singleton_eq in Hzs.
  injection Hzs as <-.
  destruct (Hnorm 0%nat ∅ eq_refl) as (z' & Hz0 & _ & _ & Hpin & _).
  destruct zs' as [|a [|b zs']]; try discriminate Hlen.
  injection Hz0 as ->.
  exists d', z'. rewrite Hrun. split; [reflexivity|]. split; [exact Hz'|].
  rewrite Hpin, lookup_empty. reflexivity.
Defined.

(** ** Zone actuator: hardware failures *)

(** C3 (amended).  When the write that de-asserts the zone's pin fails,
    [stop_zone] returns [False] at once and changes nothing: the zone's entry
    stays in the active-zone table, its timer is left alone and the safety
    relay is not touched. *)
Theorem stop_zone_aborts_on_gpio_failure env st z pin :
  zone_pins st !! z = Some pin →
  gpio_fault env pin = true →
  result_of (stop_zone env z st) = Ret false ∧
  state_of (stop_zone env z st) = st ∧
  active_zones (state_of (stop_zone env z st)) !! z = active_zones st !! z.
Proof.
  intros Hpin Hfault. rewrite (stop_zone_gpio_failure env st z pin Hpin Hfault).
  repeat split.
Qed.

Lemma stop_zone_aborts_on_gpio_failure_witness :
  zone_pins zone0_on !! 0 = Some 14 ∧
  gpio_fault (faulty_env 14) 14 = true ∧
  result_of (stop_zone (faulty_env 14) 0 zone0_on) = Ret false ∧
  active_zones (state_of (stop_zone (faulty_env 14) 0 zone0_on)) !! 0
    = Some (ZoneRec 0 5 0).
Proof.
  split; [exact zone0_on_pin|]. split; [reflexivity|].
  destruct (stop_zone_aborts_on_gpio_failure (faulty_env 14) zone0_on 0 14
              zone0_on_pin eq_refl) as (Hres & _ & Hrec).
  split; [exact Hres|]. rewrite Hrec. exact zone0_on_active.
Defined.

(** C3, as stated, fails: with a broken driver on pin 14, [stop_zone(0)]
    leaves zone 0 in the active-zone table. *)
Lemma stop_zone_record_survives_gpio_failure :
  gpio_fault (faulty_env 14) 14 = true ∧
  zone_pins zone0_on !! 0 = Some 14 ∧
  result_of (stop_zone (faulty_env 14) 0 zone0_on) = Ret false ∧
  is_Some (active_zones (state_of (stop_zone (faulty_env 14) 0 zone0_on)) !! 0).
Proof.
  split; [reflexivity|]. split; [exact zone0_on_pin|].
  rewrite (stop_zone_gpio_failure (faulty_env 14) zone0_on 0 14 zone0_on_pin eq_refl).
  split; [reflexivity|]. cbn [state_of snd]. rewrite zone0_on_active. eauto.
Qed.

(** ** Month conflicts *)

Lemma months_intersect_true a b :
  share_month a b → months_intersect a b = true.
Proof.
  intros (m & Ha & Hb). unfold months_intersect.
  apply existsb_exists. exists m. split.
  - by apply list_elem_of_In.
  - by apply bool_decide_eq_true_2.
Qed.

Lemma find_conflict_found months ps excl pid other :
  (pid, other) ∈ ps →
  is_excluded pid excl = false →
  months_intersect months (months_of other) = true →
  (find_conflict months ps excl).1 = true.
Proof.
  intros Hin Hex Hmon. induction ps as [|[k q] ps IH]; [by apply elem_of_nil in Hin|].
  cbn [find_conflict]. apply elem_of_cons in Hin as [[= <- <-]|Hin].
  - rewrite Hex. unfold months_of in Hmon. by rewrite Hmon.
  - destruct (is_excluded k excl); [by apply IH|].
    destruct (months_intersect months (default [] (p_months q))); [done|by apply IH].
Qed.

Lemma check_program_conflicts_found p ps excl pid other :
  (pid, other) ∈ ps →
  is_excluded pid excl = false →
  share_month (months_of p) (months_of other) →
  (check_program_conflicts p ps excl).1 = true.
Proof.
  intros Hin Hex Hshare. unfold check_program_conflicts.
  pose proof (months_intersect_true _ _ Hshare) as Hmon.
  unfold months_of in Hshare, Hmon.
  destruct (default [] (p_months p)) as [|m ms] eqn:Hm.
  - destruct Hshare as (x & Hx & _). by apply elem_of_nil in Hx.
  - by eapply find_conflict_found.
Qed.

Lemma load_programs_stored env st ps :
  programs_file st = Stored ps →
  load_programs env st = (Ret (ensure_id <$> ps), st).
Proof.
  intros Hf. unfold load_programs, try_except, bind, gets. by rewrite Hf.
Qed.

Lemma ensure_id_months kv : months_of (ensure_id kv).2 = months_of kv.2.
Proof. destruct kv as [k p]. unfold ensure_id. cbn. by destruct (p_id p). Qed.

Lemma elem_of_ensure_id pid other (ps : programs) :
  (pid, other) ∈ ps →
  ∃ other', (pid, other') ∈ ensure_id <$> ps ∧ months_of other' = months_of other.
Proof.
  intros Hin. exists (ensure_id (pid, other)).2. split.
  - replace (pid, (ensure_id (pid, other)).2) with (ensure_id (pid, other)).
    + by apply list_elem_of_fmap_2.
    + unfold ensure_id. cbn. by destruct (p_id other).
  - apply ensure_id_months.
Qed.

Lemma name_taken_named p (ps : programs) :
  is_Some (p_name p) →
  Forall (λ kv, is_Some (p_name kv.2)) ps →
  ∃ b, name_taken p (ensure_id <$> ps) = Ret b.
Proof.
  intros [n Hn] Hall. induction Hall as [|[k q] ps [m Hm] Hall IH]; [by exists false|].
  cbn [fmap list_fmap]. cbn [snd] in Hm.
  assert (∃ q', ensure_id (k, q) = (k, q') ∧ p_name q' = Some m) as (q' & -> & Hq').
  { unfold ensure_id. cbn [fst snd]. destruct (p_id q); eexists; (split; [reflexivity|]); exact Hm. }
  cbn [name_taken]. rewrite Hq', Hn.
  destruct (String.eqb m n); [by exists true|apply IH].
Qed.

(** Month conflicts at the two write paths.  A program whose months meet the
    months of a stored program is refused and nothing changes:
    [save_program_route] answers with [success = false] and leaves the state
    as it was, and the answer is the validation error (HTTP 400) whenever the
    stored programs and the new one carry a name; [update_program] against
    any other stored id returns [False] with the conflict message, its route
    answers 400, and the state is again untouched. *)
Theorem month_conflict_rejected env st ps program_data pid other :
  programs_file st = Stored ps →
  (pid, other) ∈ ps →
  share_month (months_of program_data) (months_of other) →
  (state_of (save_program_route env program_data st) = st ∧
   ∃ r, result_of (save_program_route env program_data st) = Ret r ∧
        r_success r = false ∧
        (all_named program_data ps → r_status r = 400)) ∧
  (∀ program_id, program_id ≠ pid →
     (∃ message,
        update_program env program_id program_data st = (Ret (false, message), st)) ∧
     (p_id program_data = Some program_id →
        update_program_route env program_data st = (Ret (Response 400 false), st))).
Proof.
  intros Hf Hin Hshare.
  destruct (elem_of_ensure_id pid other ps Hin) as (other' & Hin' & Hmon').
  rewrite <- Hmon' in Hshare.
  split.
  - unfold save_program_route, try_except, bind, lift.
    destruct (name_too_long program_data); [by split; [|eexists; split; [|split]]|].
    destruct (list_falsy (p_months program_data)); [by split; [|eexists; split; [|split]]|].
    destruct (list_falsy (p_steps program_data)); [by split; [|eexists; split; [|split]]|].
    rewrite (load_programs_stored env st ps Hf).
    destruct (name_taken program_data (ensure_id <$> ps)) as [[]|e] eqn:Htaken.
    + by split; [|eexists; split; [|split]].
    + pose proof (check_program_conflicts_found program_data (ensure_id <$> ps)
                    None pid other' Hin' eq_refl Hshare) as Hc.
      destruct (check_program_conflicts program_data (ensure_id <$> ps) None)
        as [has_conflict msg]. cbn in Hc. subst has_conflict.
      by split; [|eexists; split; [|split]].
    + split; [done|]. eexists. split; [done|]. split; [done|].
      intros [Hn Hall]. destruct (name_taken_named _ _ Hn Hall) as [b Hb]. congruence.
  - intros program_id Hne.
    assert (Hex : is_excluded pid (Some program_id) = false).
    { unfold is_excluded. apply andb_false_iff. right.
      apply String.eqb_neq. congruence. }
    pose proof (check_program_conflicts_found program_data (ensure_id <$> ps)
                  (Some program_id) pid other' Hin' Hex Hshare) as Hc.
    assert (Hup : ∃ message,
      update_program env program_id program_data st = (Ret (false, message), st)).
    { unfold update_program, bind. rewrite (load_programs_stored env st ps Hf).
      destruct (check_program_conflicts program_data (ensure_id <$> ps)
                  (Some program_id)) as [has_conflict msg]. cbn in Hc.
      subst has_conflict. by eexists. }
    split; [exact Hup|].
    intros Hid. destruct Hup as [message Hup].
    unfold update_program_route, try_except, bind. rewrite Hid.
    destruct (name_too_long program_data); [done|]. by rewrite Hup.
Qed.

Lemma month_conflict_rejected_witness :
  programs_file store_s6 = Stored [("1", program_april_may)] ∧
  ("1", program_april_may) ∈ [("1", program_april_may)] ∧
  share_month (months_of program_may_june) (months_of program_april_may) ∧
  save_program_route (june_env quiet) program_may_june store_s6
    = (Ret (Response 400 false), store_s6).
Proof.
  assert (Hin : ("1", program_april_may) ∈ [("1", program_april_may)])
    by apply list_elem_of_here.
  assert (Hshare : share_month (months_of program_may_june)
                               (months_of program_april_may)).
  { exists "Maggio". split.
    - apply list_elem_of_here.
    - apply list_elem_of_further, list_elem_of_here. }
  split; [reflexivity|]. split; [exact Hin|]. split; [exact Hshare|].
  destruct (month_conflict_rejected (june_env quiet) store_s6 _ program_may_june
              "1" program_april_may eq_refl Hin Hshare)
    as [(Hst & r & Hr & Hsucc & Hstatus) _].
  destruct (save_program_route (june_env quiet) program_may_june store_s6)
    as [o st'].
  cbn [state_of result_of fst snd] in Hst, Hr. subst o st'.
  destruct r as [status success]. cbn [r_success r_status] in Hsucc, Hstatus.
  rewrite Hsucc, Hstatus; [reflexivity|].
  split; [by eexists|].
  apply Forall_cons_2; [by eexists|apply Forall_nil_2].
Defined.

(** C6: the code breaks the claim.  A program posted without a name to an
    empty store is written to [program.json] although the route answers 500,
    because the log message formats [program_data['name']] after the save.
    From then on the duplicate-name loop of [save_program_route] raises
    [KeyError] at [existing_program['name']] before [check_program_conflicts]
    is called: program B, whose months meet those of the stored program, is
    answered with the internal error 500 and not with the validation error
    400 (the store is left as it was).  [check_program_conflicts] itself
    finds the conflict, and the update route, which reads the name with
    [get], answers 400 on the same store. *)
Lemma conflict_answered_with_server_error :
  programs_file no_programs = Stored [] ∧
  result_of (save_program_route (june_env quiet) program_nameless no_programs)
    = Ret (Response 500 false) ∧
  programs_file nameless_store = Stored [("1", with_id "1" program_nameless)] ∧
  months_intersect (months_of program_may_june) (months_of program_nameless)
    = true ∧
  check_program_conflicts program_may_june (stored_programs nameless_store) None
    = (true, conflict_message "") ∧
  result_of (save_program_route (june_env quiet) program_may_june nameless_store)
    = Ret (Response 500 false) ∧
  state_of (save_program_route (june_env quiet) program_may_june nameless_store)
    = nameless_store ∧
  result_of (update_program_route (june_env quiet)
               (with_id "2" program_may_june) nameless_store)
    = Ret (Response 400 false).
Proof. vm_compute. repeat split. Qed.

(** ** Calls that never raise *)

Section ReturnsRules.
Context {A B : Type}.

Lemma returns_ret (a : A) : returns (ret a).
Proof. intros st. by exists a. Qed.

Lemma returns_gets (f : State → A) : returns (gets f).
Proof. intros st. by eexists. Qed.

Lemma returns_modify (f : State → State) : returns (modify f).
Proof. intros st. by eexists. Qed.

Lemma returns_bind (m : M A) (k : A → M B) :
  returns m → (∀ a, returns (k a)) → returns (bind m k).
Proof.
  intros Hm Hk st. destruct (Hm st) as [a Ha]. unfold bind, result_of in *.
  destruct (m st) as [o st']. cbn [fst] in Ha. subst o. apply Hk.
Qed.

Lemma returns_try_except (m : M A) (h : exn → M A) :
  (∀ e, returns (h e)) → returns (try_except m h).
Proof.
  intros Hh st. unfold try_except, result_of.
  destruct (m st) as [[a|e] st']; [by exists a|apply Hh].
Qed.
End ReturnsRules.

Ltac returns_step :=
  match goal with
  | |- returns (bind _ _) => apply returns_bind; [|intros ?]
  | |- returns (ret _) => apply returns_ret
  | |- returns (gets _) => apply returns_gets
  | |- returns (log_event _) => apply returns_modify
  | |- returns (modify _) => apply returns_modify
  | |- returns (try_except _ _) => apply returns_try_except; intros ?
  | |- returns (if ?b then _ else _) => destruct b
  | |- returns (match ?x with _ => _ end) => destruct x
  end.

Ltac returns_auto := repeat returns_step; eauto.

Section NeverRaise.
Variable env : Env.

Lemma save_program_state_returns : returns (save_program_state env).
Proof.
  intros st. rewrite save_program_state_run. by eexists.
Qed.

Lemma stop_zone_returns z : returns (stop_zone env z).
Proof. unfold stop_zone. returns_auto. Qed.

Lemma stop_each_returns zs success : returns (stop_each env zs success).
Proof.
  revert success. induction zs as [|z zs IH]; intros success; cbn [stop_each];
    returns_auto. apply stop_zone_returns.
Qed.

Lemma stop_all_zones_returns : returns (stop_all_zones env).
Proof. unfold stop_all_zones. returns_auto. apply stop_each_returns. Qed.

Lemma stop_program_returns : returns (stop_program env).
Proof.
  unfold stop_program. returns_auto.
  - apply save_program_state_returns.
  - apply stop_all_zones_returns.
Qed.
End NeverRaise.

Section StopProgram.
Variable env : Env.

Lemma stop_program_flag_clear st :
  pm_program_running (state_of (stop_program env st)) = false.
Proof.
  unfold stop_program. msimpl.
  destruct (ps_program_running st); msimpl; [|reflexivity].
  set (st1 := add_log _ _).
  assert (H1 : executor_idle (set_pm_current_program_id None (set_pm_program_running false st1)))
    by reflexivity.
  revert H1. generalize (set_pm_current_program_id None (set_pm_program_running false st1)).
  intros st2 H2.
  assert (Hsave : preserves executor_idle (save_program_state env)).
  { unfold save_program_state, write_file. pres. }
  assert (Hstop : preserves executor_idle (stop_all_zones env)).
  { apply frame_stop_all_zones. intros z. apply frame_stop_zone; by intros. }
  specialize (Hsave st2 H2). unfold state_of in Hsave.
  destruct (save_program_state env st2) as [[[]|e] st3]; cbn [snd] in Hsave; msimpl;
    [|exact Hsave].
  specialize (Hstop st3 Hsave). unfold state_of in Hstop.
  destruct (stop_all_zones env st3) as [[b|e] st4]; exact Hstop.
Qed.

Lemma stop_program_nothing_running st :
  ps_program_running st = false →
  stop_program env st
  = (Ret false,
     add_log LogNothingToStop
       (set_pm_current_program_id (ps_current_program_id st)
          (set_pm_program_running false st))).
Proof.
  intros Hps. unfold stop_program. msimpl. rewrite Hps. reflexivity.
Qed.

Lemma run_steps_flag_clear i n delay step steps st :
  pm_program_running st = false →
  run_steps env i n delay (step :: steps) st = (Ret tt, add_log LogInterrupted st).
Proof. intros Hpm. cbn [run_steps]. msimpl. rewrite Hpm. reflexivity. Qed.

Lemma wait_seconds_flag_clear n st :
  pm_program_running st = false → wait_seconds env n st = (Ret tt, st).
Proof.
  intros Hpm. destruct n; [reflexivity|]. cbn [wait_seconds]. msimpl.
  rewrite Hpm. reflexivity.
Qed.

(** C7 (amended).  [stop_program] never raises and always leaves the flag
    polled by the step loop clear, so that the loop stops at its next test
    (no further zone is started, a wait ends at once) and the executor goes
    on to its cleanup.  When module [program_state] records no running
    program, the call returns [False], logs that nothing was running and
    touches nothing else; a second call behaves in the same way. *)
Theorem stop_program_clears_flag st :
  (∃ stopped, result_of (stop_program env st) = Ret stopped) ∧
  pm_program_running (state_of (stop_program env st)) = false ∧
  (∀ i n delay step steps,
     run_steps env i n delay (step :: steps) (state_of (stop_program env st))
     = (Ret tt, add_log LogInterrupted (state_of (stop_program env st)))) ∧
  (∀ n, wait_seconds env n (state_of (stop_program env st))
        = (Ret tt, state_of (stop_program env st))) ∧
  (ps_program_running st = false →
     stop_program env st
     = (Ret false,
        add_log LogNothingToStop
          (set_pm_current_program_id (ps_current_program_id st)
             (set_pm_program_running false st))) ∧
     stop_program env (state_of (stop_program env st))
     = (Ret false, add_log LogNothingToStop (state_of (stop_program env st)))).
Proof.
  pose proof (stop_program_flag_clear st) as Hclear.
  split; [apply stop_program_returns|]. split; [exact Hclear|].
  split; [intros; by apply run_steps_flag_clear|].
  split; [intros; by apply wait_seconds_flag_clear|].
  intros Hps. split; [by apply stop_program_nothing_running|].
  rewrite (stop_program_nothing_running st Hps). cbn [state_of snd].
  rewrite stop_program_nothing_running by exact Hps. reflexivity.
Qed.
End StopProgram.

Lemma stop_program_clears_flag_witness :
  ps_program_running booted = false ∧
  stop_program (june_env quiet) booted
    = (Ret false,
       add_log LogNothingToStop
         (set_pm_current_program_id (ps_current_program_id booted)
            (set_pm_program_running false booted))).
Proof.
  split; [reflexivity|].
  destruct (stop_program_clears_flag (june_env quiet) booted)
    as (_ & _ & _ & _ & Hidle).
  exact (proj1 (Hidle eq_refl)).
Defined.

(** C7, as stated, fails: with nothing running, [stop_program] returns [False]
    and its route answers [success = false]. *)
Lemma stop_program_reports_failure_when_idle :
  pm_program_running booted = false ∧
  result_of (stop_program (june_env quiet) booted) = Ret false ∧
  result_of (stop_program_route (june_env quiet) booted)
    = Ret (Response 200 false).
Proof. vm_compute. repeat split. Qed.

(** ** Hoare rules *)

Section HoareRules.
Context {A B : Type}.

Lemma hoare_conseq (P P' : State → Prop) (m : M A)
    (Q Q' : outcome A → State → Prop) :
  hoare P m Q → (∀ st, P' st → P st) → (∀ o st, Q o st → Q' o st) →
  hoare P' m Q'.
Proof. intros Hm HP HQ st HP'. apply HQ, Hm, HP, HP'. Qed.

Lemma hoare_ret (P : State → Prop) (a : A) (Q : outcome A → State → Prop) :
  (∀ st, P st → Q (Ret a) st) → hoare P (ret a) Q.
Proof. intros H st HP. apply H, HP. Qed.

Lemma hoare_preserves (I : State → Prop) (m : M A) :
  preserves I m → hoare I m (λ _, I).
Proof. intros H st HI. apply H, HI. Qed.

Lemma hoare_bind (P : State → Prop) (m : M A) (k : A → M B)
    (R : outcome A → State → Prop) (Q : outcome B → State → Prop) :
  hoare P m R →
  (∀ a, hoare (R (Ret a)) (k a) Q) →
  (∀ e st, R (Raise e) st → Q (Raise e) st) →
  hoare P (bind m k) Q.
Proof.
  intros Hm Hk He st HP. specialize (Hm st HP).
  unfold bind, result_of, state_of in *.
  destruct (m st) as [[a|e] st']; cbn [fst snd] in *; [apply Hk, Hm|apply He, Hm].
Qed.

Lemma hoare_try_except (P : State → Prop) (m : M A) (h : exn → M A)
    (R Q : outcome A → State → Prop) :
  hoare P m R →
  (∀ a st, R (Ret a) st → Q (Ret a) st) →
  (∀ e, hoare (R (Raise e)) (h e) Q) →
  hoare P (try_except m h) Q.
Proof.
  intros Hm Hr Hh st HP. specialize (Hm st HP).
  unfold try_except, result_of, state_of in *.
  destruct (m st) as [[a|e] st']; cbn [fst snd] in *; [apply Hr, Hm|apply Hh, Hm].
Qed.

Lemma hoare_finally (P : State → Prop) (m : M A) (c : M unit)
    (R Q : outcome A → State → Prop) :
  hoare P m R →
  (∀ o, hoare (R o) c (λ oc st, match oc with
                                 | Ret _ => Q o st
                                 | Raise e => Q (Raise e) st
                                 end)) →
  hoare P (finally m c) Q.
Proof.
  intros Hm Hc st HP. specialize (Hm st HP).
  unfold finally, result_of, state_of in *.
  destruct (m st) as [o st']. cbn [fst snd] in *.
  specialize (Hc o st' Hm). cbn [fst snd] in *.
  destruct (c st') as [[u|e] st'']; exact Hc.
Qed.
End HoareRules.


(** ** The executor and the last-run date *)

Lemma hoare_returns_preserves {A} (I : State → Prop) (m : M A) :
  returns m → preserves I m →
  hoare I m (λ o st, (∃ a, o = Ret a) ∧ I st).
Proof. intros Hr Hp st HI. split; [apply Hr|apply Hp, HI]. Qed.

Lemma execute_cleanup_returns env : returns (execute_cleanup env).
Proof.
  unfold execute_cleanup. returns_auto.
  - apply save_program_state_returns.
  - apply stop_all_zones_returns.
Qed.

Section LastRunDate.
Variable env : Env.
Variable ps : programs.
Variable id : string.
Variable q : program.
Hypothesis write_ok : write_fault env PROGRAM_FILE = false.
Hypothesis stored_q : alist_lookup id (ensure_id <$> ps) = Some q.

Let not_updated (st : State) : Prop := programs_file st = Stored ps.

Let updated (st : State) : Prop :=
  programs_file st
  = Stored (alist_insert id (with_last_run_date (local_date env (clock st)) q)
              (ensure_id <$> ps)).

Lemma not_updated_start_zone z d : preserves not_updated (start_zone env z d).
Proof. apply frame_start_zone; intros; assumption. Qed.

Lemma not_updated_stop_zone z : preserves not_updated (stop_zone env z).
Proof. apply frame_stop_zone; intros; assumption. Qed.

Lemma not_updated_load_settings : preserves not_updated (load_user_settings env).
Proof. apply frame_load_user_settings; intros; assumption. Qed.

Lemma not_updated_save_state : preserves not_updated (save_program_state env).
Proof. unfold save_program_state, write_file. pres. Qed.

Lemma not_updated_load_state : preserves not_updated (load_program_state env).
Proof. unfold load_program_state. pres; apply not_updated_save_state. Qed.

Lemma not_updated_stop_all : preserves not_updated (stop_all_zones env).
Proof. apply frame_stop_all_zones, not_updated_stop_zone. Qed.

Lemma not_updated_sleep : preserves not_updated (asyncio_sleep1 env).
Proof.
  apply frame_asyncio_sleep1;
    auto using not_updated_start_zone, not_updated_stop_zone,
      not_updated_load_settings, not_updated_save_state, not_updated_load_state.
Qed.

Lemma not_updated_run_steps i n delay steps :
  preserves not_updated (run_steps env i n delay steps).
Proof.
  apply frame_run_steps;
    auto using not_updated_start_zone, not_updated_stop_zone,
      not_updated_load_settings, not_updated_save_state, not_updated_load_state.
Qed.

Lemma updated_stop_zone z : preserves updated (stop_zone env z).
Proof. apply frame_stop_zone; intros; assumption. Qed.

Lemma updated_save_state : preserves updated (save_program_state env).
Proof. unfold save_program_state, write_file. pres. Qed.

Lemma updated_stop_all : preserves updated (stop_all_zones env).
Proof. apply frame_stop_all_zones, updated_stop_zone. Qed.

Lemma update_last_run_date_updates :
  hoare not_updated (update_last_run_date env id)
        (λ o st, o = Ret tt ∧ updated st).
Proof.
  intros st Hst. unfold update_last_run_date. msimpl.
  rewrite (load_programs_stored env st ps Hst). rewrite stored_q.
  unfold save_programs, write_file. rewrite write_ok. msimpl.
  split; reflexivity.
Qed.


Lemma cleanup_not_updated : preserves not_updated (execute_cleanup env).
Proof.
  unfold execute_cleanup. pres; auto using not_updated_save_state, not_updated_stop_all.
Qed.

Lemma cleanup_updated : preserves updated (execute_cleanup env).
Proof.
  unfold execute_cleanup. pres; auto using updated_save_state, updated_stop_all.
Qed.

Lemma execute_program_last_run_date p manual :
  default "0" (p_id p) = id →
  hoare not_updated (execute_program env p manual)
        (λ o st, match o with
                 | Ret true => updated st
                 | _ => not_updated st
                 end).
Proof.
  intros Hid. unfold execute_program. rewrite Hid.
  set (Q := λ (o : outcome bool) (st : State),
              match o with Ret true => updated st | _ => not_updated st end).
  assert (Hraise : ∀ e st, not_updated st → Q (Raise e) st) by (intros; assumption).
  eapply hoare_bind; [apply hoare_preserves; pres|intros []|exact Hraise].
  eapply hoare_bind; [apply hoare_preserves; pres|intros running|exact Hraise].
  destruct running.
  { eapply hoare_bind; [apply hoare_preserves; pres|intros []|exact Hraise].
    apply hoare_ret. intros; assumption. }
  eapply hoare_bind; [apply hoare_preserves|intros []|exact Hraise].
  { unfold get_active_zones_count. pres; auto using not_updated_stop_all, not_updated_sleep. }
  eapply hoare_bind; [apply hoare_preserves, not_updated_stop_all|intros ?|exact Hraise].
  eapply hoare_bind; [apply hoare_preserves; pres|intros []|exact Hraise].
  eapply hoare_bind; [apply hoare_preserves; pres|intros []|exact Hraise].
  eapply hoare_bind; [apply hoare_preserves, not_updated_save_state|intros []|exact Hraise].
  eapply hoare_bind; [apply hoare_preserves; pres|intros []|exact Hraise].
  eapply hoare_bind; [apply hoare_preserves, not_updated_load_settings|intros settings|exact Hraise].
  eapply hoare_finally with (R := Q).
  - eapply hoare_try_except with
      (R := λ o st, match o with
                    | Ret true => updated st
                    | Ret false => False
                    | Raise _ => not_updated st
                    end).
    + eapply hoare_bind; [apply hoare_preserves, not_updated_run_steps|intros []|
                          intros; assumption].
      eapply hoare_bind; [apply update_last_run_date_updates|intros []|].
      * eapply hoare_bind with (R := λ o st, o = Ret tt ∧ updated st).
        -- intros st [_ Hst]. split; [reflexivity|exact Hst].
        -- intros []. apply hoare_ret. intros st [_ Hst]. exact Hst.
        -- intros e st [Hne _]. discriminate.
      * intros e st [Hne _]. discriminate.
    + intros [] st Hst; [exact Hst|contradiction].
    + intros e. eapply hoare_bind; [apply hoare_preserves; pres|intros []|exact Hraise].
      apply hoare_ret. intros; assumption.
  - intros o.
    assert (Hcases : (o = Ret true ∧ Q o = updated) ∨ (Q o = not_updated ∧ o ≠ Ret true)).
    { destruct o as [[]|]; [left|right|right]; split; try reflexivity; discriminate. }
    destruct Hcases as [[-> HQ]|[HQ Hne]].
    + intros st Hst.
      destruct (hoare_returns_preserves updated (execute_cleanup env) (execute_cleanup_returns env)
                  cleanup_updated st Hst) as [[u Hu] Hst'].
      rewrite Hu. exact Hst'.
    + intros st Hst. rewrite HQ in Hst.
      destruct (hoare_returns_preserves not_updated (execute_cleanup env) (execute_cleanup_returns env)
                  cleanup_not_updated st Hst) as [[u Hu] Hst'].
      rewrite Hu, HQ. exact Hst'.
Qed.
End LastRunDate.

(** What [execute_program] does to [last_run_date].  With the program stored
    and [program.json] writable, a call that returns [True] has set the
    program's [last_run_date] to the local date of the moment the step loop
    ended; a call that returns [False] or raises leaves the stored programs
    as they were. *)
Theorem last_run_date_set_whenever_run_returns env p manual st ps q :
  programs_file st = Stored ps →
  write_fault env PROGRAM_FILE = false →
  alist_lookup (default "0" (p_id p)) (ensure_id <$> ps) = Some q →
  (result_of (execute_program env p manual st) = Ret true →
   programs_file (state_of (execute_program env p manual st))
   = Stored (alist_insert (default "0" (p_id p))
               (with_last_run_date
                  (local_date env (clock (state_of (execute_program env p manual st)))) q)
               (ensure_id <$> ps))) ∧
  (result_of (execute_program env p manual st) ≠ Ret true →
   programs_file (state_of (execute_program env p manual st)) = Stored ps).
Proof.
  intros Hst Hw Hq.
  pose proof (execute_program_last_run_date env ps _ q Hw Hq p manual eq_refl st Hst) as H.
  cbv beta in H.
  destruct (result_of (execute_program env p manual st)) as [[]|e]; split; intros Hres;
    try exact H; try discriminate; try (by destruct Hres).
Qed.


Section SchedulerNeverBusy.
Variable L : list log_entry → Prop.
Hypothesis L_add : ∀ e l, e ≠ LogSchedulerBusy → L l → L (l ++ [e]).

(** Module [program_state] is idle and the log satisfies [L]. *)
Let never_skipped (st : State) : Prop :=
  program_state_idle st ∧ L (log st).

Variable env : Env.

Lemma not_busy_add_log e st :
  e ≠ LogSchedulerBusy → never_skipped st → never_skipped (add_log e st).
Proof.
  intros He [Hidle Hlog]. split; [exact Hidle|].
  cbn [log add_log]. by apply L_add.
Qed.

Lemma quiet_add_log e st :
  tick_event e = false → never_skipped st → never_skipped (add_log e st).
Proof. intros He. apply not_busy_add_log. by destruct e. Qed.

Lemma started_add_log name id st :
  never_skipped st → never_skipped (add_log (LogProgramStart name id) st).
Proof. by apply not_busy_add_log. Qed.

Lemma scheduled_add_log name st :
  never_skipped st → never_skipped (add_log (LogScheduledStart name) st).
Proof. by apply not_busy_add_log. Qed.

Lemma never_skipped_save_state : preserves never_skipped (save_program_state env).
Proof.
  intros st [[Hps Hfile] Hlog]. rewrite save_program_state_run.
  cbn [state_of snd]. unfold failed_write.
  destruct (write_fault env PROGRAM_STATE_FILE);
    [destruct (write_torn env PROGRAM_STATE_FILE)|]; msimpl.
  - by repeat split.
  - by repeat split.
  - split; [split|]; [exact Hps| |exact Hlog].
    unfold state_file_idle. msimpl. rewrite Hps. discriminate.
Qed.

Lemma never_skipped_load_state : preserves never_skipped (load_program_state env).
Proof.
  intros st [[Hps Hfile] Hlog]. unfold load_program_state. msimpl.
  unfold state_file_idle in Hfile.
  destruct (state_file st) as [| |[doc|]] eqn:Hf; msimpl.
  - apply never_skipped_save_state. repeat split; try done.
    unfold state_file_idle. msimpl. by rewrite Hf.
  - apply never_skipped_save_state. repeat split; try done.
    unfold state_file_idle. msimpl. by rewrite Hf.
  - repeat split; try done.
    + msimpl. by destruct (sd_program_running doc) as [[]|].
    + unfold state_file_idle. msimpl. by rewrite Hf.
  - repeat split; try done. unfold state_file_idle. by rewrite Hf.
Qed.

Lemma never_skipped_start_zone z d : preserves never_skipped (start_zone env z d).
Proof. apply frame_start_zone; intros; assumption. Qed.

Lemma never_skipped_stop_zone z : preserves never_skipped (stop_zone env z).
Proof. apply frame_stop_zone; intros; assumption. Qed.

Lemma never_skipped_load_settings : preserves never_skipped (load_user_settings env).
Proof. apply frame_load_user_settings; intros; assumption. Qed.

Lemma never_skipped_execute_program p manual :
  preserves never_skipped (execute_program env p manual).
Proof.
  apply frame_execute_program;
    auto using never_skipped_start_zone, never_skipped_stop_zone,
      never_skipped_load_settings, never_skipped_save_state,
      never_skipped_load_state, quiet_add_log, started_add_log.
Qed.

Lemma never_skipped_update_last_run_date id :
  preserves never_skipped (update_last_run_date env id).
Proof.
  apply frame_update_last_run_date; auto using quiet_add_log.
Qed.

Lemma executor_idle_update_last_run_date id :
  preserves executor_idle (update_last_run_date env id).
Proof. apply frame_update_last_run_date; intros; assumption. Qed.

Lemma executor_idle_cleanup :
  hoare (λ _, True) (execute_cleanup env)
        (λ o st, (∃ u, o = Ret u) ∧ executor_idle st).
Proof.
  intros st _. split; [apply execute_cleanup_returns|].
  unfold execute_cleanup. msimpl.
  assert (Hsave : preserves executor_idle (save_program_state env)).
  { unfold save_program_state, write_file. pres. }
  assert (Hstop : preserves executor_idle (stop_all_zones env)).
  { apply frame_stop_all_zones. intros z. apply frame_stop_zone; intros; assumption. }
  set (st1 := set_pm_current_program_id None (set_pm_program_running false st)).
  assert (H1 : executor_idle st1) by reflexivity.
  specialize (Hsave st1 H1). unfold state_of in Hsave.
  destruct (save_program_state env st1) as [[[]|e] st2]; cbn [snd] in Hsave; msimpl;
    [|exact Hsave].
  specialize (Hstop st2 Hsave). unfold state_of in Hstop.
  destruct (stop_all_zones env st2) as [[b|e] st3]; exact Hstop.
Qed.

Lemma hoare_trivial {A} (P : State → Prop) (m : M A) : hoare P m (λ _ _, True).
Proof. intros st _. exact I. Qed.

(** When module [program_state] records no running program, a call of
    [execute_program] that returns leaves the executor's flag clear. *)
Lemma execute_program_ends_idle p manual :
  hoare (λ st, ps_program_running st = false) (execute_program env p manual)
        (λ o st, match o with
                 | Ret _ => executor_idle st
                 | Raise _ => True
                 end).
Proof.
  unfold execute_program.
  eapply hoare_bind with (R := λ _, executor_idle).
  { intros st Hps. exact Hps. }
  2:{ intros; exact I. }
  intros [].
  eapply hoare_bind with (R := λ _, executor_idle);
    [apply hoare_preserves; pres| |intros; exact I].
  intros running.
  destruct running.
  { eapply hoare_bind with (R := λ _, executor_idle);
      [apply hoare_preserves; pres|intros []|intros; exact I].
    apply hoare_ret. intros; assumption. }
  eapply hoare_bind; [apply hoare_trivial|intros []|intros; exact I].
  eapply hoare_bind; [apply hoare_trivial|intros ?|intros; exact I].
  eapply hoare_bind; [apply hoare_trivial|intros []|intros; exact I].
  eapply hoare_bind; [apply hoare_trivial|intros []|intros; exact I].
  eapply hoare_bind; [apply hoare_trivial|intros []|intros; exact I].
  eapply hoare_bind; [apply hoare_trivial|intros []|intros; exact I].
  eapply hoare_bind; [apply hoare_trivial|intros ?|intros; exact I].
  eapply hoare_finally; [apply hoare_trivial|].
  intros o st _.
  destruct (executor_idle_cleanup st Logic.I) as [[u Hu] Hidle].
  rewrite Hu. by destruct o.
Qed.

Lemma scan_programs_never_busy t ps :
  hoare (λ st, never_skipped st ∧ executor_idle st) (scan_programs env t ps)
        (λ _, never_skipped).
Proof.
  induction ps as [|[pid p] ps IH]; intros st [HI Hidle]; [exact HI|].
  cbn [scan_programs]. msimpl.
  destruct (_ && _).
  2:{ msimpl. apply IH. by split. }
  msimpl. unfold executor_idle in Hidle. rewrite Hidle. msimpl.
  set (st1 := add_log _ st).
  assert (HI1 : never_skipped st1) by (apply not_busy_add_log; [discriminate|exact HI]).
  pose proof (never_skipped_execute_program p false st1 HI1) as HI2.
  pose proof (execute_program_ends_idle p false st1 (proj1 (proj1 HI1))) as Hidle2.
  unfold state_of, result_of in HI2, Hidle2.
  destruct (execute_program env p false st1) as [[success|e] st2];
    cbn [fst snd] in HI2, Hidle2; msimpl; [|exact HI2].
  destruct success; msimpl.
  - pose proof (never_skipped_update_last_run_date pid st2 HI2) as HI3.
    pose proof (executor_idle_update_last_run_date pid st2 Hidle2) as Hidle3.
    unfold state_of in HI3, Hidle3.
    destruct (update_last_run_date env pid st2) as [[[]|e] st3];
      cbn [snd] in HI3, Hidle3; msimpl; [|exact HI3].
    apply IH. by split.
  - apply IH. by split.
Qed.

Lemma load_programs_frame st :
  never_skipped st → executor_idle st →
  never_skipped (state_of (load_programs env st)) ∧
  executor_idle (state_of (load_programs env st)).
Proof.
  intros HI Hidle. split.
  - apply (frame_load_programs env never_skipped); [|exact HI].
    intros; assumption.
  - apply (frame_load_programs env executor_idle); [|exact Hidle].
    intros; assumption.
Qed.

Lemma check_programs_never_busy :
  hoare (λ st, never_skipped st ∧ executor_idle st) (check_programs env)
        (λ _, never_skipped).
Proof.
  intros st [HI Hpm].
  unfold check_programs. msimpl.
  pose proof (never_skipped_load_settings st HI) as HI1.
  assert (Hpm1 : executor_idle (state_of (load_user_settings env st))).
  { apply (frame_load_user_settings env executor_idle); [|exact Hpm].
    intros; assumption. }
  unfold state_of in HI1, Hpm1.
  destruct (load_user_settings env st) as [[settings|e] st1];
    cbn [snd] in HI1, Hpm1; msimpl; [|apply HI1].
  destruct (negb _); msimpl; [apply HI1|].
  destruct (load_programs_frame st1 HI1 Hpm1) as [HI2 Hpm2].
  unfold state_of in HI2, Hpm2.
  destruct (load_programs env st1) as [[ps|e] st2];
    cbn [snd] in HI2, Hpm2; msimpl; [|apply HI2].
  destruct ps as [|kv ps]; msimpl; [apply HI2|].
  apply (scan_programs_never_busy _ (kv :: ps) st2). by split.
Qed.

Section AnyEntry.
Hypothesis L_busy : ∀ l, L l → L (l ++ [LogSchedulerBusy]).

Lemma never_skipped_call c st :
  never_skipped st → never_skipped (run_call env c st).
Proof.
  assert (Hstart := never_skipped_start_zone).
  assert (Hstop := never_skipped_stop_zone).
  assert (Hls := never_skipped_load_settings).
  assert (Hlp := never_skipped_load_state).
  assert (Hsp := never_skipped_save_state).
  assert (Hlg := quiet_add_log).
  assert (Hst := started_add_log).
  assert (Hsc := scheduled_add_log).
  assert (Hbusy : ∀ st1, never_skipped st1 → never_skipped (add_log LogSchedulerBusy st1)).
  { intros st1 [Hidle Hlog]. split; [exact Hidle|]. by apply L_busy. }
  intros HI. destruct c; cbn [run_call].
  - by apply Hstart.
  - by apply Hstop.
  - by apply (frame_stop_all_zones env never_skipped).
  - by apply (frame_zone_timer_wakes env never_skipped).
  - by apply (frame_route env never_skipped).
  - by apply (frame_asyncio_sleep1 env never_skipped).
  - by apply (frame_stop_program env never_skipped).
  - by apply never_skipped_execute_program.
  - by apply (frame_check_programs env never_skipped).
Qed.
End AnyEntry.
End SchedulerNeverBusy.

(** Whatever the kernel is asked to do, module [program_state] never comes to
    hold a set flag: the busy test of [start_zone], which reads that flag, is
    never taken. *)
Lemma program_state_stays_idle env calls st :
  program_state_idle st → program_state_idle (run_calls env calls st).
Proof.
  revert st. induction calls as [|c calls IH]; intros st Hidle; [exact Hidle|].
  cbn [run_calls foldl]. apply IH.
  assert (H : program_state_idle st ∧ True) by (by split).
  exact (proj1 (never_skipped_call (λ _, True) (λ _ _ _ _, I) env (λ _ _, I) c st H)).
Qed.



Lemma program_A_run_returns :
  result_of (execute_program (june_env quiet) program_A false booted) = Ret true.
Proof. vm_compute. reflexivity. Defined.

Lemma last_run_date_set_whenever_run_returns_witness :
  programs_file booted = Stored [("1", program_A)] ∧
  write_fault (june_env quiet) PROGRAM_FILE = false ∧
  alist_lookup "1" (ensure_id <$> [("1", program_A)]) = Some program_A ∧
  programs_file (state_of (execute_program (june_env quiet) program_A false booted))
  = Stored [("1", with_last_run_date "2024-06-15" program_A)].
Proof.
  split; [reflexivity|]. split; [reflexivity|]. split; [reflexivity|].
  exact (proj1 (last_run_date_set_whenever_run_returns (june_env quiet) program_A
                  false booted [("1", program_A)] program_A eq_refl eq_refl eq_refl)
               program_A_run_returns).
Defined.

(** C4: the code breaks the claim.  In scenario S4 a stop request arrives
    thirty seconds into the first step of program A.  The step loop sees the
    flag cleared and leaves by [break]; the statements after the loop run all
    the same: [update_last_run_date] stamps the program, which had never run,
    with today's date, the completion message is logged and the call returns
    [True], which its docstring reserves to a run completed with success.
    The second step was never started. *)
Lemma cancelled_run_sets_last_run_date :
  programs_file booted = Stored [("1", program_A)] ∧
  p_last_run_date program_A = None ∧
  result_of (execute_program (june_env stop_at_30) program_A false booted)
    = Ret true ∧
  log (state_of (execute_program (june_env stop_at_30) program_A false booted))
    = [LogProgramStart "A" "1"; LogNothingToStop;
       LogLastRun "1" "2024-06-15"; LogProgramCompleted "A"] ∧
  clock (state_of (execute_program (june_env stop_at_30) program_A false booted))
    = 30 ∧
  tasks (state_of (execute_program (june_env stop_at_30) program_A false booted))
    = [Timer 0 60 Cancelled] ∧
  programs_file
    (state_of (execute_program (june_env stop_at_30) program_A false booted))
  = Stored [("1", with_last_run_date "2024-06-15" program_A)].
Proof. vm_compute. repeat split. Qed.

(** ** Manual commands during a run *)

(** C1 fails on the code.  The executor sets the variable [program_running] of
    module [program_manager]; [start_zone] and its route test the variables of
    modules [program_state] and [web_server], which stay [False].  With the
    executor's flag set, [start_zone(2, 5)] and its route succeed and zone 2
    is energised; a request that arrives ten seconds into a run of program A
    is answered with success before the run completes. *)
Theorem start_zone_accepted_while_program_runs :
  pm_program_running flag_set = true ∧
  result_of (start_zone (june_env quiet) 2 5 flag_set) = Ret true ∧
  active_zones (state_of (start_zone (june_env quiet) 2 5 flag_set)) !! 2
    = Some (ZoneRec 0 5 0) ∧
  result_of (handle_start_zone (june_env quiet) 2 5 flag_set)
    = Ret (Response 200 true) ∧
  log (state_of (execute_program (june_env knock_at_10) program_A false booted))
    = [LogProgramStart "A" "1"; LogRouteStartZone 2 5;
       LogLastRun "1" "2024-06-15"; LogProgramCompleted "A"] ∧
  replies (state_of (execute_program (june_env knock_at_10) program_A false booted))
    = [(ExtStartZone 2 5, Response 200 true)].
Proof. vm_compute. repeat split. Qed.

(** * Further properties of the code *)

(** * The program store *)

(** ** Dictionary laws on item lists *)

Lemma alist_lookup_insert_eq {V} k (v : V) l :
  alist_lookup k (alist_insert k v l) = Some v.
Proof.
  induction l as [|[k' v'] l IH]; cbn.
  - by rewrite String.eqb_refl.
  - destruct (String.eqb k' k) eqn:Hk; cbn.
    + by rewrite String.eqb_refl.
    + by rewrite Hk.
Qed.

Lemma alist_lookup_insert_ne {V} k k' (v : V) l :
  k ≠ k' → alist_lookup k' (alist_insert k v l) = alist_lookup k' l.
Proof.
  intros Hne. induction l as [|[k0 v0] l IH]; cbn.
  - by apply String.eqb_neq in Hne as ->.
  - destruct (String.eqb k0 k) eqn:Hk; cbn.
    + apply String.eqb_eq in Hk as ->.
      by apply String.eqb_neq in Hne as ->.
    + by rewrite IH.
Qed.

Lemma alist_lookup_delete_eq {V} k (l : list (string * V)) :
  alist_lookup k (alist_delete k l) = None.
Proof.
  unfold alist_delete. induction l as [|[k' v'] l IH]; cbn; [done|].
  destruct (String.eqb k' k) eqn:Hk; cbn; [done|]. by rewrite Hk.
Qed.

Lemma alist_lookup_delete_ne {V} k k' (l : list (string * V)) :
  k ≠ k' → alist_lookup k' (alist_delete k l) = alist_lookup k' l.
Proof.
  intros Hne. unfold alist_delete. induction l as [|[k0 v0] l IH]; cbn; [done|].
  destruct (String.eqb k0 k) eqn:Hk; cbn.
  - apply String.eqb_eq in Hk as ->.
    by apply String.eqb_neq in Hne as ->.
  - by rewrite IH.
Qed.

Lemma alist_insert_fresh {V} k (v : V) l :
  alist_lookup k l = None → alist_insert k v l = l ++ [(k, v)].
Proof.
  induction l as [|[k' v'] l IH]; cbn; [done|].
  destruct (String.eqb k' k); [done|]. intros Hl. by rewrite IH.
Qed.

Lemma alist_insert_length {V} k (v : V) l :
  is_Some (alist_lookup k l) → length (alist_insert k v l) = length l.
Proof.
  induction l as [|[k' v'] l IH]; cbn; [by intros [? [=]]|].
  destruct (String.eqb k' k); cbn; [done|]. intros Hl. by rewrite IH.
Qed.

(** ** What the store functions leave alone *)

(** [stop_program] does not write [program.json]. *)
Lemma stop_program_programs_file env st :
  programs_file (state_of (stop_program env st)) = programs_file st.
Proof.
  apply (frame_stop_program env (λ s, programs_file s = programs_file st));
    try done.
  - intros z. apply frame_stop_zone; done.
  - unfold save_program_state, write_file. pres.
Qed.

Lemma load_programs_unreadable env st :
  programs_file st ≠ Missing → (∀ ps, programs_file st ≠ Stored ps) →
  load_programs env st = (Ret [], st).
Proof.
  intros Hm Hs. unfold load_programs. msimpl.
  destruct (programs_file st) as [| |ps]; [done|done|]. by destruct (Hs ps).
Qed.

Lemma load_programs_missing env st :
  programs_file st = Missing →
  result_of (load_programs env st) = Ret [].
Proof.
  intros Hm. unfold load_programs, try_except, bind, gets. rewrite Hm.
  cbn [raise]. rewrite save_programs_run.
  by destruct (write_fault env PROGRAM_FILE).
Qed.

(** The list that [load_programs] returns when it finds no key [k] in it comes
    from a stored file, or is empty. *)
Lemma load_programs_found env st ps0 st0 k q :
  load_programs env st = (Ret ps0, st0) →
  alist_lookup k ps0 = Some q →
  ∃ ps, programs_file st = Stored ps ∧ ps0 = ensure_id <$> ps ∧ st0 = st.
Proof.
  intros Hload Hk. destruct (programs_file st) as [| |ps] eqn:Hf.
  - pose proof (load_programs_missing env st Hf) as Hr.
    rewrite Hload in Hr. injection Hr as ->. discriminate.
  - rewrite load_programs_unreadable in Hload by (rewrite Hf; done).
    injection Hload as <- <-. discriminate.
  - rewrite (load_programs_stored env st ps Hf) in Hload.
    injection Hload as <- <-. by exists ps.
Qed.

Lemma save_programs_result env ps st b st' :
  save_programs env ps st = (Ret b, st') →
  if b then st' = set_programs_file (Stored ps) st
  else write_fault env PROGRAM_FILE = true ∧
       st' = failed_write env PROGRAM_FILE set_programs_file st.
Proof.
  rewrite save_programs_run.
  destruct (write_fault env PROGRAM_FILE); intros [= <- <-]; by try split.
Qed.

(** ** Running monadic code step by step *)

Lemma bind_gets {A B} (f : State → A) (k : A → M B) st :
  bind (gets f) k st = k (f st) st.
Proof. reflexivity. Qed.

Lemma bind_run {A B} (m : M A) (k : A → M B) st a st1 :
  m st = (Ret a, st1) → bind m k st = k a st1.
Proof. intros Hm. unfold bind. by rewrite Hm. Qed.

Lemma bind_raise {A B} (m : M A) (k : A → M B) st e st1 :
  m st = (Raise e, st1) → bind m k st = (Raise e, st1).
Proof. intros Hm. unfold bind. by rewrite Hm. Qed.

Lemma run_result {A} (m : M A) st a :
  result_of (m st) = Ret a → m st = (Ret a, state_of (m st)).
Proof.
  unfold result_of, state_of. destruct (m st) as [o s]. cbn. by intros ->.
Qed.

Lemma bind_modify {B} (f : State → State) (k : unit → M B) st :
  bind (modify f) k st = k tt (f st).
Proof. reflexivity. Qed.

Lemma run_returns_preserves {A} (I : State → Prop) (m : M A) st :
  returns m → preserves I m → I st →
  ∃ a st', m st = (Ret a, st') ∧ I st'.
Proof.
  intros Hr Hp HI. destruct (Hr st) as [a Ha]. specialize (Hp st HI).
  unfold result_of, state_of in *. destruct (m st) as [o st']. cbn in *.
  subst o. by exists a, st'.
Qed.

Lemma bind_inv {A B} (m : M A) (k : A → M B) st b st' :
  bind m k st = (Ret b, st') →
  ∃ a st1, m st = (Ret a, st1) ∧ k a st1 = (Ret b, st').
Proof.
  unfold bind. destruct (m st) as [[a|e] st1]; [|discriminate]. by exists a, st1.
Qed.

Lemma try_except_inv {A} (m : M A) (h : exn → M A) st a st' :
  try_except m h st = (Ret a, st') →
  m st = (Ret a, st') ∨ ∃ e st1, m st = (Raise e, st1) ∧ h e st1 = (Ret a, st').
Proof.
  unfold try_except. destruct (m st) as [[a'|e] st1]; [by left|].
  right. by exists e, st1.
Qed.

(** ** [update_program] and [delete_program] *)

(** The block [if program_running and current_program_id == program_id:
    stop_program()]. *)
Lemma maybe_stop_program env (b : bool) st :
  ∃ st1, (if b then stop_program env;; ret tt else ret tt) st = (Ret tt, st1) ∧
         programs_file st1 = programs_file st.
Proof.
  destruct b; [|by exists st].
  pose proof (stop_program_programs_file env st) as Hp.
  destruct (stop_program_returns env st) as [b Hb].
  unfold state_of in Hp. unfold result_of in Hb. unfold bind.
  destruct (stop_program env st) as [o s1]. cbn in *. subst o. by exists s1.
Qed.

Lemma update_program_success env id p st msg st' :
  update_program env id p st = (Ret (true, msg), st') →
  ∃ ps, programs_file st = Stored ps ∧
        is_Some (alist_lookup id (ensure_id <$> ps)) ∧
        (check_program_conflicts p (ensure_id <$> ps) (Some id)).1 = false ∧
        programs_file st' = Stored (alist_insert id p (ensure_id <$> ps)) ∧
        msg = "".
Proof.
  unfold update_program. unfold bind at 1.
  destruct (load_programs env st) as [[ps0|e] st0] eqn:Hload; [|discriminate].
  destruct (check_program_conflicts p ps0 (Some id)) as [[] cm] eqn:Hc;
    [discriminate|].
  destruct (alist_lookup id ps0) as [q|] eqn:Hq; [|discriminate].
  destruct (load_programs_found env st ps0 st0 id q Hload Hq) as (ps & Hf & -> & ->).
  intros Hrun. exists ps. split; [exact Hf|]. split; [by eexists|].
  split; [by rewrite Hc|].
  revert Hrun. rewrite !bind_gets.
  destruct (maybe_stop_program env
              (pm_program_running st
               && bool_decide (pm_current_program_id st = Some id)) st)
    as (s1 & Hs1 & Hp).
  rewrite (bind_run _ _ _ _ _ Hs1).
  unfold bind.
  destruct (save_programs env (alist_insert id p (ensure_id <$> ps)) s1)
    as [[b|e] s2] eqn:Hsave; [|discriminate].
  apply save_programs_result in Hsave.
  destruct b; [|discriminate]. intros [= <- <-]. subst s2.
  split; [|done]. cbn. reflexivity.
Qed.

Lemma alist_lookup_ensure_id k (ps : programs) :
  alist_lookup k (ensure_id <$> ps)
  = (λ p, (ensure_id (k, p)).2) <$> alist_lookup k ps.
Proof.
  induction ps as [|[k' p] ps IH]; cbn; [done|].
  assert (Hk : (ensure_id (k', p)).1 = k') by (unfold ensure_id; cbn; by destruct (p_id p)).
  destruct (ensure_id (k', p)) as [k1 p1] eqn:He. cbn in Hk. subst k1.
  destruct (String.eqb k' k) eqn:Hkk; [|exact IH].
  apply String.eqb_eq in Hkk as ->. cbn. by rewrite He.
Qed.

(** X1.  A successful [update_program] is read back by [load_programs]: the
    program is found under its id, carrying an id, and every other entry of
    the store is as it was. *)
Theorem update_program_read_back env id p st msg st' :
  update_program env id p st = (Ret (true, msg), st') →
  ∃ ps ps',
    programs_file st = Stored ps ∧
    load_programs env st' = (Ret ps', st') ∧
    alist_lookup id ps' = Some (ensure_id (id, p)).2 ∧
    (∀ k, k ≠ id → alist_lookup k ps' = alist_lookup k (ensure_id <$> ps)) ∧
    length ps' = length ps.
Proof.
  intros Hrun.
  destruct (update_program_success env id p st msg st' Hrun)
    as (ps & Hf & [q Hq] & _ & Hf' & _).
  exists ps, (ensure_id <$> alist_insert id p (ensure_id <$> ps)).
  split; [exact Hf|]. split; [by apply load_programs_stored|].
  split; [|split].
  - by rewrite alist_lookup_ensure_id, alist_lookup_insert_eq.
  - intros k Hk. rewrite alist_lookup_ensure_id, alist_lookup_insert_ne by done.
    rewrite !alist_lookup_ensure_id.
    destruct (alist_lookup k ps) as [r|]; cbn; [|done].
    f_equal. unfold ensure_id. cbn. destruct (p_id r) eqn:Hr; cbn; [by rewrite Hr|done].
  - rewrite length_fmap, alist_insert_length by (by eexists).
    by rewrite length_fmap.
Qed.

Lemma update_program_read_back_witness :
  update_program (june_env quiet) "1" program_A store_s6
    = (Ret (true, ""),
       state_of (update_program (june_env quiet) "1" program_A store_s6)) ∧
  ∃ ps',
    result_of (load_programs (june_env quiet)
                 (state_of (update_program (june_env quiet) "1" program_A store_s6)))
      = Ret ps' ∧
    alist_lookup "1" ps' = Some program_A.
Proof.
  assert (Hrun : update_program (june_env quiet) "1" program_A store_s6
                 = (Ret (true, ""),
                    state_of (update_program (june_env quiet) "1" program_A store_s6)))
    by (apply run_result; vm_compute; reflexivity).
  split; [exact Hrun|].
  destruct (update_program_read_back _ _ _ _ _ _ Hrun)
    as (ps & ps' & _ & Hload & Hid & _).
  exists ps'. split; [|exact Hid]. unfold result_of. by rewrite Hload.
Defined.

Lemma load_programs_runs env st :
  ∃ ps0 st0, load_programs env st = (Ret ps0, st0) ∧
    ((∃ ps, programs_file st = Stored ps ∧ ps0 = ensure_id <$> ps ∧ st0 = st) ∨
     (ps0 = [] ∧ programs_file st = Corrupt ∧ st0 = st) ∨
     (ps0 = [] ∧ programs_file st = Missing ∧
      st0 = if write_fault env PROGRAM_FILE
            then failed_write env PROGRAM_FILE set_programs_file st
            else set_programs_file (Stored []) st)).
Proof.
  destruct (programs_file st) as [| |ps] eqn:Hf.
  - unfold load_programs, try_except, bind, gets. rewrite Hf. cbn [raise].
    rewrite save_programs_run.
    destruct (write_fault env PROGRAM_FILE); eexists _, _;
      (split; [reflexivity|]); right; right; done.
  - exists [], st. split; [apply load_programs_unreadable; by rewrite Hf|].
    right. left. done.
  - exists (ensure_id <$> ps), st. split; [by apply load_programs_stored|].
    left. by exists ps.
Qed.

(** What a failed write leaves of [program.json]. *)
Lemma programs_file_failed_write env st :
  programs_file (failed_write env PROGRAM_FILE set_programs_file st)
  = if write_torn env PROGRAM_FILE then Corrupt else programs_file st.
Proof. unfold failed_write. by destruct (write_torn env PROGRAM_FILE). Qed.

(** X2.  [delete_program] never raises.  When it returns [True] the program
    was in the store, [load_programs] no longer finds it, and every other
    entry is as it was.  When it returns [False], [program.json] holds what
    it held before, or has been created empty (it was missing), or, a write
    having failed after the file was opened, is left unreadable; where every
    write succeeds, [False] means that the id was not in the store. *)
Theorem delete_program_removes env id st :
  (∃ b, result_of (delete_program env id st) = Ret b) ∧
  (result_of (delete_program env id st) = Ret true →
   ∃ ps ps',
     programs_file st = Stored ps ∧
     is_Some (alist_lookup id (ensure_id <$> ps)) ∧
     load_programs env (state_of (delete_program env id st))
       = (Ret ps', state_of (delete_program env id st)) ∧
     alist_lookup id ps' = None ∧
     ∀ k, k ≠ id → alist_lookup k ps' = alist_lookup k (ensure_id <$> ps)) ∧
  (result_of (delete_program env id st) = Ret false →
   programs_file (state_of (delete_program env id st)) = programs_file st ∨
   (programs_file st = Missing ∧
    programs_file (state_of (delete_program env id st)) = Stored []) ∨
   (write_fault env PROGRAM_FILE = true ∧ write_torn env PROGRAM_FILE = true ∧
    programs_file (state_of (delete_program env id st)) = Corrupt)) ∧
  (write_fault env PROGRAM_FILE = false →
   result_of (delete_program env id st) = Ret false →
   ∀ ps, programs_file st = Stored ps →
         alist_lookup id (ensure_id <$> ps) = None).
Proof.
  unfold delete_program.
  destruct (load_programs_runs env st) as (ps0 & st0 & Hload & Hcase).
  rewrite (bind_run _ _ _ _ _ Hload).
  destruct (alist_lookup id ps0) as [q|] eqn:Hq.
  - destruct Hcase as [(ps & Hf & -> & ->)|[[-> _]|[-> _]]]; [|discriminate..].
    rewrite !bind_gets.
    destruct (maybe_stop_program env
                (pm_program_running st
                 && bool_decide (pm_current_program_id st = Some id)) st)
      as (s1 & Hs1 & Hp).
    rewrite (bind_run _ _ _ _ _ Hs1).
    destruct (save_programs env (alist_delete id (ensure_id <$> ps)) s1)
      as [[b|e] s2] eqn:Hsave.
    2:{ rewrite save_programs_run in Hsave. revert Hsave.
        destruct (write_fault env PROGRAM_FILE); discriminate. }
    apply save_programs_result in Hsave. unfold result_of, state_of. cbn [fst snd].
    split; [by exists b|]. split; [|split].
    + intros [= ->]. subst s2.
      exists ps, (ensure_id <$> alist_delete id (ensure_id <$> ps)).
      split; [exact Hf|]. split; [by eexists|].
      split; [by apply load_programs_stored|]. split.
      * by rewrite alist_lookup_ensure_id, alist_lookup_delete_eq.
      * intros k Hk.
        rewrite alist_lookup_ensure_id, alist_lookup_delete_ne by done.
        rewrite !alist_lookup_ensure_id.
        destruct (alist_lookup k ps) as [r|]; cbn; [|done].
        f_equal. unfold ensure_id. cbn.
        destruct (p_id r) eqn:Hr; cbn; [by rewrite Hr|done].
    + intros [= ->]. destruct Hsave as [Hw ->].
      rewrite programs_file_failed_write.
      destruct (write_torn env PROGRAM_FILE) eqn:Ht; [by right; right|by left].
    + intros Hw [= ->]. destruct Hsave as [Hw' _]. congruence.
  - unfold result_of, state_of. cbn [fst snd ret].
    split; [by exists false|]. split; [discriminate|]. split.
    + intros _.
      destruct Hcase as [(ps & Hf & -> & ->)|[(-> & Hf & ->)|(-> & Hf & ->)]];
        [by left|by left|].
      destruct (write_fault env PROGRAM_FILE) eqn:Hw.
      * rewrite programs_file_failed_write.
        destruct (write_torn env PROGRAM_FILE) eqn:Ht; [by right; right|by left].
      * right. left. by split.
    + intros Hw _ ps Hf.
      destruct Hcase as [(ps1 & Hf1 & -> & ->)|[(-> & Hf1 & ->)|(-> & Hf1 & ->)]];
        [|congruence..].
      rewrite Hf in Hf1. by injection Hf1 as <-.
Qed.

(** ** Month conflicts *)

Lemma months_intersect_share a b :
  months_intersect a b = true ↔ share_month a b.
Proof.
  split; [|apply months_intersect_true].
  unfold months_intersect. intros H. apply existsb_exists in H as (m & Hm & Hb).
  apply bool_decide_eq_true in Hb. exists m. split; [|done].
  by apply list_elem_of_In.
Qed.


Lemma find_conflict_first months l1 pid other l2 excl :
  Forall (λ kv, is_excluded kv.1 excl = true
                ∨ months_intersect months (months_of kv.2) = false) l1 →
  is_excluded pid excl = false →
  months_intersect months (months_of other) = true →
  find_conflict months (l1 ++ (pid, other) :: l2) excl
  = (true, conflict_message (default "" (p_name other))).
Proof.
  intros Hl1 Hex Hm. induction Hl1 as [|[k q] l1 Hkq _ IH]; cbn.
  - rewrite Hex. unfold months_of in Hm. by rewrite Hm.
  - cbn in Hkq. destruct (is_excluded k excl); [exact IH|].
    destruct Hkq as [|Hd]; [done|]. unfold months_of in Hd. by rewrite Hd.
Qed.

Lemma find_conflict_none months ps excl :
  Forall (λ kv, is_excluded kv.1 excl = true
                ∨ months_intersect months (months_of kv.2) = false) ps →
  find_conflict months ps excl = (false, "").
Proof.
  induction 1 as [|[k q] l Hkq _ IH]; cbn; [done|].
  cbn in Hkq. destruct (is_excluded k excl); [exact IH|].
  destruct Hkq as [|Hd]; [done|]. unfold months_of in Hd. by rewrite Hd.
Qed.

Lemma check_program_conflicts_find p ps excl :
  check_program_conflicts p ps excl = find_conflict (months_of p) ps excl.
Proof.
  unfold check_program_conflicts, months_of.
  destruct (default [] (p_months p)) eqn:Hm; [|done].
  induction ps as [|[k q] ps IH]; cbn; [done|]. by destruct (is_excluded k excl).
Qed.

Lemma compatible_intersect p excl kv :
  compatible p excl kv ↔
  is_excluded kv.1 excl = true
  ∨ months_intersect (months_of p) (months_of kv.2) = false.
Proof.
  unfold compatible. rewrite <- months_intersect_share. split.
  - intros [H|H]; [by left|]. right.
    destruct (months_intersect _ _); [by destruct H|done].
  - intros [H|H]; [by left|]. right. rewrite H. discriminate.
Qed.

(** X3.  [check_program_conflicts] reports a conflict exactly when a stored
    program other than the excluded one shares a month with [p]; the message
    names the first such program in the order of the store, and is empty when
    there is none. *)
Theorem check_program_conflicts_exact p ps excl :
  ((check_program_conflicts p ps excl).1 = true ↔
   ∃ pid other, (pid, other) ∈ ps ∧ is_excluded pid excl = false ∧
                share_month (months_of p) (months_of other)) ∧
  (∀ l1 pid other l2,
     ps = l1 ++ (pid, other) :: l2 →
     Forall (compatible p excl) l1 →
     is_excluded pid excl = false →
     share_month (months_of p) (months_of other) →
     check_program_conflicts p ps excl
     = (true, conflict_message (default "" (p_name other)))) ∧
  (Forall (compatible p excl) ps →
   check_program_conflicts p ps excl = (false, "")).
Proof.
  split; [|split].
  - split.
    + rewrite check_program_conflicts_find.
      induction ps as [|[k q] ps IH]; cbn; [discriminate|].
      destruct (is_excluded k excl) eqn:Hex.
      * intros H. destruct (IH H) as (pid & other & Hin & Hrest).
        exists pid, other. split; [by apply list_elem_of_further|done].
      * destruct (months_intersect _ _) eqn:Hm.
        -- intros _. exists k, q. split; [apply list_elem_of_here|].
           split; [done|]. by apply months_intersect_share.
        -- intros H. destruct (IH H) as (pid & other & Hin & Hrest).
           exists pid, other. split; [by apply list_elem_of_further|done].
    + intros (pid & other & Hin & Hex & Hs).
      by eapply check_program_conflicts_found.
  - intros l1 pid other l2 -> Hl1 Hex Hs.
    rewrite check_program_conflicts_find. apply find_conflict_first; [|done|].
    + eapply Forall_impl; [exact Hl1|]. intros kv. apply compatible_intersect.
    + by apply months_intersect_share.
  - intros Hall. rewrite check_program_conflicts_find. apply find_conflict_none.
    eapply Forall_impl; [exact Hall|]. intros kv. apply compatible_intersect.
Qed.

(** * Program ids: [int(str(n))] *)

Lemma of_uint_acc_value d acc :
  N.pos (Pos.of_uint_acc d acc) = uint_value d (N.pos acc).
Proof.
  revert acc. induction d as [|d IH|d IH|d IH|d IH|d IH|d IH|d IH|d IH|d IH|d IH];
    intros acc; cbn [Pos.of_uint_acc uint_value]; [reflexivity|..];
    rewrite IH; reflexivity.
Qed.

Lemma of_uint_value d : Pos.of_uint d = uint_value d 0%N.
Proof.
  induction d as [|d IH|d IH|d IH|d IH|d IH|d IH|d IH|d IH|d IH|d IH];
    cbn [Pos.of_uint uint_value]; [reflexivity|exact IH|..];
    rewrite of_uint_acc_value; reflexivity.
Qed.

Lemma uint_of_char_digit (c : N) d :
  (c < 10)%N →
  ∃ d1, uint_of_char (pretty_N_char c) (Some d) = Some d1 ∧
        ∀ acc, uint_value d1 acc = uint_value d (c + 10 * acc)%N.
Proof.
  intros Hc.
  assert (c = 0 ∨ c = 1 ∨ c = 2 ∨ c = 3 ∨ c = 4 ∨ c = 5 ∨ c = 6 ∨ c = 7
          ∨ c = 8 ∨ c = 9)%N as Hcases by lia.
  repeat destruct Hcases as [->|Hcases]; try subst c;
    eexists; (split; [reflexivity|]); intros acc; reflexivity.
Qed.

Lemma pretty_N_go_digits x : ∀ s d,
  NilEmpty.uint_of_string s = Some d →
  ∃ d' k, NilEmpty.uint_of_string (pretty_N_go x s) = Some d' ∧
          ∀ acc, uint_value d' acc = uint_value d (acc * 10 ^ k + x)%N.
Proof.
  induction (N.lt_wf_0 x) as [x _ IH]. intros s d Hs.
  destruct (decide (x = 0%N)) as [->|Hx].
  - rewrite pretty_N_go_0. exists d, 0%N. split; [exact Hs|].
    intros acc. f_equal. lia.
  - rewrite pretty_N_go_step by lia.
    destruct (uint_of_char_digit (x `mod` 10)%N d) as (d1 & Hd1 & Hv1).
    { apply N.mod_lt. lia. }
    destruct (IH (x `div` 10)%N) with (s := String (pretty_N_char (x `mod` 10)) s)
                                      (d := d1) as (d' & k & Hd' & Hv').
    { apply N.div_lt; lia. }
    { cbn [NilEmpty.uint_of_string]. by rewrite Hs. }
    exists d', (N.succ k). split; [exact Hd'|].
    intros acc. rewrite Hv', Hv1. f_equal.
    rewrite N.pow_succ_r'. pose proof (N.div_mod x 10). lia.
Qed.

Lemma pretty_N_go_length x : ∀ s,
  (String.length s ≤ String.length (pretty_N_go x s))%nat.
Proof.
  induction (N.lt_wf_0 x) as [x _ IH]. intros s.
  destruct (decide (x = 0%N)) as [->|Hx]; [by rewrite pretty_N_go_0|].
  rewrite pretty_N_go_step by lia.
  etrans; [|apply IH; apply N.div_lt; lia]. cbn. lia.
Qed.

Lemma uint_of_string_pretty_N (x : N) :
  ∃ d, NilZero.uint_of_string (pretty x) = Some d ∧ Pos.of_uint d = x ∧
       NilEmpty.uint_of_string (pretty x) = Some d.
Proof.
  unfold pretty, pretty_N. destruct (decide (x = 0%N)) as [->|Hx].
  - by exists (Decimal.D0 Decimal.Nil).
  - destruct (pretty_N_go_digits x "" Decimal.Nil eq_refl) as (d & k & Hd & Hv).
    exists d. split; [|split; [|exact Hd]].
    + unfold NilZero.uint_of_string.
      destruct (pretty_N_go x "") eqn:Hp; [|exact Hd].
      rewrite pretty_N_go_step in Hp by lia.
      pose proof (pretty_N_go_length (x `div` 10)%N
                    (String (pretty_N_char (x `mod` 10)) "")) as Hlen.
      rewrite Hp in Hlen. cbn in Hlen. lia.
    + rewrite of_uint_value, Hv. cbn [uint_value]. lia.
Qed.

(** [int(str(n)) == n]. *)
Lemma py_int_of_str_pretty (z : Z) : py_int_of_str (pretty z) = Ret z.
Proof.
  unfold py_int_of_str.
  destruct z as [|p|p]; [reflexivity| |].
  - change (pretty (Z.pos p)) with (pretty (N.pos p)).
    destruct (uint_of_string_pretty_N (N.pos p)) as (d & Hd & Hv & He).
    unfold NilZero.int_of_string.
    destruct (pretty (N.pos p)) as [|a s] eqn:Hp; [discriminate|].
    destruct (Ascii.eqb a _) eqn:Ha.
    + apply Ascii.eqb_eq in Ha as ->. cbn in He.
      destruct (NilEmpty.uint_of_string s); discriminate.
    + rewrite Hd. cbn. unfold Z.of_uint. by rewrite Hv.
  - change (pretty (Z.neg p)) with ("-" +:+ pretty (N.pos p)).
    destruct (uint_of_string_pretty_N (N.pos p)) as (d & Hd & Hv & _).
    assert (Hneg : ∀ s, NilZero.int_of_string ("-" +:+ s)
                        = option_map Decimal.Neg (NilZero.uint_of_string s))
      by reflexivity.
    rewrite Hneg, Hd. cbn [option_map Z.of_int]. unfold Z.of_uint. by rewrite Hv.
Qed.

Lemma list_max_Z_ge (l : list Z) n : n ∈ l → n ≤ list_max_Z l.
Proof.
  destruct l as [|x l]; [by intros ?%elem_of_nil|]. cbn [list_max_Z].
  assert (Hfold : ∀ l a, a ≤ foldl Z.max a l ∧ ∀ m, m ∈ l → m ≤ foldl Z.max a l).
  { clear. induction l as [|y l IH]; intros a; cbn.
    - split; [lia|]. by intros m ?%elem_of_nil.
    - destruct (IH (a `max` y)) as [Ha Hl]. split; [lia|].
      intros m [->|Hm]%elem_of_cons; [lia|by apply Hl]. }
  destruct (Hfold l x) as [Hx Hl].
  intros [->|Hn]%elem_of_cons; [exact Hx|by apply Hl].
Qed.

Lemma int_keys_elem (ps : programs) ids k v :
  int_keys ps = Ret ids → (k, v) ∈ ps →
  ∃ n, py_int_of_str k = Ret n ∧ n ∈ ids.
Proof.
  revert ids. induction ps as [|[k' v'] ps IH]; intros ids Hk Hin;
    [by apply elem_of_nil in Hin|].
  cbn [int_keys] in Hk.
  destruct (py_int_of_str k') as [n'|] eqn:Hn'; [|discriminate].
  destruct (int_keys ps) as [ns|] eqn:Hns; [|discriminate].
  injection Hk as <-.
  apply elem_of_cons in Hin as [[= -> ->]|Hin].
  - exists n'. split; [done|apply list_elem_of_here].
  - destruct (IH ns eq_refl Hin) as (n & Hn & Hnin).
    exists n. split; [done|by apply list_elem_of_further].
Qed.

Lemma alist_lookup_None {V} k (l : list (string * V)) :
  (∀ k' v, (k', v) ∈ l → k' ≠ k) → alist_lookup k l = None.
Proof.
  induction l as [|[k' v'] l IH]; intros Hl; cbn; [done|].
  destruct (String.eqb k' k) eqn:Hk.
  - apply String.eqb_eq in Hk. destruct (Hl k' v'); [apply list_elem_of_here|done].
  - apply IH. intros k0 v0 Hin. apply (Hl k0 v0). by apply list_elem_of_further.
Qed.

(** The id that [save_program_route] computes is the key of no stored
    program. *)
Lemma next_id_fresh (ps : programs) ids :
  int_keys ps = Ret ids →
  alist_lookup (pretty (list_max_Z ids + 1)) ps = None.
Proof.
  intros Hids. apply alist_lookup_None. intros k v Hin ->.
  destruct (int_keys_elem ps ids _ v Hids Hin) as (n & Hn & Hnin).
  rewrite py_int_of_str_pretty in Hn. injection Hn as <-.
  apply list_max_Z_ge in Hnin. lia.
Qed.

(** X4.  A program that [save_program_route] stores (answer 200) overwrites
    nothing: its new id is the key of no program read from the store, which
    keeps every entry it had, in order, and gains the new program, carrying
    the new id, at the end.  The id is ['1'] for an empty store and one more
    than the largest key otherwise. *)
Theorem save_program_route_fresh_id env p st st' :
  save_program_route env p st = (Ret (Response 200 true), st') →
  ∃ ps0 st0 new_id,
    load_programs env st = (Ret ps0, st0) ∧
    alist_lookup new_id ps0 = None ∧
    st' = set_programs_file (Stored (ps0 ++ [(new_id, with_id new_id p)])) st0 ∧
    ((ps0 = [] ∧ new_id = "1") ∨
     (ps0 ≠ [] ∧ ∃ ids, int_keys ps0 = Ret ids ∧
                        new_id = pretty (list_max_Z ids + 1))).
Proof.
  unfold save_program_route. intros [Hrun|(e & s1 & _ & [=])]%try_except_inv.
  revert Hrun.
  destruct (name_too_long p); [discriminate|].
  destruct (list_falsy (p_months p)); [discriminate|].
  destruct (list_falsy (p_steps p)); [discriminate|].
  intros (ps0 & st0 & Hload & Hrun)%bind_inv.
  apply bind_inv in Hrun as (taken & s1 & Htaken & Hrun).
  unfold lift in Htaken. injection Htaken as Htaken <-.
  destruct taken; [discriminate|].
  destruct (check_program_conflicts p ps0 None) as [[] cm]; [discriminate|].
  apply bind_inv in Hrun as (new_id & s1 & Hid & Hrun).
  apply bind_inv in Hrun as (ok & s2 & Hsave & Hrun).
  destruct (p_name (with_id new_id p)); [|discriminate].
  destruct ok; [|discriminate]. injection Hrun as <-.
  apply save_programs_result in Hsave.
  assert (Hnew : s1 = st0 ∧ alist_lookup new_id ps0 = None ∧
                 ((ps0 = [] ∧ new_id = "1") ∨
                  (ps0 ≠ [] ∧ ∃ ids, int_keys ps0 = Ret ids ∧
                                     new_id = pretty (list_max_Z ids + 1)))).
  { destruct ps0 as [|kv ps0].
    - injection Hid as <- <-. split; [done|]. split; [done|]. by left.
    - apply bind_inv in Hid as (ids & s3 & Hids & Hid).
      unfold lift in Hids. injection Hids as Hids <-. injection Hid as <- <-.
      split; [done|]. split; [by apply next_id_fresh|].
      right. split; [done|]. by exists ids. }
  destruct Hnew as (-> & Hfresh & Hcase).
  rewrite alist_insert_fresh in Hsave by done.
  exists ps0, st0, new_id. by repeat split.
Qed.

Lemma save_program_route_fresh_id_witness :
  save_program_route (june_env quiet) program_september booted
    = (Ret (Response 200 true),
       state_of (save_program_route (june_env quiet) program_september booted)) ∧
  ∃ ps0 st0 new_id,
    load_programs (june_env quiet) booted = (Ret ps0, st0) ∧
    alist_lookup new_id ps0 = None ∧
    state_of (save_program_route (june_env quiet) program_september booted)
    = set_programs_file
        (Stored (ps0 ++ [(new_id, with_id new_id program_september)])) st0 ∧
    ((ps0 = [] ∧ new_id = "1") ∨
     (ps0 ≠ [] ∧ ∃ ids, int_keys ps0 = Ret ids ∧
                        new_id = pretty (list_max_Z ids + 1))).
Proof.
  assert (Hrun : save_program_route (june_env quiet) program_september booted
                 = (Ret (Response 200 true),
                    state_of (save_program_route (june_env quiet)
                                program_september booted)))
    by (apply run_result; vm_compute; reflexivity).
  split; [exact Hrun|].
  exact (save_program_route_fresh_id _ _ _ _ Hrun).
Defined.

(** The length test of the route counts characters, as [len] does: a name of
    sixteen accented letters, thirty-two bytes long, passes it, and a name of
    seventeen is refused. *)
Lemma accented_name_length :
  String.length "àààààààààààààààà" = 32%nat ∧
  py_len "àààààààààààààààà" = 16%nat ∧
  name_too_long (Program None (Some "àààààààààààààààà") None None None None
                         None None) = false ∧
  name_too_long (Program None (Some "ààààààààààààààààà") None None None None
                         None None) = true.
Proof. vm_compute. by repeat split. Qed.

(** * The zone table *)

(** ** What the actuator does to the table and to the pin tables *)

Lemma start_zone_pins env z d st :
  zone_pins (state_of (start_zone env z d st)) = zone_pins st ∧
  safety_relay (state_of (start_zone env z d st)) = safety_relay st.
Proof.
  split.
  - by apply (frame_start_zone env (λ s, zone_pins s = zone_pins st)).
  - by apply (frame_start_zone env (λ s, safety_relay s = safety_relay st)).
Qed.

Lemma stop_zone_pins env z st :
  zone_pins (state_of (stop_zone env z st)) = zone_pins st ∧
  safety_relay (state_of (stop_zone env z st)) = safety_relay st.
Proof.
  split.
  - by apply (frame_stop_zone env (λ s, zone_pins s = zone_pins st)).
  - by apply (frame_stop_zone env (λ s, safety_relay s = safety_relay st)).
Qed.

(** A call of [start_zone] that does not return [True] leaves the table as it
    was, whatever the hardware does. *)
Lemma start_zone_failure_table env z d st :
  result_of (start_zone env z d st) ≠ Ret true →
  active_zones (state_of (start_zone env z d st)) = active_zones st.
Proof.
  unfold start_zone. msimpl.
  destruct (ps_program_running st) eqn:Hps; msimpl; [done|].
  destruct (zone_pins st !! z) as [pin|] eqn:Hpin; msimpl; [|done].
  destruct (load_user_settings_state env (set_zm_program_running false st)) as [f Hload].
  destruct (load_user_settings env (set_zm_program_running false st)) as [[settings|e] st1];
    msimpl_in Hload; subst st1; msimpl; [|done].
  destruct (d <=? 0); msimpl; [done|].
  destruct (py_int (dict_get "max_zone_duration" (JInt 180) settings)) as [maxd|];
    msimpl; [|done].
  destruct (d >? maxd); msimpl; [done|].
  destruct (py_int (dict_get "max_active_zones" (JInt 1) settings)) as [maxa|];
    msimpl; [|done].
  destruct (_ && _); msimpl; [done|].
  unfold pin_write, create_timer.
  destruct (safety_relay st) as [rpin|]; msimpl.
  - destruct (dict_empty (active_zones st)); msimpl.
    + destruct (gpio_fault env rpin); msimpl; [done|].
      destruct (gpio_fault env pin); msimpl; [done|].
      destruct (active_zones st !! z); msimpl; intros []; reflexivity.
    + destruct (gpio_fault env pin); msimpl; [done|].
      destruct (active_zones st !! z); msimpl; intros []; reflexivity.
  - destruct (gpio_fault env pin); msimpl; [done|].
    destruct (active_zones st !! z); msimpl; intros []; reflexivity.
Qed.

Lemma stop_zone_table env z st :
  active_zones (state_of (stop_zone env z st)) = active_zones st ∨
  active_zones (state_of (stop_zone env z st)) = delete z (active_zones st).
Proof.
  unfold stop_zone, pin_write. msimpl.
  destruct (zone_pins st !! z) as [pin|]; msimpl; [|by left].
  destruct (gpio_fault env pin); msimpl; [by left|].
  destruct (active_zones st !! z) as [old|] eqn:Hold; msimpl;
    rewrite ?safety_relay_cancel_task, ?active_zones_cancel_task; msimpl.
  - right. destruct (safety_relay st) as [rpin|]; msimpl; [|done].
    destruct (dict_empty _); msimpl; [|done].
    by destruct (gpio_fault env rpin).
  - left. destruct (safety_relay st) as [rpin|]; msimpl; [|done].
    destruct (dict_empty _); msimpl; [|done].
    by destruct (gpio_fault env rpin).
Qed.

Lemma zones_have_pins_start_zone env z d :
  preserves zones_have_pins (start_zone env z d).
Proof.
  intros st HI z' Hz'.
  destruct (start_zone_pins env z d st) as [Hzp _]. rewrite Hzp.
  destruct (start_zone env z d st) as [o st'] eqn:Hrun.
  assert (o = Ret true ∨ o ≠ Ret true) as [->|Hfail]
    by (destruct o as [[]|]; eauto; right; discriminate).
  - destruct (start_zone_success env z d st st' Hrun) as (_ & pin & f & Hpin & ->).
    cbn [state_of snd] in Hz'.
    change (active_zones (start_zone_effect z d pin f st))
      with (<[z := ZoneRec (clock st) d (length (tasks st))]> (active_zones st)) in Hz'.
    destruct (decide (z = z')) as [<-|Hne]; [by eexists|].
    rewrite lookup_insert_ne in Hz' by done. by apply HI.
  - assert (Hres : result_of (start_zone env z d st) ≠ Ret true) by (by rewrite Hrun).
    apply start_zone_failure_table in Hres. rewrite Hrun in Hres.
    cbn [state_of snd] in *. rewrite Hres in Hz'. by apply HI.
Qed.

Lemma zones_have_pins_stop_zone env z :
  preserves zones_have_pins (stop_zone env z).
Proof.
  intros st HI z' Hz'.
  destruct (stop_zone_pins env z st) as [Hzp _]. rewrite Hzp.
  destruct (stop_zone_table env z st) as [Haz|Haz]; rewrite Haz in Hz'.
  - by apply HI.
  - apply HI. destruct (decide (z = z')) as [<-|Hne].
    + rewrite lookup_delete_eq in Hz'. by destruct Hz'.
    + by rewrite lookup_delete_ne in Hz'.
Qed.

Section StopEverything.
Variable env : Env.
Hypothesis no_fault : no_gpio_fault env.

(** With a working driver, [stop_zone] on a zone that has a pin returns
    [True], removes the zone from the table and leaves its pin released; no
    output that was released is driven, and the safety relay is released if
    the table is empty afterwards. *)
Lemma stop_zone_stops z pin st :
  zone_pins st !! z = Some pin →
  result_of (stop_zone env z st) = Ret true ∧
  active_zones (state_of (stop_zone env z st)) = delete z (active_zones st) ∧
  gpio (state_of (stop_zone env z st)) !! pin = Some 1 ∧
  (∀ q, gpio st !! q = Some 1 → gpio (state_of (stop_zone env z st)) !! q = Some 1) ∧
  (∀ rpin, safety_relay st = Some rpin →
           active_zones (state_of (stop_zone env z st)) = ∅ →
           gpio (state_of (stop_zone env z st)) !! rpin = Some 1).
Proof.
  intros Hpin. unfold stop_zone. msimpl. rewrite Hpin. msimpl.
  rewrite (pin_write_ok env no_fault). msimpl.
  assert (Hkeep : ∀ (g : gmap Z Z) q p, (<[p := 1]> g) !! q = Some 1 ∨
                                       (<[p := 1]> g) !! q = g !! q).
  { intros g q p. destruct (decide (p = q)) as [->|Hne].
    - left. apply lookup_insert_eq.
    - right. by apply lookup_insert_ne. }
  destruct (active_zones st !! z) as [old|] eqn:Hold; msimpl;
    rewrite ?safety_relay_cancel_task, ?active_zones_cancel_task; msimpl.
  - destruct (safety_relay st) as [rpin|] eqn:Hrelay; msimpl.
    + destruct (dict_empty (delete z (active_zones st))) eqn:Hempty; msimpl;
        rewrite ?(pin_write_ok env no_fault); msimpl;
        rewrite ?gpio_cancel_task, ?active_zones_cancel_task; msimpl.
      * split; [done|]. split; [done|]. split; [|split].
        -- destruct (Hkeep (<[pin := 1]> (gpio st)) pin rpin) as [->| ->]; [done|].
           apply lookup_insert_eq.
        -- intros q Hq.
           destruct (Hkeep (<[pin := 1]> (gpio st)) q rpin) as [->| ->]; [done|].
           destruct (Hkeep (gpio st) q pin) as [->| ->]; done.
        -- intros r [= <-] _. apply lookup_insert_eq.
      * split; [done|]. split; [done|]. split; [|split].
        -- apply lookup_insert_eq.
        -- intros q Hq. destruct (Hkeep (gpio st) q pin) as [->| ->]; done.
        -- intros r _ Haz. apply dict_empty_true in Haz.
           rewrite Haz in Hempty. discriminate.
    + split; [done|]. split; [done|]. rewrite gpio_cancel_task. msimpl.
      split; [|split].
      * apply lookup_insert_eq.
      * intros q Hq. destruct (Hkeep (gpio st) q pin) as [->| ->]; done.
      * intros r [=].
  - assert (Hdel : active_zones st = delete z (active_zones st))
      by (symmetry; by apply delete_id).
    destruct (safety_relay st) as [rpin|] eqn:Hrelay; msimpl.
    + destruct (dict_empty (active_zones st)) eqn:Hempty; msimpl;
        rewrite ?(pin_write_ok env no_fault); msimpl.
      * split; [done|]. split; [done|]. split; [|split].
        -- destruct (Hkeep (<[pin := 1]> (gpio st)) pin rpin) as [->| ->]; [done|].
           apply lookup_insert_eq.
        -- intros q Hq.
           destruct (Hkeep (<[pin := 1]> (gpio st)) q rpin) as [->| ->]; [done|].
           destruct (Hkeep (gpio st) q pin) as [->| ->]; done.
        -- intros r [= <-] _. apply lookup_insert_eq.
      * split; [done|]. split; [done|]. split; [|split].
        -- apply lookup_insert_eq.
        -- intros q Hq. destruct (Hkeep (gpio st) q pin) as [->| ->]; done.
        -- intros r _ Haz. apply dict_empty_true in Haz.
           rewrite Haz in Hempty. discriminate.
    + split; [done|]. split; [done|]. split; [|split].
      * apply lookup_insert_eq.
      * intros q Hq. destruct (Hkeep (gpio st) q pin) as [->| ->]; done.
      * intros r [=].
Qed.

Lemma stop_each_stops zs : ∀ success st,
  (∀ z, z ∈ zs → is_Some (zone_pins st !! z)) →
  result_of (stop_each env zs success st) = Ret success ∧
  (∀ z, z ∈ zs → active_zones (state_of (stop_each env zs success st)) !! z = None) ∧
  (∀ z, active_zones st !! z = None →
        active_zones (state_of (stop_each env zs success st)) !! z = None) ∧
  (∀ z pin, z ∈ zs → zone_pins st !! z = Some pin →
            gpio (state_of (stop_each env zs success st)) !! pin = Some 1) ∧
  (∀ q, gpio st !! q = Some 1 →
        gpio (state_of (stop_each env zs success st)) !! q = Some 1) ∧
  (∀ rpin, zs ≠ [] → safety_relay st = Some rpin →
           active_zones (state_of (stop_each env zs success st)) = ∅ →
           gpio (state_of (stop_each env zs success st)) !! rpin = Some 1).
Proof.
  induction zs as [|z zs IH]; intros success st Hpins.
  - cbn. split; [done|]. split; [by intros z ?%elem_of_nil|]. split; [done|].
    split; [by intros z pin ?%elem_of_nil|]. split; [done|]. by intros rpin [].
  - destruct (Hpins z) as [pin Hpin]; [apply list_elem_of_here|].
    destruct (stop_zone_stops z pin st Hpin) as (Hres & Haz & Hg & Hkeep & Hrel).
    destruct (stop_zone_pins env z st) as [Hzp Hsr].
    cbn [stop_each]. unfold bind, result_of, state_of in *.
    destruct (stop_zone env z st) as [o st1]. cbn [fst snd] in *. subst o.
    destruct (IH success st1) as (IHres & IHin & IHnone & IHg & IHkeep & IHrel).
    { intros z' Hz'. rewrite Hzp. apply Hpins. by apply list_elem_of_further. }
    split; [exact IHres|]. split; [|split; [|split; [|split]]].
    + intros z' [->|Hz']%elem_of_cons; [|by apply IHin].
      apply IHnone. rewrite Haz. apply lookup_delete_eq.
    + intros z' Hz'. apply IHnone. rewrite Haz.
      destruct (decide (z = z')) as [->|Hne];
        [apply lookup_delete_eq|by rewrite lookup_delete_ne].
    + intros z' pin' [->|Hz']%elem_of_cons Hpin'.
      * apply IHkeep. rewrite Hpin in Hpin'. by injection Hpin' as <-.
      * apply (IHg z'); [done|]. by rewrite Hzp.
    + intros q Hq. by apply IHkeep, Hkeep.
    + intros rpin _ Hrelay Hempty. destruct zs as [|z2 zs].
      * cbn in *. by apply Hrel.
      * apply IHrel; [done|by rewrite Hsr|done].
Qed.

Lemma stop_all_zones_clears :
  hoare zones_have_pins (stop_all_zones env)
        (λ o st, o = Ret true ∧ active_zones st = ∅ ∧ zones_have_pins st).
Proof.
  intros st HI. unfold stop_all_zones. rewrite bind_gets.
  destruct (dict_empty (active_zones st)) eqn:Hempty.
  - apply dict_empty_true in Hempty. by split.
  - destruct (stop_each_stops (map_to_list (active_zones st)).*1 true st)
      as (Hres & Hin & Hnone & _).
    { intros z (kv & -> & Hkv)%list_elem_of_fmap. destruct kv as [k v].
      apply elem_of_map_to_list in Hkv. apply HI. by eexists. }
    split; [exact Hres|].
    assert (Haz : active_zones
                    (state_of (stop_each env (map_to_list (active_zones st)).*1 true st))
                  = ∅).
    { apply map_eq. intros z. rewrite lookup_empty.
      destruct (active_zones st !! z) as [r|] eqn:Hz; [|by apply Hnone].
      apply Hin. apply list_elem_of_fmap. exists (z, r).
      split; [done|]. by apply elem_of_map_to_list. }
    split; [exact Haz|]. intros z. rewrite Haz, lookup_empty. by intros [? [=]].
Qed.

(** X5.  With a working driver and every active zone wired, [stop_all_zones]
    returns [True], leaves the table empty and the pin of every zone that was
    active released; when there was a zone to stop, the safety relay is
    released as well. *)
Theorem stop_all_zones_releases_everything st :
  zones_have_pins st →
  result_of (stop_all_zones env st) = Ret true ∧
  active_zones (state_of (stop_all_zones env st)) = ∅ ∧
  (∀ z pin, is_Some (active_zones st !! z) → zone_pins st !! z = Some pin →
            gpio (state_of (stop_all_zones env st)) !! pin = Some 1) ∧
  (active_zones st ≠ ∅ → relay_asserted (state_of (stop_all_zones env st)) = false).
Proof.
  intros HI. destruct (stop_all_zones_clears st HI) as (Hres & Haz & _).
  split; [exact Hres|]. split; [exact Haz|].
  revert Haz. unfold stop_all_zones. rewrite bind_gets.
  destruct (dict_empty (active_zones st)) eqn:Hempty.
  - apply dict_empty_true in Hempty. intros _. split.
    + intros z pin. rewrite Hempty, lookup_empty. by intros [? [=]].
    + by intros [].
  - destruct (stop_each_stops (map_to_list (active_zones st)).*1 true st)
      as (_ & _ & _ & Hg & _ & Hrel).
    { intros z (kv & -> & Hkv)%list_elem_of_fmap. destruct kv as [k v].
      apply elem_of_map_to_list in Hkv. apply HI. by eexists. }
    intros Haz. split.
    + intros z pin [r Hz] Hpin. apply (Hg z); [|done].
      apply list_elem_of_fmap. exists (z, r). split; [done|].
      by apply elem_of_map_to_list.
    + intros _. unfold relay_asserted.
      assert (Hsr : safety_relay
                      (state_of (stop_each env (map_to_list (active_zones st)).*1 true st))
                    = safety_relay st).
      { apply (frame_stop_each env (λ s, safety_relay s = safety_relay st));
          [|done]. intros z. apply frame_stop_zone; done. }
      rewrite Hsr. destruct (safety_relay st) as [rpin|] eqn:Hrelay; [|done].
      rewrite (Hrel rpin); [by apply bool_decide_eq_false_2|..|done|done].
      intros Hnil. apply fmap_nil_inv in Hnil. apply map_to_list_empty_iff in Hnil.
      rewrite Hnil in Hempty. by rewrite (proj2 (dict_empty_true _)) in Hempty.
Qed.

(** ** The end of a program run *)

Lemma zones_have_pins_save_state : preserves zones_have_pins (save_program_state env).
Proof. unfold save_program_state, write_file. pres. Qed.

Lemma zones_have_pins_load_state : preserves zones_have_pins (load_program_state env).
Proof.
  unfold load_program_state. pres; try assumption.
  all: apply zones_have_pins_save_state.
Qed.

Lemma zones_have_pins_load_settings :
  preserves zones_have_pins (load_user_settings env).
Proof. apply frame_load_user_settings. intros; assumption. Qed.

Lemma zones_have_pins_stop_all : preserves zones_have_pins (stop_all_zones env).
Proof. apply frame_stop_all_zones, zones_have_pins_stop_zone. Qed.

Lemma zones_have_pins_sleep : preserves zones_have_pins (asyncio_sleep1 env).
Proof.
  apply frame_asyncio_sleep1;
    auto using zones_have_pins_start_zone, zones_have_pins_stop_zone,
      zones_have_pins_load_settings, zones_have_pins_load_state,
      zones_have_pins_save_state.
Qed.

Lemma zones_have_pins_run_steps i n delay steps :
  preserves zones_have_pins (run_steps env i n delay steps).
Proof.
  apply frame_run_steps;
    auto using zones_have_pins_start_zone, zones_have_pins_stop_zone,
      zones_have_pins_load_settings, zones_have_pins_load_state,
      zones_have_pins_save_state.
Qed.

Lemma zones_have_pins_update_last_run_date id :
  preserves zones_have_pins (update_last_run_date env id).
Proof. apply frame_update_last_run_date; intros; assumption. Qed.

Lemma wake_timers_returns hs : returns (wake_timers env hs).
Proof.
  induction hs as [|h hs IH]; cbn [wake_timers]; returns_auto.
  all: unfold zone_timer_wakes; returns_auto.
Qed.

Lemma serve_all_returns cs : returns (serve_all env cs).
Proof.
  induction cs as [|c cs IH]; cbn [serve_all]; returns_auto.
  destruct c; cbn [route];
    unfold handle_start_zone, handle_stop_zone, stop_program_route; returns_auto.
Qed.

Lemma asyncio_sleep1_returns : returns (asyncio_sleep1 env).
Proof.
  unfold asyncio_sleep1. returns_auto.
  - apply wake_timers_returns.
  - apply serve_all_returns.
Qed.

(** The [finally] block of [execute_program] ends with an empty table. *)
Lemma execute_cleanup_clears :
  hoare zones_have_pins (execute_cleanup env)
        (λ o st, (∃ u, o = Ret u) ∧ active_zones st = ∅).
Proof.
  intros st HI. unfold execute_cleanup. rewrite !bind_modify.
  destruct (run_returns_preserves zones_have_pins (save_program_state env)
              (set_pm_current_program_id None (set_pm_program_running false st)))
    as ([] & st1 & Hs & HI1);
    [apply save_program_state_returns|apply zones_have_pins_save_state|exact HI|].
  rewrite (bind_run _ _ _ _ _ Hs).
  destruct (stop_all_zones_clears st1 HI1) as (Hres & Haz & _).
  rewrite (bind_run _ _ _ _ _ (run_result _ _ _ Hres)).
  split; [by exists tt|exact Haz].
Qed.

(** A call of [execute_program] that gets past the test on the running
    program ends with an empty zone table. *)
Lemma execute_program_clears p manual st :
  ps_program_running st = false →
  zones_have_pins st →
  active_zones (state_of (execute_program env p manual st)) = ∅.
Proof.
  intros Hps HI. unfold execute_program.
  rewrite bind_modify, bind_gets. cbn [pm_program_running set_pm_current_program_id
    set_pm_program_running]. rewrite Hps.
  set (st0 := set_pm_current_program_id _ _).
  assert (HI0 : zones_have_pins st0) by exact HI.
  clearbody st0. clear HI Hps st. revert st0 HI0.
  change (hoare zones_have_pins
    ((if negb manual
      then active_count <- get_active_zones_count;;
           (if active_count >? 0 then stop_all_zones env;; asyncio_sleep1 env
            else ret tt)
      else ret tt);;
     stop_all_zones env;;
     modify (set_pm_program_running true);;
     modify (set_pm_current_program_id (Some (default "0" (p_id p))));;
     save_program_state env;;
     log_event (LogProgramStart (default "Senza nome" (p_name p))
                                (default "0" (p_id p)));;
     settings <- load_user_settings env;;
     finally
       (try_except
          (run_steps env 0 (length (default [] (p_steps p)))
             (dict_get "activation_delay" (JInt 0) settings)
             (default [] (p_steps p));;
           update_last_run_date env (default "0" (p_id p));;
           log_event (LogProgramCompleted (default "Senza nome" (p_name p)));;
           ret true)
          (λ _, log_event (LogProgramError (default "Senza nome" (p_name p)));;
                ret false))
       (execute_cleanup env))
    (λ _ st, active_zones st = ∅)).
  assert (Hoff : ∀ {A} (m : M A),
            preserves (λ st, active_zones st = ∅ ∧ zones_have_pins st) m →
            ∀ {B} (k : A → M B),
              (∀ a, hoare (λ st, active_zones st = ∅ ∧ zones_have_pins st) (k a)
                          (λ _ st, active_zones st = ∅)) →
              hoare (λ st, active_zones st = ∅ ∧ zones_have_pins st) (bind m k)
                    (λ _ st, active_zones st = ∅)).
  { intros A m Hm B k Hk.
    eapply hoare_bind with (R := λ _ st, active_zones st = ∅ ∧ zones_have_pins st);
      [by apply hoare_preserves|exact Hk|by intros e st [Haz _]]. }
  eapply hoare_bind with (R := λ o st, (∃ a, o = Ret a) ∧ zones_have_pins st).
  { apply hoare_returns_preserves.
    - unfold get_active_zones_count. returns_auto.
      + apply stop_all_zones_returns.
      + apply asyncio_sleep1_returns.
    - unfold get_active_zones_count. pres.
      + apply zones_have_pins_stop_all.
      + apply zones_have_pins_sleep. }
  2:{ by intros e st [[a [=]] _]. }
  intros []. eapply hoare_conseq with (P := zones_have_pins);
    [|by intros st [_ HI]|intros o st H; exact H].
  eapply hoare_bind with (R := λ _ st, active_zones st = ∅ ∧ zones_have_pins st).
  { intros st HI. by destruct (stop_all_zones_clears st HI) as (_ & Haz & HI'). }
  2:{ by intros e st [Haz _]. }
  intros _.
  apply Hoff; [pres; by destruct H|intros []].
  apply Hoff; [pres; by destruct H|intros []].
  apply Hoff.
  { unfold save_program_state, write_file. pres; by destruct H. }
  intros [].
  apply Hoff; [pres; by destruct H|intros []].
  apply Hoff.
  { apply frame_load_user_settings. intros f st H. exact H. }
  intros settings.
  eapply hoare_finally with (R := λ _, zones_have_pins).
  - eapply hoare_conseq with (P := zones_have_pins) (Q := λ _, zones_have_pins);
      [|by intros st [_ HI]|done].
    apply hoare_preserves. pres; try assumption.
    + apply zones_have_pins_run_steps.
    + apply zones_have_pins_update_last_run_date.
  - intros o st HI. destruct (execute_cleanup_clears st HI) as [[u Hu] Haz].
    by rewrite Hu.
Qed.

(** X6.  With a working driver, a call of [execute_program] that gets past the
    test on the running program ends with no zone active, whether the run
    completes, is interrupted, fails, or is disturbed by requests served
    while it sleeps; a safety relay that followed the table before the run is
    released. *)
Theorem execute_program_leaves_zones_off p manual st :
  ps_program_running st = false →
  zones_have_pins st →
  active_zones (state_of (execute_program env p manual st)) = ∅ ∧
  (relay_follows_table st →
   relay_asserted (state_of (execute_program env p manual st)) = false).
Proof.
  intros Hps HI. pose proof (execute_program_clears p manual st Hps HI) as Haz.
  split; [exact Haz|]. intros Hrel.
  destruct (relay_call env no_fault (CallExecuteProgram p manual) st Hrel)
    as [_ Heq].
  cbn [run_call] in Heq. rewrite Heq. unfold zones_active. rewrite Haz.
  reflexivity.
Qed.
End StopEverything.

Lemma booted_zones_have_pins : zones_have_pins booted.
Proof. intros z [r Hz]. vm_compute in Hz. discriminate. Defined.

Lemma two_zones_on_have_pins : zones_have_pins two_zones_on.
Proof.
  apply (zones_have_pins_start_zone (june_env quiet) 1 5).
  apply (zones_have_pins_start_zone (june_env quiet) 0 5).
  exact booted_zones_have_pins.
Defined.

Lemma stop_all_zones_releases_everything_witness :
  no_gpio_fault (june_env quiet) ∧
  zones_have_pins two_zones_on ∧
  size (active_zones two_zones_on) = 2%nat ∧
  result_of (stop_all_zones (june_env quiet) two_zones_on) = Ret true ∧
  active_zones (state_of (stop_all_zones (june_env quiet) two_zones_on)) = ∅.
Proof.
  split; [exact (june_env_no_gpio_fault quiet)|].
  split; [exact two_zones_on_have_pins|]. split; [vm_compute; reflexivity|].
  destruct (stop_all_zones_releases_everything (june_env quiet)
              (june_env_no_gpio_fault quiet) two_zones_on two_zones_on_have_pins)
    as (Hres & Haz & _).
  split; [exact Hres|exact Haz].
Defined.

Lemma execute_program_leaves_zones_off_witness :
  no_gpio_fault (june_env quiet) ∧
  ps_program_running two_zones_on = false ∧
  zones_have_pins two_zones_on ∧
  active_zones
    (state_of (execute_program (june_env quiet) program_A false two_zones_on)) = ∅.
Proof.
  split; [exact (june_env_no_gpio_fault quiet)|]. split; [reflexivity|].
  split; [exact two_zones_on_have_pins|].
  exact (proj1 (execute_program_leaves_zones_off (june_env quiet)
                  (june_env_no_gpio_fault quiet) program_A false two_zones_on
                  eq_refl two_zones_on_have_pins)).
Defined.

(** ** The limit on simultaneous zones *)

Lemma start_zone_success_guard env z d st st' limit :
  start_zone env z d st = (Ret true, st') →
  max_active_zones_of st limit →
  Z.of_nat (size (active_zones st)) < limit ∨ is_Some (active_zones st !! z).
Proof.
  intros Hrun (s & Hfile & Hlimit). revert Hrun.
  unfold start_zone. msimpl.
  destruct (ps_program_running st) eqn:Hps; msimpl; [discriminate|].
  destruct (zone_pins st !! z) as [pin|] eqn:Hpin; msimpl; [|discriminate].
  destruct (load_user_settings_readable env (set_zm_program_running false st) s Hfile)
    as (settings & Hload & Hsettings).
  rewrite Hload. msimpl.
  destruct (d <=? 0); msimpl; [discriminate|].
  destruct (py_int (dict_get "max_zone_duration" (JInt 180) settings)) as [maxd|];
    msimpl; [|discriminate].
  destruct (d >? maxd); msimpl; [discriminate|].
  assert (Hmax : dict_get "max_active_zones" (JInt 1) settings = JInt limit).
  { unfold dict_get in *. rewrite Hsettings. unfold or_default.
    destruct (s !! "max_active_zones") as [v|]; [exact Hlimit|].
    rewrite factory_lookup. cbn. exact Hlimit. }
  rewrite Hmax. cbn [py_int]. msimpl.
  destruct (Z.of_nat (size (active_zones st)) >=? limit) eqn:Hsize; msimpl.
  - destruct (active_zones st !! z) as [old|] eqn:Hold;
      [intros _; right; by eexists|].
    rewrite bool_decide_eq_false_2 by (by intros [? [=]]). msimpl. discriminate.
  - intros _. left. lia.
Qed.

(** X7.  [start_zone] never takes the number of active zones above
    [max_active_zones]: the table grows by one zone at most, and only while it
    holds fewer zones than the limit; a table within the limit stays within
    it, and a zone that is not active is refused once the limit is reached. *)
Theorem start_zone_respects_limit env z d st limit :
  max_active_zones_of st limit →
  Z.of_nat (size (active_zones (state_of (start_zone env z d st))))
    ≤ Z.max (Z.of_nat (size (active_zones st))) limit ∧
  (active_zones st !! z = None → limit ≤ Z.of_nat (size (active_zones st)) →
   result_of (start_zone env z d st) ≠ Ret true ∧
   active_zones (state_of (start_zone env z d st)) = active_zones st).
Proof.
  intros Hlimit.
  destruct (start_zone env z d st) as [o st'] eqn:Hrun.
  assert (o = Ret true ∨ o ≠ Ret true) as [->|Hfail]
    by (destruct o as [[]|]; eauto; right; discriminate).
  - destruct (start_zone_success_guard env z d st st' limit Hrun Hlimit) as [Hlt|Hz].
    + destruct (start_zone_success env z d st st' Hrun) as (_ & pin & f & _ & ->).
      cbn [state_of snd result_of fst].
      change (active_zones (start_zone_effect z d pin f st))
        with (<[z := ZoneRec (clock st) d (length (tasks st))]> (active_zones st)).
      split; [|lia].
      destruct (active_zones st !! z) as [old|] eqn:Hold.
      * erewrite map_size_insert_Some by done. lia.
      * rewrite map_size_insert_None by done. lia.
    + destruct (start_zone_success env z d st st' Hrun) as (_ & pin & f & _ & ->).
      cbn [state_of snd result_of fst].
      change (active_zones (start_zone_effect z d pin f st))
        with (<[z := ZoneRec (clock st) d (length (tasks st))]> (active_zones st)).
      destruct Hz as [old Hold]. split.
      * erewrite map_size_insert_Some by done. lia.
      * rewrite Hold. discriminate.
  - assert (Hres : result_of (start_zone env z d st) ≠ Ret true) by (by rewrite Hrun).
    apply start_zone_failure_table in Hres. rewrite Hrun in Hres.
    cbn [state_of snd result_of fst] in *. rewrite Hres. split; [lia|done].
Qed.

Lemma booted_max_active_zones : max_active_zones_of booted 3.
Proof. eexists. split; [reflexivity|]. vm_compute. reflexivity. Defined.

Lemma start_zone_respects_limit_witness :
  max_active_zones_of booted 3 ∧
  Z.of_nat (size (active_zones (state_of (start_zone (june_env quiet) 0 5 booted))))
    ≤ Z.max (Z.of_nat (size (active_zones booted))) 3.
Proof.
  split; [exact booted_max_active_zones|].
  exact (proj1 (start_zone_respects_limit (june_env quiet) 0 5 booted 3
                  booted_max_active_zones)).
Defined.

(** * The auto-stop timer *)

Lemma cancel_task_set_gpio h g st :
  cancel_task h (set_gpio g st) = set_gpio g (cancel_task h st).
Proof.
  unfold cancel_task. cbn [tasks set_gpio].
  by destruct (tasks st !! h) as [[z due []]|].
Qed.

(** What [stop_zone] does to the clock, the pin table, the zone table and the
    task table. *)
Lemma stop_zone_effects env z st :
  clock (state_of (stop_zone env z st)) = clock st ∧
  zone_pins (state_of (stop_zone env z st)) = zone_pins st ∧
  ((active_zones (state_of (stop_zone env z st)) = active_zones st ∧
    tasks (state_of (stop_zone env z st)) = tasks st) ∨
   (∃ old, active_zones st !! z = Some old ∧
           active_zones (state_of (stop_zone env z st)) = delete z (active_zones st) ∧
           tasks (state_of (stop_zone env z st))
           = tasks (cancel_task (zr_task old) st))).
Proof.
  split; [|split].
  - by apply (frame_stop_zone env (λ s, clock s = clock st)).
  - apply stop_zone_pins.
  - unfold stop_zone, pin_write. msimpl.
    destruct (zone_pins st !! z) as [pin|]; msimpl; [|by left].
    destruct (gpio_fault env pin); msimpl; [by left|].
    destruct (active_zones st !! z) as [old|] eqn:Hold; msimpl;
      rewrite ?safety_relay_cancel_task, ?active_zones_cancel_task; msimpl.
    + right. exists old. split; [done|]. rewrite cancel_task_set_gpio.
      destruct (safety_relay st) as [rpin|]; msimpl; [|done].
      destruct (dict_empty _); msimpl; [|done].
      by destruct (gpio_fault env rpin).
    + left. destruct (safety_relay st) as [rpin|]; msimpl; [|done].
      destruct (dict_empty _); msimpl; [|done].
      by destruct (gpio_fault env rpin).
Qed.

(** [stop_zone] only ever writes level 1. *)
Lemma stop_zone_keeps_released env z st q :
  gpio st !! q = Some 1 → gpio (state_of (stop_zone env z st)) !! q = Some 1.
Proof.
  intros Hq.
  assert (Hkeep : ∀ (g : gmap Z Z) p, g !! q = Some 1 → (<[p := 1]> g) !! q = Some 1).
  { intros g p Hg. destruct (decide (p = q)) as [->|Hne].
    - apply lookup_insert_eq.
    - by rewrite lookup_insert_ne. }
  unfold stop_zone, pin_write. msimpl.
  destruct (zone_pins st !! z) as [pin|]; msimpl; [|done].
  destruct (gpio_fault env pin); msimpl; [done|].
  destruct (active_zones st !! z) as [old|] eqn:Hold; msimpl;
    rewrite ?safety_relay_cancel_task, ?active_zones_cancel_task,
      ?cancel_task_set_gpio; msimpl;
    (destruct (safety_relay st) as [rpin|]; msimpl;
     [destruct (dict_empty _); msimpl;
      [destruct (gpio_fault env rpin); msimpl|]|]);
    rewrite ?gpio_cancel_task; msimpl; repeat apply Hkeep; exact Hq.
Qed.

Lemma try_stop_zone_state env z st :
  state_of (try_except (stop_zone env z;; ret tt) (λ _, ret tt) st)
  = state_of (stop_zone env z st).
Proof.
  destruct (stop_zone_returns env z st) as [b Hb].
  unfold try_except, bind, state_of, result_of in *.
  destruct (stop_zone env z st) as [o st']. cbn in *. by subst o.
Qed.

Section AutoStop.
Variable env : Env.
Variables (z d c0 : Z) (h : nat) (pin : Z).

(** A timer other than [h] wakes up. *)
Lemma zone_waiting_other_timer h' st :
  h' ≠ h →
  zone_waiting z d c0 h pin st →
  zone_waiting z d c0 h pin (state_of (zone_timer_wakes env h' st)) ∧
  clock (state_of (zone_timer_wakes env h' st)) = clock st.
Proof.
  intros Hne (Haz & Htask & Hpin & Hown).
  unfold zone_timer_wakes. rewrite bind_gets.
  destruct (tasks st !! h') as [[z' due' []]|] eqn:Hh'; try by repeat split.
  rewrite bind_modify, bind_gets. cbn [active_zones set_tasks].
  destruct (Hown h' _ Hh' eq_refl) as (r' & Hr' & Hh). cbn [t_zone] in Hr'.
  rewrite Hr'.
  set (st_a := set_tasks (<[h' := Timer z' due' Finished]> (tasks st)) st).
  rewrite try_stop_zone_state.
  assert (Hzz : z' ≠ z).
  { intros ->. rewrite Haz in Hr'. injection Hr' as <-. by cbn in Hh. }
  assert (Hfin : tasks st_a !! h' = Some (Timer z' due' Finished)).
  { subst st_a. cbn [tasks set_tasks]. apply list_lookup_insert_eq.
    by eapply lookup_lt_Some. }
  assert (Hcancel : tasks (cancel_task h' st_a) = tasks st_a).
  { unfold cancel_task. by rewrite Hfin. }
  destruct (stop_zone_effects env z' st_a) as (Hclock & Hzp & Hcase).
  assert (Htasks : tasks (state_of (stop_zone env z' st_a)) = tasks st_a).
  { destruct Hcase as [[_ Ht]|(old & Hold & _ & Ht)]; [exact Ht|].
    subst st_a. cbn [active_zones set_tasks] in Hold.
    rewrite Hr' in Hold. injection Hold as <-. rewrite Hh in Ht.
    by rewrite Ht, Hcancel. }
  assert (Hlook : ∀ z2, z2 ≠ z' →
            active_zones (state_of (stop_zone env z' st_a)) !! z2
            = active_zones st !! z2).
  { intros z2 Hz2. destruct Hcase as [[Ha _]|(old & _ & Ha & _)]; rewrite Ha.
    - reflexivity.
    - by rewrite lookup_delete_ne. }
  split; [|exact Hclock].
  split; [by rewrite Hlook|]. split; [|split].
  - rewrite Htasks. subst st_a. cbn [tasks set_tasks].
    by rewrite list_lookup_insert_ne.
  - by rewrite Hzp.
  - intros h2 t2 Ht2 Hp2. rewrite Htasks in Ht2. subst st_a.
    cbn [tasks set_tasks] in Ht2.
    destruct (decide (h' = h2)) as [<-|Hh2].
    { rewrite list_lookup_insert_eq in Ht2 by (by eapply lookup_lt_Some).
      injection Ht2 as <-. discriminate. }
    rewrite list_lookup_insert_ne in Ht2 by done.
    destruct (Hown h2 t2 Ht2 Hp2) as (r2 & Hr2 & Hh2').
    exists r2. split; [|done]. rewrite Hlook; [done|].
    intros Heq. rewrite Heq, Hr' in Hr2. injection Hr2 as <-. congruence.
Qed.

(** Before the timer [h] is due, the timers that wake up leave the zone
    alone. *)
Lemma zone_waiting_wake_timers hs : ∀ st,
  (h ∉ hs ∨ clock st < c0 + d * 60) →
  zone_waiting z d c0 h pin st →
  zone_waiting z d c0 h pin (state_of (wake_timers env hs st)) ∧
  clock (state_of (wake_timers env hs st)) = clock st.
Proof.
  induction hs as [|h' hs IH]; intros st Hcond Hw; [by split|].
  cbn [wake_timers]. rewrite !bind_gets.
  assert (Hstep : ∃ st1,
    (match tasks st !! h' with
     | Some t => if timer_due (clock st) t then zone_timer_wakes env h' else ret tt
     | None => ret tt
     end) st = (Ret tt, st1) ∧
    zone_waiting z d c0 h pin st1 ∧ clock st1 = clock st).
  { destruct (tasks st !! h') as [t|] eqn:Ht; [|by exists st].
    destruct (timer_due (clock st) t) eqn:Hdue; [|by exists st].
    assert (Hne : h' ≠ h).
    { intros ->. destruct Hcond as [Hnotin|Hearly].
      - apply Hnotin, list_elem_of_here.
      - destruct Hw as (_ & Htask & _). rewrite Htask in Ht. injection Ht as <-.
        unfold timer_due in Hdue. cbn in Hdue. lia. }
    destruct (zone_waiting_other_timer h' st Hne Hw) as [Hw1 Hc1].
    assert (Hret : returns (zone_timer_wakes env h'))
      by (unfold zone_timer_wakes; returns_auto).
    destruct (Hret st) as [[] Hr]. exists (state_of (zone_timer_wakes env h' st)).
    split; [by apply run_result|by split]. }
  destruct Hstep as (st1 & Hrun & Hw1 & Hc1).
  rewrite (bind_run _ _ _ _ _ Hrun).
  destruct (IH st1) as [Hw2 Hc2]; [|exact Hw1|].
  - destruct Hcond as [Hnotin|Hearly]; [left|right; lia].
    intros Hin. apply Hnotin. by apply list_elem_of_further.
  - split; [exact Hw2|]. by rewrite Hc2.
Qed.

Hypothesis no_fault : no_gpio_fault env.
Hypothesis nobody_calls : ∀ t, incoming env t = [].

(** The state in which the zone has been switched off by its timer. *)
Lemma stopped_wake_timers hs st :
  active_zones st !! z = None → gpio st !! pin = Some 1 →
  active_zones (state_of (wake_timers env hs st)) !! z = None ∧
  gpio (state_of (wake_timers env hs st)) !! pin = Some 1.
Proof.
  intros Haz Hg.
  apply (frame_wake_timers env
           (λ s, active_zones s !! z = None ∧ gpio s !! pin = Some 1));
    [|done|done].
  intros z' s [Ha Hgp]. split; [|by apply stop_zone_keeps_released].
  destruct (stop_zone_table env z' s) as [-> | ->]; [done|].
  destruct (decide (z' = z)) as [->|Hne];
    [apply lookup_delete_eq|by rewrite lookup_delete_ne].
Qed.

(** The timer [h] wakes up. *)
Lemma zone_waiting_own_timer st :
  zone_waiting z d c0 h pin st →
  active_zones (state_of (zone_timer_wakes env h st)) !! z = None ∧
  gpio (state_of (zone_timer_wakes env h st)) !! pin = Some 1.
Proof.
  intros (Haz & Htask & Hpin & Hown).
  unfold zone_timer_wakes. rewrite bind_gets, Htask.
  rewrite bind_modify, bind_gets. cbn [active_zones set_tasks]. rewrite Haz.
  rewrite try_stop_zone_state.
  set (st_a := set_tasks _ st).
  destruct (stop_zone_stops env no_fault z pin st_a Hpin) as (_ & Ha & Hg & _).
  split; [|exact Hg]. rewrite Ha. apply lookup_delete_eq.
Qed.

Lemma wake_timers_app hs1 hs2 st :
  state_of (wake_timers env (hs1 ++ hs2) st)
  = state_of (wake_timers env hs2 (state_of (wake_timers env hs1 st))).
Proof.
  revert st. induction hs1 as [|h' hs1 IH]; intros st; [done|].
  cbn [app wake_timers]. rewrite !bind_gets.
  set (m := match tasks st !! h' with
            | Some t => if timer_due (clock st) t then zone_timer_wakes env h'
                        else ret tt
            | None => ret tt
            end).
  assert (Hret : returns m).
  { subst m. destruct (tasks st !! h') as [t|]; [|apply returns_ret].
    destruct (timer_due (clock st) t); [|apply returns_ret].
    unfold zone_timer_wakes. returns_auto. }
  destruct (Hret st) as [[] Hr]. apply run_result in Hr.
  rewrite !(bind_run _ _ _ _ _ Hr). apply IH.
Qed.

Lemma sleep_state st :
  state_of (asyncio_sleep1 env st)
  = state_of (wake_timers env (seq 0 (length (tasks st)))
                (set_clock (clock st + 1) st)).
Proof.
  unfold asyncio_sleep1. rewrite bind_modify, bind_gets.
  cbn [tasks set_clock].
  destruct (wake_timers_returns env (seq 0 (length (tasks st)))
              (set_clock (clock st + 1) st)) as [[] Hr].
  apply run_result in Hr. rewrite (bind_run _ _ _ _ _ Hr).
  rewrite bind_gets, nobody_calls. reflexivity.
Qed.

(** One second passes before the timer is due. *)
Lemma zone_waiting_sleep st :
  clock st + 1 < c0 + d * 60 →
  zone_waiting z d c0 h pin st →
  zone_waiting z d c0 h pin (state_of (asyncio_sleep1 env st)) ∧
  clock (state_of (asyncio_sleep1 env st)) = clock st + 1.
Proof.
  intros Hearly Hw. rewrite sleep_state.
  apply zone_waiting_wake_timers; [by right|exact Hw].
Qed.

(** The second at whose end the timer is due. *)
Lemma zone_waiting_last_sleep st :
  clock st + 1 = c0 + d * 60 →
  zone_waiting z d c0 h pin st →
  active_zones (state_of (asyncio_sleep1 env st)) !! z = None ∧
  gpio (state_of (asyncio_sleep1 env st)) !! pin = Some 1.
Proof.
  intros Hdue Hw. rewrite sleep_state.
  assert (Hlt : (h < length (tasks st))%nat).
  { destruct Hw as (_ & Htask & _). by eapply lookup_lt_Some. }
  assert (Hseq : seq 0 (length (tasks st))
                 = seq 0 h ++ h :: seq (S h) (length (tasks st) - S h)).
  { replace (length (tasks st)) with (h + S (length (tasks st) - S h))%nat at 1
      by lia.
    by rewrite seq_app. }
  rewrite Hseq, wake_timers_app.
  set (st0 := set_clock (clock st + 1) st).
  assert (Hw0 : zone_waiting z d c0 h pin st0) by exact Hw.
  destruct (zone_waiting_wake_timers (seq 0 h) st0) as [Hw1 Hc1];
    [left; intros Hin%elem_of_seq; lia|exact Hw0|].
  set (st1 := state_of (wake_timers env (seq 0 h) st0)) in *.
  cbn [wake_timers]. rewrite !bind_gets.
  destruct Hw1 as (Haz1 & Htask1 & Hrest1). rewrite Htask1.
  assert (Hd : timer_due (clock st1) (Timer z (c0 + d * 60) Pending) = true).
  { unfold timer_due. cbn. rewrite Hc1. subst st0. cbn [clock set_clock]. lia. }
  rewrite Hd.
  assert (Hret : returns (zone_timer_wakes env h))
    by (unfold zone_timer_wakes; returns_auto).
  destruct (Hret st1) as [[] Hr]. apply run_result in Hr.
  rewrite (bind_run _ _ _ _ _ Hr).
  destruct (zone_waiting_own_timer st1) as [Ha Hg];
    [exact (conj Haz1 (conj Htask1 Hrest1))|].
  by apply stopped_wake_timers.
Qed.

Lemma seconds_pass_S n st :
  seconds_pass env (S n) st
  = state_of (asyncio_sleep1 env (seconds_pass env n st)).
Proof.
  unfold seconds_pass, run_calls. replace (S n) with (n + 1)%nat by lia.
  by rewrite replicate_add, foldl_app.
Qed.

Lemma zone_waiting_seconds n : ∀ st,
  clock st + Z.of_nat n < c0 + d * 60 →
  zone_waiting z d c0 h pin st →
  zone_waiting z d c0 h pin (seconds_pass env n st) ∧
  clock (seconds_pass env n st) = clock st + Z.of_nat n.
Proof.
  induction n as [|n IH]; intros st Hearly Hw.
  - split; [exact Hw|]. cbn. lia.
  - destruct (IH st) as [Hw1 Hc1]; [lia|exact Hw|].
    rewrite seconds_pass_S.
    destruct (zone_waiting_sleep (seconds_pass env n st)) as [Hw2 Hc2];
      [lia|exact Hw1|].
    split; [exact Hw2|]. lia.
Qed.
End AutoStop.

(** [start_zone] hands the zone over to a fresh timer. *)
Lemma start_zone_zone_waiting env z d st st' :
  timers_owned st →
  start_zone env z d st = (Ret true, st') →
  ∃ pin, zone_pins st !! z = Some pin ∧
         zone_waiting z d (clock st) (length (tasks st)) pin st' ∧
         clock st' = clock st.
Proof.
  intros Hown Hrun.
  destruct (start_zone_success env z d st st' Hrun) as (_ & pin & f & Hpin & ->).
  exists pin. split; [exact Hpin|].
  assert (Htasks : tasks (start_zone_effect z d pin f st)
                   = tasks (cancel_previous z st)
                     ++ [Timer z (clock st + d * 60) Pending]).
  { unfold start_zone_effect, cancel_previous. msimpl.
    destruct (active_zones st !! z); rewrite ?tasks_cancel_task; reflexivity. }
  assert (Hlen : length (tasks (cancel_previous z st)) = length (tasks st)).
  { unfold cancel_previous. destruct (active_zones st !! z); [|done].
    apply cancel_task_length. }
  assert (Hzp : zone_pins (start_zone_effect z d pin f st) = zone_pins st).
  { unfold start_zone_effect, cancel_previous. msimpl.
    destruct (active_zones st !! z); rewrite ?zone_pins_cancel_task; reflexivity. }
  assert (Hclock : clock (start_zone_effect z d pin f st) = clock st).
  { unfold start_zone_effect, cancel_previous. msimpl.
    destruct (active_zones st !! z); rewrite ?clock_cancel_task; reflexivity. }
  split; [|exact Hclock].
  split; [apply lookup_insert_eq|]. split; [|split].
  - rewrite Htasks, <- Hlen. apply list_lookup_middle. reflexivity.
  - by rewrite Hzp.
  - intros h2 t2 Ht2 Hp2. rewrite Htasks in Ht2.
    change (active_zones (start_zone_effect z d pin f st))
      with (<[z := ZoneRec (clock st) d (length (tasks st))]> (active_zones st)).
    apply lookup_app_Some in Ht2 as [Ht2|[Hge Ht2]].
    + assert (Hold : tasks st !! h2 = Some t2 ∧
                     ∀ old, active_zones st !! z = Some old → zr_task old ≠ h2).
      { unfold cancel_previous in Ht2.
        destruct (active_zones st !! z) as [old|] eqn:Hz; [|by split].
        rewrite tasks_cancel_task in Ht2.
        destruct (tasks st !! zr_task old) as [t|] eqn:Ht.
        - destruct (decide (zr_task old = h2)) as [<-|Hne].
          + rewrite list_lookup_insert_eq in Ht2 by (by eapply lookup_lt_Some).
            injection Ht2 as <-. unfold cancelled in Hp2.
            destruct (t_status t) eqn:Hs; cbn in Hp2; congruence.
          + rewrite list_lookup_insert_ne in Ht2 by done. split; [done|].
            by intros ? [= <-].
        - split; [done|]. intros old0 [= <-] Heq. rewrite Heq in Ht. congruence. }
      destruct Hold as [Ht Hnot].
      destruct (Hown h2 t2 Ht Hp2) as (r2 & Hr2 & Hh2).
      destruct (decide (z = t_zone t2)) as [Heq|Hne].
      * rewrite <- Heq in Hr2. by destruct (Hnot r2 Hr2).
      * exists r2. by rewrite lookup_insert_ne.
    + rewrite Hlen in Hge, Ht2.
      destruct (h2 - length (tasks st))%nat as [|k] eqn:Hk; [|by destruct k].
      injection Ht2 as <-. cbn [t_zone]. eexists. rewrite lookup_insert_eq.
      split; [done|]. cbn. lia.
Qed.

Lemma start_zone_success_positive env z d st st' :
  start_zone env z d st = (Ret true, st') → 0 < d.
Proof.
  unfold start_zone. msimpl.
  destruct (ps_program_running st) eqn:Hps; msimpl; [discriminate|].
  destruct (zone_pins st !! z) as [pin|] eqn:Hpin; msimpl; [|discriminate].
  destruct (load_user_settings env (set_zm_program_running false st))
    as [[settings|e] st1]; msimpl; [|discriminate].
  destruct (d <=? 0) eqn:Hd; msimpl; [discriminate|]. intros _. lia.
Qed.

(** The life of a zone after a successful [start_zone (z, d)]: it waits for
    [d * 60] seconds, the clock running, and its timer stops it at the end of
    the last of them. *)
Lemma start_zone_timeline env z d st st' :
  no_gpio_fault env →
  (∀ t, incoming env t = []) →
  timers_owned st →
  start_zone env z d st = (Ret true, st') →
  0 < d ∧
  ∃ pin, zone_pins st !! z = Some pin ∧
    (∀ k : nat, Z.of_nat k < d * 60 →
       zone_waiting z d (clock st) (length (tasks st)) pin (seconds_pass env k st') ∧
       clock (seconds_pass env k st') = clock st + Z.of_nat k) ∧
    active_zones (seconds_pass env (Z.to_nat (d * 60)) st') !! z = None ∧
    gpio (seconds_pass env (Z.to_nat (d * 60)) st') !! pin = Some 1.
Proof.
  intros no_fault quiet_env Hown Hrun.
  pose proof (start_zone_success_positive env z d st st' Hrun) as Hd.
  destruct (start_zone_zone_waiting env z d st st' Hown Hrun)
    as (pin & Hpin & Hw & Hclock).
  split; [exact Hd|]. exists pin. split; [exact Hpin|]. split.
  - intros k Hk.
    destruct (zone_waiting_seconds env z d (clock st) (length (tasks st)) pin
                quiet_env k st') as [Hw1 Hc1]; [lia|exact Hw|].
    split; [exact Hw1|]. lia.
  - assert (Hn : Z.to_nat (d * 60) = S (Z.to_nat (d * 60) - 1)) by lia.
    destruct (zone_waiting_seconds env z d (clock st) (length (tasks st)) pin
                quiet_env (Z.to_nat (d * 60) - 1) st') as [Hw1 Hc1];
      [lia|exact Hw|].
    destruct (zone_waiting_last_sleep env z d (clock st) (length (tasks st)) pin
                no_fault quiet_env
                (seconds_pass env (Z.to_nat (d * 60) - 1) st')) as [Ha Hg];
      [lia|exact Hw1|].
    rewrite Hn, seconds_pass_S. by split.
Qed.

(** X8.  With a working driver and no request coming in, a zone started by
    [start_zone (z, d)] stays active for [d * 60] seconds and is switched off
    by its timer at the end of the last of them: the zone leaves the table and
    its pin is released. *)
Theorem zone_switches_off_after_duration env z d st st' :
  no_gpio_fault env →
  (∀ t, incoming env t = []) →
  timers_owned st →
  start_zone env z d st = (Ret true, st') →
  0 < d ∧
  (∀ k : nat, Z.of_nat k < d * 60 →
     is_Some (active_zones (seconds_pass env k st') !! z)) ∧
  active_zones (seconds_pass env (Z.to_nat (d * 60)) st') !! z = None ∧
  ∃ pin, zone_pins st !! z = Some pin ∧
         gpio (seconds_pass env (Z.to_nat (d * 60)) st') !! pin = Some 1.
Proof.
  intros no_fault quiet_env Hown Hrun.
  destruct (start_zone_timeline env z d st st' no_fault quiet_env Hown Hrun)
    as (Hd & pin & Hpin & Hwait & Hoff & Hg).
  split; [exact Hd|]. split; [|split; [exact Hoff|by exists pin]].
  intros k Hk. destruct (Hwait k Hk) as [(Haz & _) _]. by eexists.
Qed.

Lemma booted_timers_owned : timers_owned booted.
Proof. intros h t Ht. change (tasks booted) with (@nil timer) in Ht. by destruct h. Qed.

Lemma start_zone0_runs :
  start_zone (june_env quiet) 0 1 booted
  = (Ret true, state_of (start_zone (june_env quiet) 0 1 booted)).
Proof. apply run_result. vm_compute. reflexivity. Qed.

Lemma zone_switches_off_after_duration_witness :
  (∀ k : nat, Z.of_nat k < 60 →
     is_Some (active_zones
                (seconds_pass (june_env quiet) k
                   (state_of (start_zone (june_env quiet) 0 1 booted))) !! 0)) ∧
  active_zones
    (seconds_pass (june_env quiet) 60
       (state_of (start_zone (june_env quiet) 0 1 booted))) !! 0 = None.
Proof.
  destruct (zone_switches_off_after_duration (june_env quiet) 0 1 booted _
              (june_env_no_gpio_fault quiet) (λ _, eq_refl) booted_timers_owned
              start_zone0_runs) as (_ & Hon & Hoff & _).
  split; [exact Hon|exact Hoff].
Defined.

(** * Settings: what is stored *)

Lemma setdefault_present k v (d : gmap string json) :
  is_Some (d !! k) → setdefault k v d = d.
Proof. intros [x Hx]. unfold setdefault. by rewrite Hx. Qed.

Lemma normalised_zone_complete i m :
  is_Some (m !! "id") → is_Some (m !! "status") →
  is_Some (m !! "pin") → is_Some (m !! "name") →
  normalised_zone i m = m.
Proof.
  intros H1 H2 H3 H4. unfold normalised_zone.
  by rewrite (setdefault_present "id"), (setdefault_present "status"),
    (setdefault_present "pin"), (setdefault_present "name").
Qed.

Lemma complete_zone_is_dict j : complete_zone j → is_dict j.
Proof. by intros (m & -> & _). Qed.

Lemma normalised_zone_is_complete i z : complete_zone (JDict (normalised_zone i z)).
Proof.
  destruct (normalised_zone_spec i z) as (H1 & H2 & H3 & H4 & _).
  exists (normalised_zone i z). split; [done|].
  rewrite H1, H2, H3, H4. by repeat split; eexists.
Qed.

(** [save_user_settings] changes nothing in a dictionary that is normal. *)
Lemma normalise_settings_fixed d :
  normal_settings d → normalise_settings d = Ret d.
Proof.
  intros [Hkeys (zs & Hzones & Hall)]. unfold normalise_settings.
  assert (Hfill : fill_missing FACTORY_SETTINGS d = d).
  { apply map_eq. intros k. rewrite fill_missing_lookup. unfold or_default.
    destruct (d !! k) eqn:Hk; [done|].
    destruct (FACTORY_SETTINGS !! k) eqn:Hf; [|done].
    destruct (Hkeys k) as [? Hd]; [by eexists|]. congruence. }
  cbv zeta. rewrite Hfill, Hzones. cbn [normalise_zones].
  destruct (fill_zones_from_dicts 0 zs) as (zs' & Hrun & Hlen & Hlook).
  { eapply Forall_impl; [exact Hall|]. apply complete_zone_is_dict. }
  rewrite Hrun.
  assert (Heq : zs' = zs).
  { apply list_eq. intros i. destruct (zs !! i) as [j|] eqn:Hi.
    - pose proof (proj1 (Forall_lookup _ _) Hall i j Hi) as (m & -> & H1 & H2 & H3 & H4).
      rewrite (Hlook i m Hi). cbn [Nat.add].
      by rewrite normalised_zone_complete.
    - apply lookup_ge_None in Hi. apply lookup_ge_None. lia. }
  rewrite Heq. f_equal. by apply insert_id.
Qed.

Lemma normalise_settings_normal d d' :
  zones_well_formed d → normalise_settings d = Ret d' → normal_settings d'.
Proof.
  intros Hwf Hn.
  destruct (normalise_settings_spec d Hwf) as (d1 & zs & zs' & Hn1 & Hz & Hd1 & Hlen & Hlook).
  rewrite Hn in Hn1. apply Ret_inj in Hn1. rewrite Hn1, Hd1. clear Hn Hn1 Hd1.
  assert (Hdicts : Forall is_dict zs).
  { unfold zones_well_formed in Hwf. unfold or_default in Hz.
    destruct (d !! "zones") as [v|] eqn:Hv.
    - apply (f_equal (default JNull)) in Hz. simpl in Hz.
      rewrite Hz in Hwf. exact Hwf.
    - destruct factory_zones_are_dicts as (fz & Hfz & Hall).
      rewrite Hfz in Hz. apply (f_equal (default JNull)) in Hz.
      simpl in Hz.
      assert (Hl : fz = zs) by congruence. rewrite <- Hl. exact Hall. }
  split.
  - intros k [v Hv]. destruct (decide (k = "zones")) as [Hk|Hne].
    + rewrite Hk, lookup_insert_eq. eexists; reflexivity.
    + rewrite lookup_insert_ne by (intros E; apply Hne; symmetry; exact E).
      rewrite fill_missing_lookup.
      unfold or_default. rewrite Hv. destruct (d !! k); eexists; reflexivity.
  - exists zs'. split; [apply lookup_insert_eq|].
    apply Forall_lookup. intros i j Hi.
    assert (is_Some (zs !! i)) as [y Hy].
    { apply lookup_lt_is_Some. rewrite <- Hlen. by eapply lookup_lt_Some. }
    pose proof (proj1 (Forall_lookup _ _) Hdicts i y Hy) as Hdict.
    destruct y as [| | | | |m]; try (by destruct Hdict).
    rewrite (Hlook i m Hy) in Hi. apply (f_equal (default JNull)) in Hi.
    simpl in Hi. rewrite <- Hi.
    apply normalised_zone_is_complete.
Qed.

Lemma factory_zone_complete n : complete_zone (factory_zone n).
Proof.
  unfold factory_zone. eexists. split; [reflexivity|].
  cbn [list_to_map foldr fst snd uncurry]. rewrite !lookup_insert.
  repeat split; repeat (case_decide; [by eexists|]); done.
Qed.

Lemma factory_settings_normal : normal_settings FACTORY_SETTINGS.
Proof.
  split; [done|]. eexists. split; [apply factory_zones|].
  cbn [fmap list_fmap].
  repeat (apply Forall_cons_2; [apply factory_zone_complete|]). apply Forall_nil_2.
Qed.

Lemma save_user_settings_normal env d st :
  normal_settings d →
  save_user_settings env (JDict d) st
  = if write_fault env SETTINGS_PATH
    then (Ret (false, JDict d),
          failed_write env SETTINGS_PATH set_settings_file st)
    else (Ret (true, JDict d), set_settings_file (Stored (JDict d)) st).
Proof.
  intros Hn. apply save_user_settings_run. by apply normalise_settings_fixed.
Qed.

(** A failed write leaves an unreadable settings file unreadable. *)
Lemma failed_write_unreadable env st :
  settings_unreadable st →
  settings_unreadable (failed_write env SETTINGS_PATH set_settings_file st).
Proof.
  intros Hun. unfold failed_write.
  destruct (write_torn env SETTINGS_PATH); [by right|exact Hun].
Qed.

(** X9.  What [save_user_settings] has stored, it stores unchanged when it is
    given the dictionary again: saving is idempotent. *)
Theorem save_user_settings_idempotent env d st d' st' :
  zones_well_formed d →
  save_user_settings env (JDict d) st = (Ret (true, JDict d'), st') →
  settings_file st' = Stored (JDict d') ∧
  save_user_settings env (JDict d') st' = (Ret (true, JDict d'), st').
Proof.
  intros Hwf.
  destruct (normalise_settings d) as [d1|e] eqn:Hn;
    [|unfold save_user_settings; rewrite Hn; discriminate].
  pose proof (normalise_settings_normal d d1 Hwf Hn) as Hnormal.
  rewrite (save_user_settings_run env d d1 st Hn).
  destruct (write_fault env SETTINGS_PATH) eqn:Hw; [discriminate|].
  intros [= <- <-]. split; [reflexivity|].
  rewrite (save_user_settings_normal env d1 _ Hnormal), Hw.
  reflexivity.
Qed.

Lemma save_user_settings_idempotent_witness :
  zones_well_formed bare_zone_settings ∧
  ∃ d',
    save_user_settings (june_env quiet) (JDict bare_zone_settings) booted
      = (Ret (true, JDict d'),
         state_of (save_user_settings (june_env quiet)
                     (JDict bare_zone_settings) booted)) ∧
    save_user_settings (june_env quiet) (JDict d')
      (state_of (save_user_settings (june_env quiet)
                   (JDict bare_zone_settings) booted))
    = (Ret (true, JDict d'),
       state_of (save_user_settings (june_env quiet)
                   (JDict bare_zone_settings) booted)).
Proof.
  split; [exact bare_zone_settings_well_formed|].
  destruct (normalise_settings_spec bare_zone_settings bare_zone_settings_well_formed)
    as (d' & zs & zs' & Hn & _).
  assert (Hrun : save_user_settings (june_env quiet) (JDict bare_zone_settings) booted
                 = (Ret (true, JDict d'),
                    state_of (save_user_settings (june_env quiet)
                                (JDict bare_zone_settings) booted))).
  { rewrite (save_user_settings_run _ _ _ _ Hn). reflexivity. }
  exists d'. split; [exact Hrun|].
  exact (proj2 (save_user_settings_idempotent _ _ _ _ _
                  bare_zone_settings_well_formed Hrun)).
Defined.

(** ** Reading settings that are not there *)

Lemma load_user_settings_factory env st :
  settings_file st = Stored (JDict FACTORY_SETTINGS) →
  load_user_settings env st = (Ret FACTORY_SETTINGS, st).
Proof.
  intros Hf. destruct (load_user_settings_readable env st _ Hf) as (d' & Hload & Hd').
  rewrite Hload. f_equal. f_equal. apply map_eq. intros k. rewrite Hd'.
  unfold or_default. by destruct (FACTORY_SETTINGS !! k).
Qed.

Lemma load_user_settings_unreadable env st :
  settings_unreadable st →
  load_user_settings env st
  = if write_fault env SETTINGS_PATH
    then (Ret FACTORY_SETTINGS,
          failed_write env SETTINGS_PATH set_settings_file st)
    else (Ret FACTORY_SETTINGS,
          set_settings_file (Stored (JDict FACTORY_SETTINGS)) st).
Proof.
  intros Hun. unfold load_user_settings, factory_reset. msimpl.
  assert (Hsave := save_user_settings_normal env FACTORY_SETTINGS st
                     factory_settings_normal).
  destruct Hun as [Hf|Hf]; rewrite Hf; msimpl; rewrite Hsave;
    destruct (write_fault env SETTINGS_PATH); reflexivity.
Qed.

(** X10.  When [user_settings.json] is missing or does not parse,
    [load_user_settings] returns the factory settings and stores them as they
    are, so that the next call reads the file and returns the same.  When the
    file cannot be written either, it still returns the factory settings; the
    file is as it was if it could not be opened and unreadable if the write
    failed later, so it stays unreadable, and nothing else changes. *)
Theorem load_user_settings_recreates_factory env st :
  settings_unreadable st →
  result_of (load_user_settings env st) = Ret FACTORY_SETTINGS ∧
  (write_fault env SETTINGS_PATH = false →
   state_of (load_user_settings env st)
     = set_settings_file (Stored (JDict FACTORY_SETTINGS)) st ∧
   load_user_settings env (state_of (load_user_settings env st))
     = (Ret FACTORY_SETTINGS, state_of (load_user_settings env st))) ∧
  (write_fault env SETTINGS_PATH = true →
   state_of (load_user_settings env st)
     = (if write_torn env SETTINGS_PATH then set_settings_file Corrupt st
        else st) ∧
   settings_unreadable (state_of (load_user_settings env st))).
Proof.
  intros Hun. rewrite (load_user_settings_unreadable env st Hun).
  destruct (write_fault env SETTINGS_PATH).
  - split; [reflexivity|]. split; [intros [=]|]. intros _.
    split; [reflexivity|]. by apply failed_write_unreadable.
  - split; [reflexivity|]. split; [|intros [=]]. intros _.
    split; [reflexivity|]. by apply load_user_settings_factory.
Qed.

Lemma first_boot_unreadable : settings_unreadable first_boot.
Proof. left. reflexivity. Defined.

Lemma load_user_settings_recreates_factory_witness :
  settings_unreadable first_boot ∧
  result_of (load_user_settings (june_env quiet) first_boot) = Ret FACTORY_SETTINGS ∧
  state_of (load_user_settings (june_env quiet) first_boot)
    = set_settings_file (Stored (JDict FACTORY_SETTINGS)) first_boot.
Proof.
  split; [exact first_boot_unreadable|].
  destruct (load_user_settings_recreates_factory (june_env quiet) first_boot
              first_boot_unreadable) as (Hres & Hok & _).
  split; [exact Hres|]. exact (proj1 (Hok eq_refl)).
Defined.

(** ** Resets *)

(** X11.  [reset_user_settings], [factory_reset] and the route
    [/reset_settings] report success whatever happens.  When the file cannot
    be written they still answer [True] (status 200): the file is as it was
    if it could not be opened, and unreadable if the write failed after
    that; nothing else changes.  Otherwise the file holds the factory
    settings. *)
Theorem reset_user_settings_reports_success env st :
  result_of (reset_user_settings env st) = Ret true ∧
  result_of (factory_reset env st) = Ret true ∧
  result_of (reset_settings_route env st) = Ret (Response 200 true) ∧
  state_of (reset_user_settings env st)
    = (if write_fault env SETTINGS_PATH
       then (if write_torn env SETTINGS_PATH then set_settings_file Corrupt st
             else st)
       else set_settings_file (Stored (JDict FACTORY_SETTINGS)) st) ∧
  state_of (reset_settings_route env st) = state_of (reset_user_settings env st).
Proof.
  unfold reset_settings_route, reset_user_settings, factory_reset. msimpl.
  rewrite (save_user_settings_normal env FACTORY_SETTINGS st factory_settings_normal).
  by destruct (write_fault env SETTINGS_PATH).
Qed.

(** X12.  [reset_factory_data] returns [True] exactly when [program.json] and
    [program_state.json] could be written, whether or not the settings were;
    then the store is empty and the run state idle.  A failure leaves what was
    written before it, and [/reset_factory_data] answers 500.  Neither the
    zone table, nor the outputs, nor the timers, nor the flags of a running
    program are touched. *)
Theorem reset_factory_data_effect env st :
  result_of (reset_factory_data env st)
    = Ret (negb (write_fault env PROGRAM_FILE)
           && negb (write_fault env PROGRAM_STATE_FILE)) ∧
  result_of (reset_factory_data_route env st)
    = Ret (if negb (write_fault env PROGRAM_FILE)
              && negb (write_fault env PROGRAM_STATE_FILE)
           then Response 200 true else server_error) ∧
  state_of (reset_factory_data_route env st)
    = state_of (reset_factory_data env st) ∧
  (result_of (reset_factory_data env st) = Ret true →
   programs_file (state_of (reset_factory_data env st)) = Stored [] ∧
   state_file (state_of (reset_factory_data env st))
     = Stored (StateDoc (Some false) None)) ∧
  (write_fault env SETTINGS_PATH = false →
   settings_file (state_of (reset_factory_data env st))
     = Stored (JDict FACTORY_SETTINGS)) ∧
  (write_fault env PROGRAM_FILE = false →
   programs_file (state_of (reset_factory_data env st)) = Stored []) ∧
  active_zones (state_of (reset_factory_data env st)) = active_zones st ∧
  gpio (state_of (reset_factory_data env st)) = gpio st ∧
  tasks (state_of (reset_factory_data env st)) = tasks st ∧
  pm_program_running (state_of (reset_factory_data env st)) = pm_program_running st ∧
  ps_program_running (state_of (reset_factory_data env st)) = ps_program_running st.
Proof.
  unfold reset_factory_data_route, reset_factory_data, reset_user_settings,
    write_file, failed_write. msimpl.
  rewrite (save_user_settings_normal env FACTORY_SETTINGS st factory_settings_normal).
  unfold failed_write.
  destruct (write_fault env SETTINGS_PATH), (write_torn env SETTINGS_PATH),
    (write_fault env PROGRAM_FILE), (write_torn env PROGRAM_FILE),
    (write_fault env PROGRAM_STATE_FILE), (write_torn env PROGRAM_STATE_FILE);
    msimpl; repeat (split || intro); try reflexivity; discriminate.
Qed.

(** * Settings: the routes that change them *)

(** ** Switching the scheduler *)

Lemma loaded_zones_well_formed d d1 :
  zones_well_formed d →
  (∀ k, d1 !! k = or_default d FACTORY_SETTINGS k) →
  ∀ k v, k ≠ "zones" → zones_well_formed (<[k := v]> d1).
Proof.
  intros Hwf Hd1 k v Hk. unfold zones_well_formed in *.
  rewrite lookup_insert_ne by exact Hk. rewrite Hd1. unfold or_default.
  destruct (d !! "zones") as [zs|] eqn:Hz; [exact Hwf|].
  destruct factory_zones_are_dicts as (fz & Hfz & Hall). rewrite Hfz. exact Hall.
Qed.

Lemma toggle_stores_flag env st d data :
  settings_file st = Stored (JDict d) →
  zones_well_formed d →
  write_fault env SETTINGS_PATH = false →
  ∃ d', toggle_automatic_programs env (JDict data) st
          = (Ret (Response 200 true), set_settings_file (Stored (JDict d')) st) ∧
        d' !! "automatic_programs_enabled"
          = Some (dict_get "enable" (JBool false) data).
Proof.
  intros Hf Hwf Hw.
  destruct (load_user_settings_readable env st d Hf) as (d1 & Hload & Hd1).
  set (e := dict_get "enable" (JBool false) data).
  assert (Hwf1 : zones_well_formed (<["automatic_programs_enabled" := e]> d1)).
  { apply (loaded_zones_well_formed d); [exact Hwf|exact Hd1|].
    intros E. apply (f_equal String.length) in E. cbn in E. lia. }
  destruct (normalise_settings_spec _ Hwf1) as (d' & zs & zs' & Hn & _ & Hd' & _).
  exists d'. split.
  - unfold toggle_automatic_programs. fold e.
    unfold try_except. rewrite (bind_run _ _ _ _ _ Hload).
    unfold bind, save_user_settings, write_file. rewrite Hn, Hw. reflexivity.
  - rewrite Hd'. rewrite lookup_insert_ne
      by (intros E; apply (f_equal String.length) in E; cbn in E; lia).
    rewrite fill_missing_lookup. unfold or_default.
    rewrite lookup_insert_eq. reflexivity.
Qed.

(** X13.  Once [/toggle_automatic_programs] has stored a flag that counts as
    false (a request without [enable] stores [False]), [check_programs]
    starts nothing: it returns and leaves the state as it is. *)
Theorem toggle_off_stops_scheduler env st d data :
  settings_file st = Stored (JDict d) →
  zones_well_formed d →
  write_fault env SETTINGS_PATH = false →
  py_truthy (dict_get "enable" (JBool false) data) = false →
  result_of (toggle_automatic_programs env (JDict data) st)
    = Ret (Response 200 true) ∧
  check_programs env (state_of (toggle_automatic_programs env (JDict data) st))
    = (Ret tt, state_of (toggle_automatic_programs env (JDict data) st)).
Proof.
  intros Hf Hwf Hw Hoff.
  destruct (toggle_stores_flag env st d data Hf Hwf Hw) as (d' & Hrun & Hflag).
  rewrite Hrun. split; [reflexivity|]. cbn [state_of snd].
  destruct (load_user_settings_readable env
              (set_settings_file (Stored (JDict d')) st) d' eq_refl)
    as (d2 & Hload & Hd2).
  unfold check_programs. rewrite (bind_run _ _ _ _ _ Hload).
  unfold dict_get at 1. rewrite Hd2. unfold or_default. rewrite Hflag.
  cbn [default from_option id]. rewrite Hoff. reflexivity.
Qed.

Lemma booted_zones_well_formed :
  zones_well_formed
    (<["zones" := JList (factory_zone <$> [0; 1; 2])]>
       (<["activation_delay" := JInt 1]>
          (<["automatic_programs_enabled" := JBool true]> ∅))).
Proof.
  unfold zones_well_formed. rewrite lookup_insert_eq. cbn [fmap list_fmap].
  repeat (apply Forall_cons_2; [exact I|]). apply Forall_nil_2.
Qed.

Lemma toggle_off_stops_scheduler_witness :
  settings_file booted = Stored small_settings ∧
  write_fault (june_env quiet) SETTINGS_PATH = false ∧
  py_truthy (dict_get "enable" (JBool false) ∅) = false ∧
  check_programs (june_env quiet)
    (state_of (toggle_automatic_programs (june_env quiet) (JDict ∅) booted))
  = (Ret tt, state_of (toggle_automatic_programs (june_env quiet) (JDict ∅) booted)).
Proof.
  split; [reflexivity|]. split; [reflexivity|]. split; [reflexivity|].
  exact (proj2 (toggle_off_stops_scheduler (june_env quiet) booted _ ∅
                  eq_refl booted_zones_well_formed eq_refl eq_refl)).
Defined.

(** X14.  [/toggle_automatic_programs] does not look at the result of
    [save_user_settings]: when the file cannot be written it answers 200 with
    [success] all the same.  The flag is not stored: the file is as it was if
    it could not be opened, and unreadable, the stored settings being lost,
    if the write failed after that.  Nothing else changes. *)
Theorem toggle_reports_success_unwritten env st d data :
  settings_file st = Stored (JDict d) →
  zones_well_formed d →
  write_fault env SETTINGS_PATH = true →
  toggle_automatic_programs env (JDict data) st
  = (Ret (Response 200 true),
     if write_torn env SETTINGS_PATH then set_settings_file Corrupt st else st).
Proof.
  intros Hf Hwf Hw.
  destruct (load_user_settings_readable env st d Hf) as (d1 & Hload & Hd1).
  set (e := dict_get "enable" (JBool false) data).
  assert (Hwf1 : zones_well_formed (<["automatic_programs_enabled" := e]> d1)).
  { apply (loaded_zones_well_formed d); [exact Hwf|exact Hd1|].
    intros E. apply (f_equal String.length) in E. cbn in E. lia. }
  destruct (normalise_settings_spec _ Hwf1) as (d' & zs & zs' & Hn & _).
  unfold toggle_automatic_programs. fold e.
  unfold try_except. rewrite (bind_run _ _ _ _ _ Hload).
  unfold bind. rewrite (save_user_settings_run env _ d' st Hn), Hw.
  reflexivity.
Qed.

Lemma toggle_reports_success_unwritten_witness :
  write_fault (readonly_settings_env true) SETTINGS_PATH = true ∧
  toggle_automatic_programs (readonly_settings_env true)
    (JDict {[ "enable" := JBool false ]}) booted
  = (Ret (Response 200 true), set_settings_file Corrupt booted) ∧
  toggle_automatic_programs (readonly_settings_env false)
    (JDict {[ "enable" := JBool false ]}) booted
  = (Ret (Response 200 true), booted).
Proof.
  split; [reflexivity|]. split.
  - exact (toggle_reports_success_unwritten (readonly_settings_env true) booted
             _ _ eq_refl booted_zones_well_formed eq_refl).
  - exact (toggle_reports_success_unwritten (readonly_settings_env false) booted
             _ _ eq_refl booted_zones_well_formed eq_refl).
Defined.

(** ** The merge loop of [/save_user_settings] *)

Lemma merge_setting_lookup e k v j :
  merge_setting e k v !! j
  = if decide (k = j) then merged_value (e !! k) (Some v) else e !! j.
Proof.
  unfold merge_setting, merged_value.
  destruct v as [| | | | |dv]; try (rewrite lookup_insert; by case_decide).
  destruct (e !! k) as [[| | | | |ev]|] eqn:Hk;
    rewrite lookup_insert; by case_decide.
Qed.

Lemma merge_list_lookup (l : list (string * json)) : ∀ e j,
  NoDup l.*1 →
  foldl (λ acc kv, merge_setting acc kv.1 kv.2) e l !! j
  = merged_value (e !! j) ((list_to_map l : gmap string json) !! j).
Proof.
  induction l as [|[k v] l IH]; intros e j Hnd; [done|].
  apply NoDup_cons in Hnd as [Hk Hnd]. cbn [foldl fst snd list_to_map foldr uncurry].
  rewrite IH by done. rewrite merge_setting_lookup, lookup_insert.
  destruct (decide (k = j)) as [->|Hne]; [|done].
  by rewrite (not_elem_of_list_to_map_1 (M := gmap string)).
Qed.

Lemma merge_settings_lookup e d j :
  merge_settings e d !! j = merged_value (e !! j) (d !! j).
Proof.
  unfold merge_settings. rewrite merge_list_lookup by apply NoDup_fst_map_to_list.
  by rewrite list_to_map_to_list.
Qed.

(** X15.  The merge loop of [/save_user_settings]: a key that the request does
    not mention keeps its value; a value that is not an object, or that meets
    no stored object, replaces what was stored; an object sent for a key that
    holds an object is merged into it, the sent entries winning and the
    stored entries that the request does not mention staying.  Merging the
    same request twice changes nothing more. *)
Theorem merge_settings_spec e d :
  (∀ k, d !! k = None → merge_settings e d !! k = e !! k) ∧
  (∀ k v, d !! k = Some v → ¬ is_dict v → merge_settings e d !! k = Some v) ∧
  (∀ k v, d !! k = Some v → (∀ ev, e !! k ≠ Some (JDict ev)) →
          merge_settings e d !! k = Some v) ∧
  (∀ k dv ev, d !! k = Some (JDict dv) → e !! k = Some (JDict ev) →
     ∃ r, merge_settings e d !! k = Some (JDict r) ∧
          (∀ j x, dv !! j = Some x → r !! j = Some x) ∧
          (∀ j, dv !! j = None → r !! j = ev !! j)) ∧
  merge_settings (merge_settings e d) d = merge_settings e d.
Proof.
  split; [|split; [|split; [|split]]].
  - intros k Hk. by rewrite merge_settings_lookup, Hk.
  - intros k v Hk Hv. rewrite merge_settings_lookup, Hk.
    by destruct v as [| | | | |dv]; [..|destruct Hv].
  - intros k v Hk He. rewrite merge_settings_lookup, Hk.
    destruct v as [| | | | |dv]; try done. cbn.
    destruct (e !! k) as [[| | | | |ev]|] eqn:Hek; try done.
    by destruct (He ev).
  - intros k dv ev Hk He. rewrite merge_settings_lookup, Hk, He. cbn.
    exists (dv ∪ ev). split; [done|]. split.
    + intros j x Hj. by apply lookup_union_Some_l.
    + intros j Hj. by rewrite lookup_union_r.
  - apply map_eq. intros k. rewrite !merge_settings_lookup.
    destruct (d !! k) as [[| | | | |dv]|]; try done. cbn.
    destruct (e !! k) as [[| | | | |ev]|]; try done.
    all: do 2 f_equal; apply map_eq; intros j; rewrite !lookup_union;
      repeat match goal with |- context [?m !! j] => destruct (m !! j) end;
      done.
Qed.

(** * Start-up: [initialize_pins] *)

Lemma set_gpio_id st : set_gpio (gpio st) st = st.
Proof. by destruct st. Qed.

Lemma released_insert (g : gmap Z Z) p q :
  g !! q = Some 1 → (<[p := 1]> g) !! q = Some 1.
Proof.
  intros Hg. destruct (decide (p = q)) as [->|Hne].
  - apply lookup_insert_eq.
  - by rewrite lookup_insert_ne.
Qed.

Lemma dict_nonempty {V} (m : gmap string V) k v :
  m !! k = Some v → dict_empty m = false.
Proof.
  intros Hk. unfold dict_empty. apply bool_decide_eq_false_2.
  intros Hsz. apply map_size_empty_iff in Hsz. subst m.
  by rewrite lookup_empty in Hk.
Qed.

(** The dictionary that [load_user_settings] returns always has the key
    [max_zone_duration], so the test [if not settings] never fires. *)
Lemma load_user_settings_nonempty env st settings st1 :
  load_user_settings env st = (Ret settings, st1) →
  dict_empty settings = false.
Proof.
  intros Hload.
  assert (Hk : is_Some (FACTORY_SETTINGS !! "max_zone_duration")).
  { rewrite factory_lookup. eexists. reflexivity. }
  destruct Hk as [v Hv].
  destruct (settings_file st) as [| |[| | | | |d]] eqn:Hf.
  1,2: rewrite load_user_settings_unreadable in Hload
         by (unfold settings_unreadable; rewrite Hf; auto);
       destruct (write_fault env SETTINGS_PATH);
       apply (f_equal fst) in Hload; cbn [fst] in Hload; apply Ret_inj in Hload;
       rewrite <- Hload; exact (dict_nonempty _ _ _ Hv).
  1-5: unfold load_user_settings, try_except, bind, gets in Hload;
       rewrite Hf in Hload; cbn in Hload; apply (f_equal fst) in Hload;
       cbn [fst] in Hload; exfalso; revert Hload; clear; intros H;
       exact (eq_ind (Raise AttributeError : outcome (gmap string json))
                (λ o, match o with Raise _ => True | Ret _ => False end) I _ H).
  destruct (load_user_settings_readable env st d Hf) as (d' & Hrun & Hd').
  rewrite Hrun in Hload. apply (f_equal fst) in Hload. cbn [fst] in Hload.
  apply Ret_inj in Hload. rewrite <- Hload.
  specialize (Hd' "max_zone_duration"). unfold or_default in Hd'.
  destruct (d !! "max_zone_duration") as [w|].
  - exact (dict_nonempty _ _ _ Hd').
  - rewrite Hv in Hd'. exact (dict_nonempty _ _ _ Hd').
Qed.

Section InitializePins.
Variable env : Env.

(** What one turn of the zone loop can do when it goes on to the next zone:
    nothing at all, or one write of level 1 to a pin whose driver works, with
    or without an entry for that pin in the table. *)
Lemma init_zone_step (zone : gmap string json) (pin_number : json)
    (pins : gmap Z Z) (n : Z) st r st1 :
  try_except
    (pin <- lift (py_int pin_number);;
     pin_write env pin 1;;
     match zone !! "id" with
     | None => raise KeyError
     | Some id =>
         key <- lift (zone_key id);;
         ret (match key with
              | Some k => <[k := pin]> pins
              | None => pins
              end, n + 1)
     end)
    (λ _, match zone !! "id" with
          | None => raise KeyError
          | Some _ => ret (pins, n)
          end) st = (Ret r, st1) →
  (st1 = st ∧ r.1 = pins) ∨
  (∃ pin, gpio_fault env pin = false ∧
          st1 = set_gpio (<[pin := 1]> (gpio st)) st ∧
          (r.1 = pins ∨ ∃ k, r.1 = <[k := pin]> pins)).
Proof.
  unfold pin_write. msimpl.
  destruct (zone !! "id") as [id|]; msimpl.
  - destruct (py_int pin_number) as [pin|]; msimpl;
      [|intros [= <- <-]; by left].
    destruct (gpio_fault env pin) eqn:Hfault; msimpl;
      [intros [= <- <-]; by left|].
    destruct (zone_key id) as [[k|]|]; msimpl; intros [= <- <-];
      right; exists pin; (split; [done|]); (split; [done|]); cbn; eauto.
  - destruct (py_int pin_number) as [pin|]; msimpl; [|discriminate].
    destruct (gpio_fault env pin) eqn:Hfault; msimpl; discriminate.
Qed.

Lemma init_zone_pins_released zones : ∀ pins n st r st1,
  init_zone_pins env zones pins n st = (Ret r, st1) →
  (∀ z p, pins !! z = Some p → gpio st !! p = Some 1 ∧ gpio_fault env p = false) →
  (∀ z p, r.1 !! z = Some p → gpio st1 !! p = Some 1 ∧ gpio_fault env p = false) ∧
  (∀ q, gpio st !! q = Some 1 → gpio st1 !! q = Some 1) ∧
  st1 = set_gpio (gpio st1) st.
Proof.
  induction zones as [|zone zones IH]; intros pins n st r st1 Hrun Hpins.
  - cbn in Hrun. injection Hrun as <- <-. split; [exact Hpins|].
    split; [done|]. by rewrite set_gpio_id.
  - cbn [init_zone_pins] in Hrun.
    destruct zone as [| | | | |zone]; try discriminate.
    assert (Hskip : init_zone_pins env zones pins n st = (Ret r, st1) →
      (∀ z p, r.1 !! z = Some p → gpio st1 !! p = Some 1 ∧ gpio_fault env p = false) ∧
      (∀ q, gpio st !! q = Some 1 → gpio st1 !! q = Some 1) ∧
      st1 = set_gpio (gpio st1) st).
    { intros H. by apply (IH pins n st). }
    destruct (zone !! "pin") as [pin_number|] eqn:Hpn; [|by apply Hskip].
    assert (Hgo :
      bind (try_except
              (pin <- lift (py_int pin_number);;
               pin_write env pin 1;;
               match zone !! "id" with
               | None => raise KeyError
               | Some id =>
                   key <- lift (zone_key id);;
                   ret (match key with
                        | Some k => <[k := pin]> pins
                        | None => pins
                        end, n + 1)
               end)
              (λ _, match zone !! "id" with
                    | None => raise KeyError
                    | Some _ => ret (pins, n)
                    end))
           (λ r0, init_zone_pins env zones r0.1 r0.2) st = (Ret r, st1) →
      (∀ z p, r.1 !! z = Some p → gpio st1 !! p = Some 1 ∧ gpio_fault env p = false) ∧
      (∀ q, gpio st !! q = Some 1 → gpio st1 !! q = Some 1) ∧
      st1 = set_gpio (gpio st1) st).
    { clear Hrun Hskip.
      intros (r0 & st0 & Hstep & Hrest)%bind_inv.
      destruct (init_zone_step zone pin_number pins n st r0 st0 Hstep)
        as [[-> Hr0]|(pin & Hfault & -> & Hr0)].
      - apply (IH r0.1 r0.2 st r st1 Hrest). by rewrite Hr0.
      - destruct (IH r0.1 r0.2 _ r st1 Hrest) as (H1 & H2 & H3).
        + intros z p Hz. cbn [gpio set_gpio].
          destruct Hr0 as [Hr0|[k Hr0]]; rewrite Hr0 in Hz.
          * destruct (Hpins z p Hz) as [Hg Hf]. split; [|done].
            by apply released_insert.
          * destruct (decide (k = z)) as [->|Hne].
            -- rewrite lookup_insert_eq in Hz. injection Hz as <-.
               split; [apply lookup_insert_eq|done].
            -- rewrite lookup_insert_ne in Hz by done.
               destruct (Hpins z p Hz) as [Hg Hf]. split; [|done].
               by apply released_insert.
        + split; [exact H1|]. split.
          * intros q Hq. apply H2. cbn [gpio set_gpio]. by apply released_insert.
          * rewrite H3 at 1. reflexivity. }
    destruct pin_number; first [by apply Hgo | by apply Hskip].
Qed.

Lemma init_safety_relay_released settings st o st1 :
  init_safety_relay env settings st = (Ret o, st1) →
  (∀ rpin, o = Some rpin → gpio st1 !! rpin = Some 1) ∧
  (∀ q, gpio st !! q = Some 1 → gpio st1 !! q = Some 1) ∧
  st1 = set_gpio (gpio st1) st.
Proof.
  unfold init_safety_relay, pin_write.
  destruct (dict_get "safety_relay" (JDict ∅) settings) as [| | | | |relay];
    try discriminate.
  assert (Hnone : ret None st = (Ret o, st1) →
    (∀ rpin, o = Some rpin → gpio st1 !! rpin = Some 1) ∧
    (∀ q, gpio st !! q = Some 1 → gpio st1 !! q = Some 1) ∧
    st1 = set_gpio (gpio st1) st).
  { intros [= <- <-]. split; [discriminate|]. split; [done|].
    by rewrite set_gpio_id. }
  destruct (relay !! "pin") as [pn|]; [|exact Hnone].
  assert (Hgo :
    try_except
      (pin <- lift (py_int pn);;
       (if gpio_fault env pin then raise OSError
        else modify (λ st0, set_gpio (<[pin := 1]> (gpio st0)) st0));;
       ret (Some pin))
      (λ _, ret None) st = (Ret o, st1) →
    (∀ rpin, o = Some rpin → gpio st1 !! rpin = Some 1) ∧
    (∀ q, gpio st !! q = Some 1 → gpio st1 !! q = Some 1) ∧
    st1 = set_gpio (gpio st1) st).
  { msimpl. destruct (py_int pn) as [pin|]; msimpl; [|exact Hnone].
    destruct (gpio_fault env pin); msimpl; [exact Hnone|].
    intros [= <- <-]. cbn [gpio set_gpio]. split; [|split; [|done]].
    - intros rpin [= <-]. apply lookup_insert_eq.
    - intros q Hq. by apply released_insert. }
  destruct pn; first [exact Hgo | exact Hnone].
Qed.

(** X16.  Whatever the settings hold, a call of [initialize_pins] that returns
    leaves every output it has registered released: each pin of the new zone
    table, and the pin of the safety relay, is at level 1 and answered its
    driver.  The table of active zones and the timers are as they were. *)
Theorem initialize_pins_releases_outputs st b st' :
  initialize_pins env st = (Ret b, st') →
  (∀ z pin, zone_pins st' !! z = Some pin →
            gpio st' !! pin = Some 1 ∧ gpio_fault env pin = false) ∧
  (∀ rpin, safety_relay st' = Some rpin → gpio st' !! rpin = Some 1) ∧
  active_zones st' = active_zones st ∧
  tasks st' = tasks st.
Proof.
  unfold initialize_pins.
  intros (settings & s1 & Hload & Hrun)%bind_inv.
  assert (Hne := load_user_settings_nonempty env st settings s1 Hload).
  rewrite Hne in Hrun.
  apply bind_inv in Hrun as (zones & s2 & Hz & Hrun).
  unfold lift in Hz. injection Hz as Hz <-.
  apply bind_inv in Hrun as (r & s3 & Hzones & Hrun).
  apply bind_inv in Hrun as (o & s4 & Hrelay & Hrun).
  rewrite bind_modify in Hrun. injection Hrun as <- <-.
  destruct (init_zone_pins_released zones ∅ 0 s1 r s3 Hzones) as (Hp & Hk & Hs3).
  { intros z p. by rewrite lookup_empty. }
  destruct (init_safety_relay_released settings s3 o s4 Hrelay) as (Hr & Hk' & Hs4).
  destruct (load_user_settings_state env st) as [f Hf].
  rewrite Hload in Hf. cbn [state_of snd] in Hf.
  cbn [zone_pins safety_relay set_pins gpio active_zones tasks].
  split; [|split; [|split]].
  - intros z pin Hz'. destruct (Hp z pin Hz') as [Hg Hfault]. split; [|done].
    by apply Hk'.
  - intros rpin ->. by apply Hr.
  - rewrite Hs4, Hs3, Hf. reflexivity.
  - rewrite Hs4, Hs3, Hf. reflexivity.
Qed.
Lemma init_zone_pins_wired zs wiring :
  no_gpio_fault env →
  Forall2 wired zs wiring →
  ∀ pins n st,
    init_zone_pins env zs pins n st
    = (Ret (foldl (λ pins w, <[w.1 := w.2]> pins) pins wiring,
            n + Z.of_nat (length wiring)),
       set_gpio (foldl (λ g w, <[w.2 := 1]> g) (gpio st) wiring) st).
Proof.
  intros Hno Hw. induction Hw as [|j w zs wiring (m & -> & Hid & Hpin) _ IH];
    intros pins n st.
  - cbn. by rewrite set_gpio_id, Z.add_0_r.
  - cbn [init_zone_pins]. rewrite Hpin.
    unfold try_except, bind, lift, py_int, pin_write. rewrite Hno, Hid.
    cbn [modify zone_key ret fst snd]. rewrite IH. cbn [foldl length gpio set_gpio].
    do 2 f_equal. f_equal. lia.
Qed.

(** X17.  With settings that give every zone a number and a pin, and the safety
    relay a pin, and no driver fault, [initialize_pins] returns: it answers
    whether there is a zone at all, registers every zone under its pin (a
    later entry for the same zone replacing an earlier one) and the relay,
    and has written level 1 to each of these pins; nothing else changes. *)
Theorem initialize_pins_wires st d wiring rpin :
  no_gpio_fault env →
  settings_file st = Stored (JDict d) →
  settings_wired d wiring rpin →
  initialize_pins env st
  = (Ret (bool_decide (wiring ≠ [])),
     set_pins (pins_of wiring) (Some rpin)
       (set_gpio (<[rpin := 1]> (foldl (λ g w, <[w.2 := 1]> g) (gpio st) wiring))
          st)).
Proof.
  intros Hno Hf ((zs & Hzs & Hw) & relay & Hrelay & Hrpin).
  destruct (load_user_settings_readable env st d Hf) as (d1 & Hload & Hd1).
  assert (Hz1 : d1 !! "zones" = Some (JList zs)).
  { rewrite Hd1. unfold or_default. by rewrite Hzs. }
  assert (Hr1 : d1 !! "safety_relay" = Some (JDict relay)).
  { rewrite Hd1. unfold or_default. by rewrite Hrelay. }
  unfold initialize_pins. rewrite (bind_run _ _ _ _ _ Hload).
  rewrite (dict_nonempty _ _ _ Hz1).
  unfold dict_get at 1. rewrite Hz1. cbn [default from_option id py_iter].
  unfold lift at 1. rewrite (bind_run _ _ _ _ _ (eq_refl : ret zs st = (Ret zs, st))).
  rewrite (bind_run _ _ _ _ _ (init_zone_pins_wired zs wiring Hno Hw ∅ 0 st)).
  unfold init_safety_relay, dict_get. rewrite Hr1. cbn [default from_option id].
  rewrite Hrpin. unfold try_except, bind, lift, py_int, pin_write. rewrite Hno.
  cbn [modify ret fst snd gpio set_gpio].
  assert (Hb : (0 + Z.of_nat (length wiring) >? 0) = bool_decide (wiring ≠ [])).
  { destruct wiring as [|w wiring]; [reflexivity|].
    rewrite bool_decide_eq_true_2 by discriminate. cbn [length].
    apply Z.gtb_lt. lia. }
  unfold ret. rewrite Hb. reflexivity.
Qed.
End InitializePins.

Lemma power_on_wired :
  settings_wired
    (<["safety_relay" := JDict {[ "pin" := JInt 13 ]}]>
       (<["zones" := JList (factory_zone <$> [0; 1; 2])]> ∅))
    [(0, 14); (1, 15); (2, 16)] 13.
Proof.
  split.
  - eexists. split; [reflexivity|]. cbn [fmap list_fmap].
    repeat (constructor;
            [eexists; split; [reflexivity|]; split; vm_compute; reflexivity|]).
    constructor.
  - eexists. split; reflexivity.
Qed.

Lemma initialize_pins_wires_witness :
  initialize_pins (june_env quiet) power_on
  = (Ret true,
     set_pins (pins_of [(0, 14); (1, 15); (2, 16)]) (Some 13)
       (set_gpio (<[13 := 1]> (<[16 := 1]> (<[15 := 1]> (<[14 := 1]> ∅)))) power_on)).
Proof.
  exact (initialize_pins_wires (june_env quiet) power_on _ _ 13
           (june_env_no_gpio_fault quiet) eq_refl power_on_wired).
Defined.

Lemma initialize_pins_releases_outputs_witness :
  (∀ z pin,
     zone_pins (state_of (initialize_pins (june_env quiet) power_on)) !! z = Some pin →
     gpio (state_of (initialize_pins (june_env quiet) power_on)) !! pin = Some 1 ∧
     gpio_fault (june_env quiet) pin = false) ∧
  (∀ rpin,
     safety_relay (state_of (initialize_pins (june_env quiet) power_on)) = Some rpin →
     gpio (state_of (initialize_pins (june_env quiet) power_on)) !! rpin = Some 1) ∧
  active_zones (state_of (initialize_pins (june_env quiet) power_on))
    = active_zones power_on ∧
  tasks (state_of (initialize_pins (june_env quiet) power_on)) = tasks power_on.
Proof.
  refine (initialize_pins_releases_outputs (june_env quiet) power_on true _ _).
  apply run_result. vm_compute. reflexivity.
Defined.

(** * The run state: module [program_state] and its readers *)

Lemma load_program_state_run env st :
  load_program_state env st
  = match state_file st with
    | Stored (StateObject doc) =>
        (Ret tt, set_ps (default false (sd_program_running doc))
                        (sd_current_program_id doc) st)
    | Stored StateOther => (Raise AttributeError, st)
    | _ =>
        (Ret tt,
         if write_fault env PROGRAM_STATE_FILE
         then failed_write env PROGRAM_STATE_FILE set_state_file
                (set_ps false None st)
         else set_state_file (Stored (StateDoc (Some false) None))
                (set_ps false None st))
    end.
Proof.
  unfold load_program_state, try_except, bind, gets.
  destruct (state_file st) as [| |[doc|]]; try reflexivity.
  all: cbn [raise modify]; by rewrite save_program_state_run.
Qed.

(** X18.  What [save_program_state] has written, [load_program_state] reads
    back: whatever the two variables of module [program_state] have become in
    between (a restart clears them), the load restores the saved values and
    leaves the file as it is. *)
Theorem program_state_round_trip env st r c :
  write_fault env PROGRAM_STATE_FILE = false →
  load_program_state env (set_ps r c (state_of (save_program_state env st)))
  = (Ret tt, state_of (save_program_state env st)).
Proof.
  intros Hw. rewrite save_program_state_run, Hw. cbn [state_of snd].
  rewrite load_program_state_run. cbn. by destruct st.
Qed.

Lemma program_state_round_trip_witness :
  write_fault (june_env quiet) PROGRAM_STATE_FILE = false ∧
  load_program_state (june_env quiet)
    (set_ps false None
       (state_of (save_program_state (june_env quiet) (set_ps true (Some "1") booted))))
  = (Ret tt,
     state_of (save_program_state (june_env quiet) (set_ps true (Some "1") booted))).
Proof.
  split; [reflexivity|].
  exact (program_state_round_trip (june_env quiet) (set_ps true (Some "1") booted)
           false None eq_refl).
Defined.

(** X19.  [load_program_state] raises in one case only: when
    [program_state.json] parses to something that is not an object, the
    [AttributeError] of [state.get] leaves the function, and nothing has
    changed.  When the file is missing or does not parse, the two variables
    are reset to idle and an idle state is written; if that write fails, the
    file is as it was when it could not be opened and unreadable when the
    failure came later.  When the file holds an object, it is left alone and
    the variables take its values, a missing [program_running] counting as
    [False]. *)
Theorem load_program_state_recovers env st :
  (state_file st = Stored StateOther →
   load_program_state env st = (Raise AttributeError, st)) ∧
  (state_file st ≠ Stored StateOther →
   result_of (load_program_state env st) = Ret tt) ∧
  (state_file st = Missing ∨ state_file st = Corrupt →
   ps_program_running (state_of (load_program_state env st)) = false ∧
   ps_current_program_id (state_of (load_program_state env st)) = None ∧
   state_file (state_of (load_program_state env st))
   = if write_fault env PROGRAM_STATE_FILE
     then (if write_torn env PROGRAM_STATE_FILE then Corrupt else state_file st)
     else Stored (StateDoc (Some false) None)) ∧
  (∀ doc : state_doc, state_file st = Stored doc →
   ps_program_running (state_of (load_program_state env st))
   = default false (sd_program_running doc) ∧
   ps_current_program_id (state_of (load_program_state env st))
   = sd_current_program_id doc ∧
   state_file (state_of (load_program_state env st)) = Stored doc).
Proof.
  rewrite load_program_state_run. unfold failed_write.
  split; [by intros ->|]. split; [|split].
  - by destruct (state_file st) as [| |[doc|]].
  - intros [Hf|Hf]; rewrite Hf;
      destruct (write_fault env PROGRAM_STATE_FILE),
               (write_torn env PROGRAM_STATE_FILE); cbn; by rewrite ?Hf.
  - intros doc Hf. rewrite Hf. cbn. by rewrite Hf.
Qed.

(** X20.  [reset_program_state] clears the two names of module
    [program_manager] and then calls [save_program_state], which writes the
    variables of module [program_state]: these are not cleared, and the file,
    when it can be written, records them as they are.  When the write fails
    the file is as it was if it could not be opened, and unreadable if the
    failure came later. *)
Theorem reset_program_state_effect env st :
  result_of (reset_program_state env st) = Ret tt ∧
  pm_program_running (state_of (reset_program_state env st)) = false ∧
  pm_current_program_id (state_of (reset_program_state env st)) = None ∧
  ps_program_running (state_of (reset_program_state env st))
  = ps_program_running st ∧
  ps_current_program_id (state_of (reset_program_state env st))
  = ps_current_program_id st ∧
  state_file (state_of (reset_program_state env st))
  = if write_fault env PROGRAM_STATE_FILE
    then (if write_torn env PROGRAM_STATE_FILE then Corrupt else state_file st)
    else Stored (StateDoc (Some (ps_program_running st))
                          (ps_current_program_id st)).
Proof.
  unfold reset_program_state. rewrite !bind_modify.
  rewrite save_program_state_run. cbn [result_of state_of fst snd].
  unfold failed_write.
  destruct (write_fault env PROGRAM_STATE_FILE),
           (write_torn env PROGRAM_STATE_FILE); cbn; by repeat split.
Qed.

(** ** The name [program_running] of module [web_server] *)

Section WebServerBinding.
Variable env : Env.
Variable b : bool.

Lemma bound_start_zone z d : preserves (bound b) (start_zone env z d).
Proof. apply frame_start_zone; by intros ? ? ?. Qed.

Lemma bound_stop_zone z : preserves (bound b) (stop_zone env z).
Proof. apply frame_stop_zone; by intros ? ? ?. Qed.

Lemma bound_load_settings : preserves (bound b) (load_user_settings env).
Proof. apply frame_load_user_settings; by intros ? ? ?. Qed.

Lemma bound_load_state : preserves (bound b) (load_program_state env).
Proof.
  intros st Hb. rewrite load_program_state_run. unfold failed_write.
  destruct (state_file st) as [| |[doc|]];
    try destruct (write_fault env PROGRAM_STATE_FILE);
    try destruct (write_torn env PROGRAM_STATE_FILE); exact Hb.
Qed.

Lemma bound_save_state : preserves (bound b) (save_program_state env).
Proof.
  intros st Hb. rewrite save_program_state_run. cbn [state_of snd].
  unfold failed_write.
  destruct (write_fault env PROGRAM_STATE_FILE),
           (write_torn env PROGRAM_STATE_FILE); exact Hb.
Qed.

Lemma bound_call c st : bound b st → bound b (run_call env c st).
Proof.
  assert (H1 := bound_start_zone). assert (H2 := bound_stop_zone).
  assert (H3 := bound_load_settings). assert (H4 := bound_load_state).
  assert (H5 := bound_save_state).
  intros Hb. destruct c; cbn [run_call].
  - by apply H1.
  - by apply H2.
  - by apply (frame_stop_all_zones env (bound b)).
  - apply (frame_zone_timer_wakes env (bound b)); try done; by intros ? ? ?.
  - apply (frame_route env (bound b)); try done; by intros ? ? ? ?.
  - apply (frame_asyncio_sleep1 env (bound b)); try done; by intros ? ? ? ?.
  - apply (frame_stop_program env (bound b)); try done; by intros ? ? ? ?.
  - apply (frame_execute_program env (bound b)); try done; by intros ? ? ? ?.
  - apply (frame_check_programs env (bound b)); try done; by intros ? ? ? ?.
Qed.

Lemma bound_calls cs : ∀ st, bound b st → bound b (run_calls env cs st).
Proof.
  induction cs as [|c cs IH]; intros st Hb; [exact Hb|].
  cbn [run_calls foldl]. apply IH. by apply bound_call.
Qed.
End WebServerBinding.

(** X21.  [/get_program_state] answers with the names that [web_server]
    imported, which no function assigns: whatever the kernel has done since
    [st] (zones, programs started by hand or by the scheduler, stops), and
    whatever [program_state.json] holds, the answer names no current program
    and gives for [program_running] the value the name had in [st]; where
    the file parses to something that is not an object, the handler's fixed
    answer, [False], is given.  With the name bound to [False], as it is from
    the import on, the answer is always [False] and no program. *)
Theorem get_program_state_never_changes env calls st :
  result_of (get_program_state env (run_calls env calls st))
  = Ret (ProgramStateReply
           (ws_program_running st
            && negb (state_file_other (run_calls env calls st))) None) ∧
  (ws_program_running st = false →
   result_of (get_program_state env (run_calls env calls st))
   = Ret (ProgramStateReply false None)).
Proof.
  assert (Hreply :
    result_of (get_program_state env (run_calls env calls st))
    = Ret (ProgramStateReply
             (ws_program_running st
              && negb (state_file_other (run_calls env calls st))) None)).
  { pose proof (bound_calls env (ws_program_running st) calls st eq_refl) as Hb.
    pose proof (bound_load_state env (ws_program_running st) _ Hb) as Hb'.
    unfold bound in Hb, Hb'. revert Hb'.
    unfold get_program_state, try_except, bind, state_file_other, state_of.
    rewrite load_program_state_run.
    destruct (state_file (run_calls env calls st)) as [| |[doc|]];
      cbn [snd gets ret result_of fst negb]; intros Hb'.
    1-3: by rewrite Hb', andb_true_r.
    by rewrite andb_false_r. }
  split; [exact Hreply|]. intros Hws. by rewrite Hreply, Hws.
Qed.

(** * The status report *)

Lemma zones_status_of_spec az now zs :
  Forall numbered_zone zs →
  ∃ infos, zones_status_of zs az now = Ret infos ∧
    (∀ zi, zi ∈ infos →
       ∃ n, zi_id zi = JInt n ∧
            zi_active zi = bool_decide (is_Some (az !! n)) ∧
            zi_remaining_time zi
            = match az !! n with
              | Some r => Z.max 0 (zr_duration r * 60 - (now - zr_start_time r))
              | None => 0
              end) ∧
    (∀ j z, j ∈ zs → shows j z → ∃ zi, zi ∈ infos ∧ zi_id zi = JInt z).
Proof.
  induction 1 as [|j zs (m & n & -> & Hid) _ (infos & Hrun & Hall & Hshown)].
  - exists []. split; [reflexivity|]. split.
    + intros zi Hzi. inversion Hzi.
    + intros j z Hj. inversion Hj.
  - cbn [zones_status_of]. unfold dict_get. rewrite Hid.
    cbn [default from_option id py_int].
    destruct (negb (is_str "show" (default JNull (m !! "status")))) eqn:Hshow.
    + exists infos. split; [exact Hrun|]. split; [exact Hall|].
      intros j z [->|Hj]%elem_of_cons Hs; [|by apply (Hshown j z)].
      destruct Hs as (m' & [= <-] & _ & Hst). rewrite Hst in Hshow.
      discriminate.
    + rewrite Hrun. eexists. split; [reflexivity|]. split.
      * intros zi [->|Hzi]%elem_of_cons; [|by apply Hall].
        exists n. cbn [zi_id zi_active zi_remaining_time]. by repeat split.
      * intros j z [->|Hj]%elem_of_cons Hs.
        -- destruct Hs as (m' & [= <-] & Hz & _). rewrite Hid in Hz.
           injection Hz as <-. eexists. split; [apply list_elem_of_here|done].
        -- destruct (Hshown j z Hj Hs) as (zi & Hzi & Hz).
           exists zi. split; [by apply list_elem_of_further|done].
Qed.

Lemma get_zones_status_run env st ds zs :
  settings_file st = Stored (JDict ds) →
  ds !! "zones" = Some (JList zs) →
  get_zones_status env st
  = (match zones_status_of zs (active_zones st) (clock st) with
     | Ret infos => Ret infos
     | Raise e => Raise e
     end, st).
Proof.
  intros Hf Hzs.
  destruct (load_user_settings_readable env st ds Hf) as (d1 & Hload & Hd1).
  unfold get_zones_status. rewrite (bind_run _ _ _ _ _ Hload).
  unfold dict_get at 1. rewrite Hd1. unfold or_default. rewrite Hzs.
  cbn [default from_option id py_iter]. unfold lift, bind, gets.
  by destruct (zones_status_of zs (active_zones st) (clock st)).
Qed.

Lemma settings_file_sleep env st :
  (∀ t, incoming env t = []) →
  settings_file (state_of (asyncio_sleep1 env st)) = settings_file st.
Proof.
  intros Hquiet. rewrite (sleep_state env Hquiet).
  apply (frame_wake_timers env (λ s, settings_file s = settings_file st));
    [|by intros ? ? ?|reflexivity].
  intros z. apply frame_stop_zone; by intros ? ? ?.
Qed.

Lemma settings_file_seconds_pass env n : ∀ st,
  (∀ t, incoming env t = []) →
  settings_file (seconds_pass env n st) = settings_file st.
Proof.
  induction n as [|n IH]; intros st Hquiet; [reflexivity|].
  rewrite seconds_pass_S, settings_file_sleep by done. by apply IH.
Qed.

(** X22.  While a zone started by [start_zone (z, d)] runs, [get_zones_status]
    counts the time down: [k] seconds after the start it returns a list in
    which every entry for zone [z] is active with [d * 60 - k] seconds left,
    and once the [d * 60] seconds are over the entry is inactive with nothing
    left.  Every zone that the settings show has such an entry. *)
Theorem zone_status_counts_down env z d st st' ds zs (k : nat) :
  no_gpio_fault env →
  (∀ t, incoming env t = []) →
  timers_owned st →
  start_zone env z d st = (Ret true, st') →
  settings_file st' = Stored (JDict ds) →
  ds !! "zones" = Some (JList zs) →
  Forall numbered_zone zs →
  Z.of_nat k ≤ d * 60 →
  ∃ infos,
    result_of (get_zones_status env (seconds_pass env k st')) = Ret infos ∧
    (∀ j, j ∈ zs → shows j z → ∃ zi, zi ∈ infos ∧ zi_id zi = JInt z) ∧
    (∀ zi, zi ∈ infos → zi_id zi = JInt z →
           zi_active zi = bool_decide (Z.of_nat k < d * 60) ∧
           zi_remaining_time zi = d * 60 - Z.of_nat k).
Proof.
  intros no_fault Hquiet Hown Hrun Hf Hzs Hnum Hk.
  destruct (start_zone_timeline env z d st st' no_fault Hquiet Hown Hrun)
    as (Hd & pin & Hpin & Hwait & Hoff & _).
  set (s := seconds_pass env k st').
  assert (Hfs : settings_file s = Stored (JDict ds)).
  { unfold s. by rewrite settings_file_seconds_pass. }
  destruct (zones_status_of_spec (active_zones s) (clock s) zs Hnum)
    as (infos & Hinfos & Hall & Hshown).
  exists infos. rewrite (get_zones_status_run env s ds zs Hfs Hzs), Hinfos.
  split; [reflexivity|]. split; [intros j Hj; by apply Hshown|].
  intros zi Hzi Hz. destruct (Hall zi Hzi) as (n & Hn & Hact & Hrem).
  rewrite Hn in Hz. injection Hz as ->. rewrite Hact, Hrem.
  destruct (decide (Z.of_nat k < d * 60)) as [Hlt|Hge].
  - destruct (Hwait k Hlt) as [(Haz & _) Hclock]. fold s in Haz, Hclock.
    rewrite Haz, Hclock. cbn [zr_duration zr_start_time].
    rewrite !bool_decide_eq_true_2 by (done || by eexists).
    split; [reflexivity|]. lia.
  - assert (Hkk : k = Z.to_nat (d * 60)) by lia.
    unfold s. rewrite Hkk, Hoff.
    rewrite !bool_decide_eq_false_2 by (lia || by intros [? ?]).
    split; [reflexivity|]. lia.
Qed.

Lemma factory_zones_numbered (l : list Z) : Forall numbered_zone (factory_zone <$> l).
Proof.
  induction l as [|i l IH]; [constructor|]. constructor; [|exact IH].
  eexists _, i. split; [reflexivity|]. reflexivity.
Qed.

Lemma zone_status_counts_down_witness :
  ∃ infos,
    result_of (get_zones_status (june_env quiet)
                 (seconds_pass (june_env quiet) 30
                    (state_of (start_zone (june_env quiet) 0 1 booted))))
    = Ret infos ∧
    (∃ zi, zi ∈ infos ∧ zi_id zi = JInt 0) ∧
    (∀ zi, zi ∈ infos → zi_id zi = JInt 0 →
           zi_active zi = true ∧ zi_remaining_time zi = 30).
Proof.
  destruct (zone_status_counts_down (june_env quiet) 0 1 booted _ _
              (factory_zone <$> [0; 1; 2]) 30
              (june_env_no_gpio_fault quiet) (λ _, eq_refl) booted_timers_owned
              start_zone0_runs eq_refl eq_refl (factory_zones_numbered _))
    as (infos & Hrun & Hshown & Hall); [cbn; lia|].
  exists infos. split; [exact Hrun|]. split.
  - apply (Hshown (factory_zone 0)); [apply list_elem_of_here|].
    eexists. split; [reflexivity|]. split; reflexivity.
  - exact Hall.
Defined.

(** * The log: how long an entry is kept *)

Lemma log_is_kept_dated env current_day entry date day :
  entry !! "date" = Some (JStr date) → date ≠ "" →
  date_yday env date = Some day →
  log_is_kept env current_day (JDict entry)
  = bool_decide (current_day - day ≤ MAX_LOG_DAYS).
Proof.
  intros Hd Hne Hy. unfold log_is_kept, dict_get. rewrite Hd.
  cbn [default from_option id py_truthy].
  destruct (String.eqb date "") eqn:He; [by apply String.eqb_eq in He|].
  cbn [negb]. rewrite Hy.
  destruct (decide (current_day - day ≤ MAX_LOG_DAYS)) as [Hle|Hgt].
  - rewrite bool_decide_eq_true_2 by done.
    apply orb_true_iff. left. by apply Z.leb_le.
  - rewrite bool_decide_eq_false_2 by done.
    apply orb_false_iff. split; [by apply Z.leb_gt; lia|].
    apply andb_false_iff.
    destruct (day >? current_day) eqn:Hd'; [|by left].
    apply Z.gtb_lt in Hd'. unfold MAX_LOG_DAYS in *. lia.
Qed.

(** X23.  The retention test of [log_event] compares days of the year only.  A
    stored entry whose date can be read survives the next call exactly when
    today's day of the year is at most [MAX_LOG_DAYS] (10) after the entry's:
    the clause for the change of year adds nothing, and an entry dated later
    in the year than today is always kept.  An entry whose date is missing or
    empty is dropped; one whose date cannot be read is kept. *)
Theorem log_retention env now logs entry date day :
  JDict entry ∈ logs →
  entry !! "date" = Some (JStr date) → date ≠ "" →
  date_yday env date = Some day →
  (JDict entry ∈ filter_logs env now logs ↔ local_yday env now - day ≤ 10) ∧
  (local_yday env now < day → JDict entry ∈ filter_logs env now logs) ∧
  (∀ other, other !! "date" = None ∨ other !! "date" = Some (JStr "") →
            JDict other ∉ filter_logs env now logs) ∧
  (∀ other odate, JDict other ∈ logs →
     other !! "date" = Some (JStr odate) → odate ≠ "" →
     date_yday env odate = None →
     JDict other ∈ filter_logs env now logs).
Proof.
  intros Hin Hd Hne Hy.
  assert (Hkeep : ∀ l, l ∈ filter_logs env now logs
                       ↔ log_is_kept env (local_yday env now) l = true ∧ l ∈ logs).
  { intros l. unfold filter_logs.
    rewrite !list_elem_of_In, filter_In. tauto. }
  assert (Hdated := log_is_kept_dated env (local_yday env now) entry date day
                      Hd Hne Hy).
  split; [|split; [|split]].
  - rewrite Hkeep, Hdated, bool_decide_eq_true. unfold MAX_LOG_DAYS. tauto.
  - intros Hlt. rewrite Hkeep, Hdated, bool_decide_eq_true.
    unfold MAX_LOG_DAYS. split; [lia|done].
  - intros other Ho. rewrite Hkeep. intros [Hk _]. revert Hk.
    unfold log_is_kept, dict_get. by destruct Ho as [-> | ->].
  - intros other odate Ho Hod Hone Hoy. rewrite Hkeep. split; [|done].
    unfold log_is_kept, dict_get. rewrite Hod.
    cbn [default from_option id py_truthy].
    destruct (String.eqb odate "") eqn:He; [by apply String.eqb_eq in He|].
    cbn [negb]. by rewrite Hoy.
Qed.

Lemma log_retention_witness :
  log_of "2024-06-15" ∈ filter_logs calendar_env 0
                           [log_of "2024-06-01"; log_of "2024-06-15"] ∧
  log_of "2024-06-01" ∉ filter_logs calendar_env 0
                           [log_of "2024-06-01"; log_of "2024-06-15"].
Proof.
  split.
  - refine (proj2 (proj1 (log_retention calendar_env 0
                            [log_of "2024-06-01"; log_of "2024-06-15"]
                            (entry_of "2024-06-15") "2024-06-15" 167
                            _ eq_refl _ eq_refl)) _).
    + apply list_elem_of_further, list_elem_of_here.
    + discriminate.
    + cbn. lia.
  - intros Hin.
    pose proof (proj1 (proj1 (log_retention calendar_env 0
                            [log_of "2024-06-01"; log_of "2024-06-15"]
                            (entry_of "2024-06-01") "2024-06-01" 153
                            (list_elem_of_here _ _) eq_refl
                            ltac:(discriminate) eq_refl)) Hin) as H.
    cbn in H. lia.
Defined.

(** * The cadence of a program *)

Lemma geb_bool_decide (a b : Z) (P : Prop) `{Decision P} :
  (P ↔ b ≤ a) → (a >=? b) = bool_decide P.
Proof.
  intros HP. destruct (decide P) as [Hp|Hn].
  - rewrite bool_decide_eq_true_2 by done. apply Z.geb_le. by apply HP.
  - rewrite bool_decide_eq_false_2 by done.
    destruct (a >=? b) eqn:Hab; [|done]. apply Z.geb_le in Hab.
    destruct Hn. by apply HP.
Qed.

Lemma is_program_due_today_last_run env now p date last :
  p_last_run_date p = Some date →
  date_yday env date = Some last →
  is_program_due_today env now p
  = match days_between p with
    | Some n => bool_decide (last + n ≤ local_yday env now)
    | None =>
        String.eqb (default "giornaliero" (p_recurrence p)) "giornaliero"
        && negb (last =? local_yday env now)
    end.
Proof.
  intros Hd Hy. unfold is_program_due_today, days_between. rewrite Hd, Hy.
  cbn [default from_option id].
  destruct (String.eqb (default "giornaliero" (p_recurrence p)) "giornaliero")
    eqn:Hdaily.
  - apply String.eqb_eq in Hdaily. rewrite Hdaily. reflexivity.
  - destruct (String.eqb _ "giorni_alterni").
    + apply geb_bool_decide. lia.
    + destruct (String.eqb _ "personalizzata"); [|reflexivity].
      destruct (p_interval_days p) as [i|]; cbn [default from_option id].
      * destruct (i <=? 0) eqn:Hi.
        -- apply Z.leb_le in Hi. replace (Z.max 1 i) with 1 by lia.
           apply geb_bool_decide. lia.
        -- apply Z.leb_gt in Hi. replace (Z.max 1 i) with i by lia.
           apply geb_bool_decide. lia.
      * cbn. apply geb_bool_decide. lia.
Qed.

(** X24.  [is_program_due_today] compares days of the year and forgets the
    year.  A program that runs every [n] days (2 for [giorni_alterni], the
    interval, at least 1, for [personalizzata]) and whose last run was on day
    [last] of some year is due exactly when today's day of the year is at
    least [last + n]: when [last + n] is past the end of the year, the
    scheduler does not find it due on any day. *)
Theorem due_today_forgets_the_year env p date last n :
  p_last_run_date p = Some date →
  date_yday env date = Some last →
  days_between p = Some n →
  (∀ now, is_program_due_today env now p = true ↔ last + n ≤ local_yday env now) ∧
  (366 < last + n →
   ∀ now, local_yday env now ≤ 366 → is_program_due_today env now p = false).
Proof.
  intros Hd Hy Hn.
  assert (Hdue := λ now, is_program_due_today_last_run env now p date last Hd Hy).
  rewrite Hn in Hdue. split.
  - intros now. by rewrite Hdue, bool_decide_eq_true.
  - intros Hlate now Hnow. rewrite Hdue. apply bool_decide_eq_false_2. lia.
Qed.

Lemma due_today_forgets_the_year_witness :
  is_program_due_today (new_year_env 1) 0 program_new_year = false ∧
  is_program_due_today (new_year_env 366) 0 program_new_year = false.
Proof.
  split.
  - exact (proj2 (due_today_forgets_the_year (new_year_env 1) program_new_year
                    "2023-12-31" 365 2 eq_refl eq_refl eq_refl)
             ltac:(lia) 0 ltac:(cbn; lia)).
  - exact (proj2 (due_today_forgets_the_year (new_year_env 366) program_new_year
                    "2023-12-31" 365 2 eq_refl eq_refl eq_refl)
             ltac:(lia) 0 ltac:(cbn; lia)).
Defined.

Lemma clock_update_last_run_date env id st :
  clock (state_of (update_last_run_date env id st)) = clock st.
Proof.
  apply (frame_update_last_run_date env (λ s, clock s = clock st)); done.
Qed.

(** X25.  Once [update_last_run_date] has stamped a stored program, the program
    as [load_programs] returns it is not due again on that day, whatever its
    cadence.  (The calendar is assumed to read back the date it printed.) *)
Theorem ran_today_not_due env ps id q st :
  write_fault env PROGRAM_FILE = false →
  programs_file st = Stored ps →
  alist_lookup id (ensure_id <$> ps) = Some q →
  date_yday env (local_date env (clock st)) = Some (local_yday env (clock st)) →
  result_of (update_last_run_date env id st) = Ret tt ∧
  ∃ ps' q',
    result_of (load_programs env (state_of (update_last_run_date env id st)))
    = Ret ps' ∧
    alist_lookup id ps' = Some q' ∧
    p_last_run_date q' = Some (local_date env (clock st)) ∧
    ∀ now, local_yday env now = local_yday env (clock st) →
           is_program_due_today env now q' = false.
Proof.
  intros Hw Hf Hq Hcal.
  destruct (update_last_run_date_updates env ps id q Hw Hq st Hf) as [Hres Hfile].
  rewrite clock_update_last_run_date in Hfile.
  split; [exact Hres|].
  set (today := local_date env (clock st)) in *.
  exists (ensure_id <$> alist_insert id (with_last_run_date today q) (ensure_id <$> ps)),
         (ensure_id (id, with_last_run_date today q)).2.
  split; [by rewrite (load_programs_stored _ _ _ Hfile)|].
  split; [by rewrite alist_lookup_ensure_id, alist_lookup_insert_eq|].
  assert (Hlast : p_last_run_date (ensure_id (id, with_last_run_date today q)).2
                  = Some today).
  { unfold ensure_id. cbn. by destruct (p_id q). }
  split; [exact Hlast|]. intros now Hnow.
  rewrite (is_program_due_today_last_run env now _ today _ Hlast Hcal).
  rewrite Hnow.
  destruct (days_between _) as [n|] eqn:Hn.
  - apply bool_decide_eq_false_2. unfold days_between in Hn.
    destruct (String.eqb _ "giorni_alterni"); [injection Hn as <-; lia|].
    destruct (String.eqb _ "personalizzata"); [injection Hn as <-; lia|].
    discriminate.
  - rewrite Z.eqb_refl. by rewrite andb_false_r.
Qed.

Lemma ran_today_not_due_witness :
  result_of (update_last_run_date calendar_env "1" booted) = Ret tt ∧
  ∃ ps' q',
    result_of (load_programs calendar_env
                 (state_of (update_last_run_date calendar_env "1" booted)))
    = Ret ps' ∧
    alist_lookup "1" ps' = Some q' ∧
    p_last_run_date q' = Some "2024-06-15" ∧
    ∀ now, is_program_due_today calendar_env now q' = false.
Proof.
  destruct (ran_today_not_due calendar_env [("1", program_A)] "1" program_A booted
              eq_refl eq_refl eq_refl eq_refl)
    as (Hres & ps' & q' & Hload & Hq' & Hlast & Hdue).
  split; [exact Hres|]. exists ps', q'.
  split; [exact Hload|]. split; [exact Hq'|]. split; [exact Hlast|].
  intros now. by apply Hdue.
Defined.

(** * Deleting a program when the store cannot be written *)

Lemma delete_program_write_failure env id ps st :
  write_fault env PROGRAM_FILE = true →
  programs_file st = Stored ps →
  is_Some (alist_lookup id (ensure_id <$> ps)) →
  ∃ s1, delete_program env id st = (Ret false, s1) ∧
        programs_file s1
        = if write_torn env PROGRAM_FILE then Corrupt else Stored ps.
Proof.
  intros Hw Hf [q Hq]. unfold delete_program.
  rewrite (bind_run _ _ _ _ _ (load_programs_stored env st ps Hf)).
  rewrite Hq, !bind_gets.
  destruct (maybe_stop_program env
              (pm_program_running st
               && bool_decide (pm_current_program_id st = Some id)) st)
    as (s1 & Hs1 & Hp).
  rewrite (bind_run _ _ _ _ _ Hs1), save_programs_run, Hw.
  eexists. split; [reflexivity|].
  rewrite programs_file_failed_write, Hp, Hf. reflexivity.
Qed.

(** X26.  [delete_program] reports a failed write like an unknown id, so
    [/delete_program] answers 404 for a program that is stored.  The program
    stays in [program.json] when the file could not be opened; when the write
    failed after that, the file is left unreadable and every stored program
    is lost, under the same answer. *)
Theorem delete_program_route_write_failure env id ps st :
  write_fault env PROGRAM_FILE = true →
  programs_file st = Stored ps →
  is_Some (alist_lookup id (ensure_id <$> ps)) →
  result_of (delete_program_route env (Some id) st) = Ret not_found ∧
  programs_file (state_of (delete_program_route env (Some id) st))
  = if write_torn env PROGRAM_FILE then Corrupt else Stored ps.
Proof.
  intros Hw Hf Hq.
  destruct (delete_program_write_failure env id ps st Hw Hf Hq) as (s1 & Hrun & Hp).
  change (delete_program_route env (Some id))
    with (try_except
            (success <- delete_program env id;;
             if success then ret (Response 200 true) else ret not_found)
            (λ _, ret server_error)).
  unfold try_except. rewrite (bind_run _ _ _ _ _ Hrun). cbn. by split.
Qed.

Lemma delete_program_route_write_failure_witness :
  (result_of (delete_program_route (readonly_env false) (Some "1") booted)
   = Ret not_found ∧
   programs_file (state_of (delete_program_route (readonly_env false)
                              (Some "1") booted))
   = Stored [("1", program_A)]) ∧
  (result_of (delete_program_route (readonly_env true) (Some "1") booted)
   = Ret not_found ∧
   programs_file (state_of (delete_program_route (readonly_env true)
                              (Some "1") booted))
   = Corrupt).
Proof.
  split.
  - exact (delete_program_route_write_failure (readonly_env false) "1"
             [("1", program_A)] booted
             eq_refl eq_refl (ex_intro _ program_A eq_refl)).
  - exact (delete_program_route_write_failure (readonly_env true) "1"
             [("1", program_A)] booted
             eq_refl eq_refl (ex_intro _ program_A eq_refl)).
Defined.


(** ** What a scheduler tick writes to the log *)

Lemma tick_trace_app l1 l2 :
  tick_trace (l1 ++ l2) = tick_trace l1 ++ tick_trace l2.
Proof. apply List.filter_app. Qed.

Lemma tick_trace_quiet e l :
  tick_event e = false → tick_trace (l ++ [e]) = tick_trace l.
Proof.
  intros He. rewrite tick_trace_app. unfold tick_trace at 2. cbn [List.filter].
  rewrite He. apply app_nil_r.
Qed.

Lemma tick_trace_loud e l :
  tick_event e = true → tick_trace (l ++ [e]) = tick_trace l ++ [e].
Proof.
  intros He. rewrite tick_trace_app. unfold tick_trace at 2. cbn [List.filter].
  by rewrite He.
Qed.

Lemma traced_quiet T e st :
  tick_event e = false → traced T st → traced T (add_log e st).
Proof.
  intros He [Hidle HT]. split; [exact Hidle|].
  cbn [log add_log]. by rewrite tick_trace_quiet.
Qed.

Lemma traced_loud T e st :
  tick_event e = true → traced T st → traced (T ++ [e]) (add_log e st).
Proof.
  intros He [Hidle HT]. split; [exact Hidle|].
  cbn [log add_log]. by rewrite tick_trace_loud, HT.
Qed.

(** Sequencing after a call that returns and keeps an invariant. *)
Lemma hoare_seq_returns {A B} (I : State → Prop) (m : M A) (k : A → M B)
    (Q : outcome B → State → Prop) :
  returns m → preserves I m → (∀ a, hoare I (k a) Q) → hoare I (bind m k) Q.
Proof.
  intros Hr Hp Hk st HI.
  destruct (run_returns_preserves I m st Hr Hp HI) as (a & st' & Hm & HI').
  unfold bind, result_of, state_of. rewrite Hm. apply Hk, HI'.
Qed.

Lemma hoare_seq_modify {B} (P P' : State → Prop) (f : State → State)
    (k : unit → M B) (Q : outcome B → State → Prop) :
  (∀ st, P st → P' (f st)) → hoare P' (k tt) Q → hoare P (bind (modify f) k) Q.
Proof. intros Hf Hk st HP. apply Hk, Hf, HP. Qed.

Section TickTrace.
Variable env : Env.
Variable T : list log_entry.

Lemma traced_start_zone z d : preserves (traced T) (start_zone env z d).
Proof. apply (never_skipped_start_zone (λ l, tick_trace l = T)). Qed.

Lemma traced_stop_zone z : preserves (traced T) (stop_zone env z).
Proof. apply (never_skipped_stop_zone (λ l, tick_trace l = T)). Qed.

Lemma traced_load_settings : preserves (traced T) (load_user_settings env).
Proof. apply (never_skipped_load_settings (λ l, tick_trace l = T)). Qed.

Lemma traced_load_state : preserves (traced T) (load_program_state env).
Proof. apply (never_skipped_load_state (λ l, tick_trace l = T)). Qed.

Lemma traced_save_state : preserves (traced T) (save_program_state env).
Proof. apply (never_skipped_save_state (λ l, tick_trace l = T)). Qed.

Lemma traced_stop_all : preserves (traced T) (stop_all_zones env).
Proof. apply frame_stop_all_zones, traced_stop_zone. Qed.

Lemma traced_sleep : preserves (traced T) (asyncio_sleep1 env).
Proof.
  apply frame_asyncio_sleep1;
    auto using traced_start_zone, traced_stop_zone, traced_load_settings,
      traced_load_state, traced_save_state, traced_quiet.
Qed.

Lemma traced_run_steps i n delay steps :
  preserves (traced T) (run_steps env i n delay steps).
Proof.
  apply frame_run_steps;
    auto using traced_start_zone, traced_stop_zone, traced_load_settings,
      traced_load_state, traced_save_state, traced_quiet.
Qed.

Lemma traced_update_last_run_date id :
  preserves (traced T) (update_last_run_date env id).
Proof. apply frame_update_last_run_date; auto using traced_quiet. Qed.

Lemma traced_load_programs : preserves (traced T) (load_programs env).
Proof. apply frame_load_programs. intros; assumption. Qed.

Lemma traced_cleanup : preserves (traced T) (execute_cleanup env).
Proof.
  unfold execute_cleanup. pres;
    try apply traced_save_state; try apply traced_stop_all.
Qed.
End TickTrace.

Section TickRun.
Variable env : Env.

(** A scheduled run adds one scheduler entry to the log: its own start. *)
Lemma execute_program_trace T p :
  hoare (traced T) (execute_program env p false)
        (λ _, traced (T ++ [LogProgramStart (default "Senza nome" (p_name p))
                                           (default "0" (p_id p))])).
Proof.
  intros st HT.
  assert (Hps : ps_program_running st = false) by apply HT.
  unfold execute_program. cbv zeta. rewrite bind_modify, bind_gets.
  cbn [pm_program_running set_pm_current_program_id set_pm_program_running].
  rewrite Hps. cbn [negb].
  set (st0 := set_pm_current_program_id _ _).
  assert (HT0 : traced T st0) by exact HT.
  clearbody st0.
  apply (λ H : hoare (traced T) _ (λ _ s, traced _ s), H st0 HT0).
  apply hoare_seq_returns.
  { unfold get_active_zones_count. returns_auto.
    - apply stop_all_zones_returns.
    - apply asyncio_sleep1_returns. }
  { unfold get_active_zones_count. pres.
    - apply traced_stop_all.
    - apply traced_sleep. }
  intros [].
  apply hoare_seq_returns;
    [apply stop_all_zones_returns|apply traced_stop_all|intros _].
  apply hoare_seq_modify with (P' := traced T); [intros; assumption|].
  apply hoare_seq_modify with (P' := traced T); [intros; assumption|].
  apply hoare_seq_returns;
    [apply save_program_state_returns|apply traced_save_state|intros _].
  eapply hoare_seq_modify.
  { intros s Hs. apply traced_loud; [reflexivity|exact Hs]. }
  apply hoare_preserves.
  pres;
    try apply traced_load_settings; try apply traced_run_steps;
    try apply traced_update_last_run_date; try apply traced_cleanup;
    try (apply traced_quiet; [reflexivity|assumption]).
Qed.

Lemma announced_and_started_trace T kv :
  (T ++ [LogScheduledStart (default "Senza nome" (p_name kv.2))])
    ++ [LogProgramStart (default "Senza nome" (p_name kv.2))
                        (default "0" (p_id kv.2))]
  = T ++ announced_and_started kv.
Proof. by rewrite <- app_assoc. Qed.

(** The loop of [check_programs], entered with the executor's flag clear:
    each program is examined at some clock reading, the first at once; those
    that fire are announced and started, in the order of the dictionary. *)
Lemma scan_programs_trace t ps : ∀ T st,
  traced T st → executor_idle st →
  ∃ nows,
    traced (T ++ flat_map announced_and_started (firing env t nows ps))
           (state_of (scan_programs env t ps st)) ∧
    (result_of (scan_programs env t ps st) = Ret tt →
     length nows = length ps) ∧
    (∀ now, head nows = Some now → now = clock st).
Proof.
  induction ps as [|[pid p] ps IH]; intros T st HT Hidle.
  { exists []. cbn [firing flat_map scan_programs]. rewrite app_nil_r.
    split; [exact HT|]. split; [done|]. by intros now [=]. }
  cbn [scan_programs]. rewrite bind_gets.
  change (String.eqb t (default "" (p_activation_time p))
          && is_program_active_in_current_month env (clock st) p
          && is_program_due_today env (clock st) p)
    with (fires env t (clock st) p).
  destruct (fires env t (clock st) p) eqn:Hf.
  2:{ destruct (IH T st HT Hidle) as (nows & Htr & Hlen & Hhd).
      exists (clock st :: nows). cbn [firing snd]. rewrite Hf.
      msimpl. split; [exact Htr|]. split; [|by intros now [= <-]].
      intros Hret. cbn [length]. f_equal. by apply Hlen. }
  set (name := default "Senza nome" (p_name p)).
  set (st1 := add_log (LogScheduledStart name) st).
  assert (HT1 : traced (T ++ [LogScheduledStart name]) st1)
    by (apply traced_loud; [reflexivity|exact HT]).
  assert (HT2 : traced (T ++ announced_and_started (pid, p))
                       (state_of (execute_program env p false st1))).
  { rewrite <- (announced_and_started_trace T (pid, p)).
    exact (execute_program_trace _ p st1 HT1). }
  pose proof (execute_program_ends_idle env p false st1 (proj1 (proj1 HT1)))
    as Hidle2.
  assert (Hone : firing env t [clock st] ((pid, p) :: ps) = [(pid, p)]).
  { cbn [firing snd]. rewrite Hf. by destruct ps. }
  assert (Hstop : ∀ o st',
    traced (T ++ announced_and_started (pid, p)) st' →
    ∃ nows,
      traced (T ++ flat_map announced_and_started
                     (firing env t nows ((pid, p) :: ps))) st' ∧
      (Raise o = Ret tt → length nows = length ((pid, p) :: ps)) ∧
      (∀ now, head nows = Some now → now = clock st)).
  { intros o st' Hst'. exists [clock st]. rewrite Hone. cbn [flat_map].
    rewrite app_nil_r. split; [exact Hst'|]. split; [done|by intros now [= <-]]. }
  assert (Hgo : ∀ st',
    traced (T ++ announced_and_started (pid, p)) st' → executor_idle st' →
    ∃ nows,
      traced (T ++ flat_map announced_and_started
                     (firing env t nows ((pid, p) :: ps)))
             (state_of (scan_programs env t ps st')) ∧
      (result_of (scan_programs env t ps st') = Ret tt →
       length nows = length ((pid, p) :: ps)) ∧
      (∀ now, head nows = Some now → now = clock st)).
  { intros st' Hst' Hid'.
    destruct (IH _ st' Hst' Hid') as (nows & Htr & Hlen & _).
    exists (clock st :: nows). cbn [firing snd]. rewrite Hf. cbn [flat_map].
    rewrite app_assoc. split; [exact Htr|]. split; [|by intros now [= <-]].
    intros Hret. cbn [length]. f_equal. by apply Hlen. }
  unfold executor_idle in Hidle.
  msimpl. msimpl. rewrite Hidle. msimpl. fold name. fold st1.
  unfold state_of, result_of in HT2, Hidle2.
  destruct (execute_program env p false st1) as [[success|e] st2];
    cbn [fst snd] in HT2, Hidle2; [|by apply Hstop].
  destruct success.
  - pose proof (traced_update_last_run_date env _ pid st2 HT2) as HT3.
    pose proof (executor_idle_update_last_run_date env pid st2 Hidle2) as Hidle3.
    unfold state_of in HT3, Hidle3.
    destruct (update_last_run_date env pid st2) as [[[]|e] st3];
      cbn [snd] in HT3, Hidle3; [by apply Hgo|by apply Hstop].
  - by apply Hgo.
Qed.

Lemma load_programs_result st :
  result_of (load_programs env st) = Ret (stored_programs st).
Proof.
  destruct (load_programs_runs env st)
    as (ps0 & st0 & Hrun &
        [(ps & Hf & -> & ->)|[(-> & Hf & ->)|(-> & Hf & ->)]]);
    rewrite Hrun; unfold stored_programs; by rewrite Hf.
Qed.

(** What the tick keeps from its start to the loop. *)
Let tick_frame (T : list log_entry) (st0 st : State) : Prop :=
  traced T st ∧ executor_idle st ∧ clock st = clock st0.

Lemma tick_frame_load_settings T st0 :
  preserves (λ st, tick_frame T st0 st ∧ programs_file st = programs_file st0)
            (load_user_settings env).
Proof. apply frame_load_user_settings. intros; assumption. Qed.

Lemma tick_frame_load_programs T st0 :
  preserves (tick_frame T st0) (load_programs env).
Proof. apply frame_load_programs. intros; assumption. Qed.

Lemma check_programs_trace T st :
  traced T st → executor_idle st →
  ∃ nows,
    traced (T ++ flat_map announced_and_started
                   (firing env (local_hhmm env (clock st)) nows
                      (stored_programs st)))
           (state_of (check_programs env st)) ∧
    (scheduler_enabled env st →
     result_of (check_programs env st) = Ret tt →
     length nows = length (stored_programs st)) ∧
    (∀ now, head nows = Some now → now = clock st).
Proof.
  intros HT Hidle.
  assert (Hnone : ∀ st', traced T st' →
    traced (T ++ flat_map announced_and_started
                   (firing env (local_hhmm env (clock st)) []
                      (stored_programs st))) st').
  { intros st' Hst'. cbn [firing flat_map]. by rewrite app_nil_r. }
  pose proof (tick_frame_load_settings T st st
                (conj (conj HT (conj Hidle eq_refl)) eq_refl)) as H1.
  unfold check_programs, scheduler_enabled. msimpl.
  unfold state_of in H1.
  destruct (load_user_settings env st) as [[settings|e] st1];
    cbn [fst snd] in *.
  2:{ exists []. split; [apply Hnone, H1|].
      split; [by intros (s & [=] & _)|by intros now [=]]. }
  destruct H1 as [(HT1 & Hidle1 & Hclock1) Hfile1].
  destruct (py_truthy _) eqn:Hen; cbn [negb].
  2:{ exists []. split; [by apply Hnone|].
      split; [|by intros now [=]].
      intros (s & [= <-] & Hs). congruence. }
  pose proof (load_programs_result st1) as Hres.
  pose proof (tick_frame_load_programs T st st1 (conj HT1 (conj Hidle1 Hclock1)))
    as (HT2 & Hidle2 & Hclock2).
  assert (Hsame : stored_programs st1 = stored_programs st)
    by (unfold stored_programs; by rewrite Hfile1).
  rewrite Hsame in Hres.
  unfold state_of, result_of in HT2, Hidle2, Hclock2, Hres.
  destruct (load_programs env st1) as [o st2]. cbn [fst snd] in *. subst o.
  destruct (stored_programs st) as [|kv ps] eqn:Hps.
  { exists []. split; [by apply Hnone|]. split; [done|by intros now [=]]. }
  rewrite Hclock2.
  destruct (scan_programs_trace (local_hhmm env (clock st)) (kv :: ps) T st2
              HT2 Hidle2) as (nows & Htr & Hlen & Hhd).
  exists nows. split; [exact Htr|]. split; [intros _; exact Hlen|].
  intros now Hnow. rewrite <- Hclock2. by apply Hhd.
Qed.
End TickRun.

(** The programs that fire keep the order of the dictionary. *)
Lemma firing_sublist env t nows ps : firing env t nows ps `sublist_of` ps.
Proof.
  revert nows. induction ps as [|kv ps IH]; intros [|now nows]; cbn [firing];
    try apply sublist_nil_l.
  destruct (fires env t now kv.2); [apply sublist_skip|apply sublist_cons];
    apply IH.
Qed.

Lemma int_keys_cons pid (p : program) ps ns :
  int_keys ((pid, p) :: ps) = Ret ns →
  ∃ n ns', py_int_of_str pid = Ret n ∧ int_keys ps = Ret ns' ∧ ns = n :: ns'.
Proof.
  cbn [int_keys]. destruct (py_int_of_str pid) as [n|e]; [|done].
  destruct (int_keys ps) as [ns'|e]; [|done].
  intros [= <-]. by exists n, ns'.
Qed.

Lemma int_keys_sublist (qs ps : programs) :
  qs `sublist_of` ps → ∀ ns, int_keys ps = Ret ns →
  ∃ ms, int_keys qs = Ret ms ∧ ms `sublist_of` ns.
Proof.
  induction 1 as [|[pid p] qs ps Hsub IH|[pid p] qs ps Hsub IH]; intros ns Hns.
  - exists []. split; [done|apply sublist_nil_l].
  - destruct (int_keys_cons _ _ _ _ Hns) as (n & ns' & Hn & Hns' & ->).
    destruct (IH _ Hns') as (ms & Hms & Hsubm).
    exists (n :: ms). cbn [int_keys]. rewrite Hn, Hms.
    split; [done|by apply sublist_skip].
  - destruct (int_keys_cons _ _ _ _ Hns) as (n & ns' & Hn & Hns' & ->).
    destruct (IH _ Hns') as (ms & Hms & Hsubm).
    exists ms. split; [done|by apply sublist_cons].
Qed.

Lemma ascending_sublist ms ns :
  ms `sublist_of` ns → ascending ns → ascending ms.
Proof.
  induction 1 as [|n ms ns Hsub IH|n ms ns Hsub IH]; cbn [ascending].
  - done.
  - intros [Hall Hasc]. split; [|by apply IH].
    apply Forall_forall. intros m Hm.
    rewrite Forall_forall in Hall. apply Hall. by eapply elem_of_sublist.
  - intros [_ Hasc]. by apply IH.
Qed.

Lemma firing_ascending env t nows ps :
  ids_ascending ps → ids_ascending (firing env t nows ps).
Proof.
  intros (ns & Hns & Hasc).
  destruct (int_keys_sublist _ _ (firing_sublist env t nows ps) ns Hns)
    as (ms & Hms & Hsub).
  exists ms. split; [exact Hms|by eapply ascending_sublist].
Qed.

Lemma not_busy_announced (run : programs) :
  LogSchedulerBusy ∉ flat_map announced_and_started run.
Proof.
  induction run as [|kv run IH]; cbn [flat_map]; [apply not_elem_of_nil|].
  rewrite elem_of_app. intros [H|H]; [|by apply IH].
  unfold announced_and_started in H.
  apply elem_of_cons in H as [H|H]; [done|].
  apply elem_of_cons in H as [H|H]; [done|]. by apply elem_of_nil in H.
Qed.

Lemma elem_of_tick_trace e l : tick_event e = true → e ∈ l → e ∈ tick_trace l.
Proof.
  intros He Hin. unfold tick_trace.
  apply list_elem_of_In, List.filter_In. split; [by apply list_elem_of_In|exact He].
Qed.

Lemma tick_trace_elem_of e l : e ∈ tick_trace l → e ∈ l.
Proof.
  unfold tick_trace. rewrite !list_elem_of_In, List.filter_In. tauto.
Qed.

(** C5 (amended).  In a scheduler tick that starts with no program running,
    the stored programs are examined in the order of the dictionary (which is
    the ascending numeric order of the ids where the keys ascend), the HH:MM
    string being read once, at the start of the tick, and the month and the
    day when the loop reaches a program, the first program at once.  Every
    program that satisfies the three firing conditions when it is reached is
    announced and then started by [execute_program]; none is skipped as busy.
    The scheduler entries that the tick adds to the log are exactly the
    announcement and the start of each program that fired, in that order;
    when the scheduler is enabled and the tick returns, every stored program
    was examined. *)
Theorem scheduler_runs_every_match env st :
  program_state_idle st →
  pm_program_running st = false →
  ∃ nows,
    tick_trace (log (state_of (check_programs env st)))
    = tick_trace (log st)
      ++ flat_map announced_and_started
           (firing env (local_hhmm env (clock st)) nows (stored_programs st)) ∧
    (scheduler_enabled env st →
     result_of (check_programs env st) = Ret tt →
     length nows = length (stored_programs st)) ∧
    (∀ now, head nows = Some now → now = clock st) ∧
    (ids_ascending (stored_programs st) →
     ids_ascending
       (firing env (local_hhmm env (clock st)) nows (stored_programs st))) ∧
    (LogSchedulerBusy ∉ log st →
     LogSchedulerBusy ∉ log (state_of (check_programs env st))).
Proof.
  intros Hidle Hpm.
  destruct (check_programs_trace env (tick_trace (log st)) st
              (conj Hidle eq_refl) Hpm) as (nows & [_ Htr] & Hlen & Hhd).
  exists nows. split; [exact Htr|]. split; [exact Hlen|]. split; [exact Hhd|].
  split; [apply firing_ascending|].
  intros Hlog Hin. apply (elem_of_tick_trace LogSchedulerBusy _ eq_refl) in Hin.
  rewrite Htr, elem_of_app in Hin. destruct Hin as [Hin|Hin].
  - by apply Hlog, tick_trace_elem_of.
  - by apply not_busy_announced in Hin.
Qed.

Lemma night_store_idle : program_state_idle night_store.
Proof. split; [reflexivity|]. vm_compute. discriminate. Defined.

Lemma scheduler_runs_every_match_witness :
  program_state_idle night_store ∧
  pm_program_running night_store = false ∧
  ∃ nows,
    tick_trace (log (state_of (check_programs month_end_env night_store)))
    = tick_trace (log night_store)
      ++ flat_map announced_and_started
           (firing month_end_env (local_hhmm month_end_env (clock night_store))
              nows (stored_programs night_store)) ∧
    (scheduler_enabled month_end_env night_store →
     result_of (check_programs month_end_env night_store) = Ret tt →
     length nows = length (stored_programs night_store)) ∧
    (∀ now, head nows = Some now → now = clock night_store) ∧
    (ids_ascending (stored_programs night_store) →
     ids_ascending
       (firing month_end_env (local_hhmm month_end_env (clock night_store))
          nows (stored_programs night_store))) ∧
    (LogSchedulerBusy ∉ log night_store →
     LogSchedulerBusy ∉ log (state_of (check_programs month_end_env night_store))).
Proof.
  split; [exact night_store_idle|]. split; [reflexivity|].
  exact (scheduler_runs_every_match month_end_env night_store
           night_store_idle eq_refl).
Defined.

(** C5, as stated, fails.  Program A, for June, and program B, for July, both
    for 23:59, are saved through [/save_program], which accepts them since
    their months are disjoint.  The tick of 23:59 on 30 June reads the time
    string once: A fires at once and is run, its one-minute step ends at
    midnight, and B, reached on 1 July with the time string of the tick, fires
    as well and is run in the same tick.  B is not skipped: the log has the
    start of both runs and no busy entry. *)
Lemma both_matches_run_across_midnight :
  result_of (save_program_route month_end_env program_june_night no_programs)
    = Ret (Response 200 true) ∧
  result_of (save_program_route month_end_env program_july_night
               (state_of (save_program_route month_end_env program_june_night
                            no_programs)))
    = Ret (Response 200 true) ∧
  stored_programs night_store
    = [("1", with_id "1" program_june_night);
       ("2", with_id "2" program_july_night)] ∧
  pm_program_running night_store = false ∧
  local_hhmm month_end_env (clock night_store) = "23:59" ∧
  fires month_end_env "23:59" (clock night_store)
        (with_id "1" program_june_night) = true ∧
  clock (state_of (scan_programs month_end_env "23:59"
                     [("1", with_id "1" program_june_night)] night_store))
    = 60 ∧
  fires month_end_env "23:59" 60 (with_id "2" program_july_night) = true ∧
  result_of (check_programs month_end_env night_store) = Ret tt ∧
  log (state_of (check_programs month_end_env night_store))
  = [LogScheduledStart "A"; LogProgramStart "A" "1";
     LogLastRun "1" "2024-07-01"; LogProgramCompleted "A";
     LogLastRun "1" "2024-07-01";
     LogScheduledStart "B"; LogProgramStart "B" "2";
     LogLastRun "2" "2024-07-01"; LogProgramCompleted "B";
     LogLastRun "2" "2024-07-01"].
Proof. vm_compute. repeat split. Qed.